(** * spring-petals: a shallow embedding of the scene orchestrator, the GPU
    resource loader and the four effect layers, with the properties of the
    specification stated and proved over it.

    Conventions of the embedding.
    - Host-side (TypeScript) numbers are rationals [Q]: every host computation
      involved is built from [+ - * /], [Math.min], [Math.max] and
      [Math.round], all exact on [Q].  IEEE rounding of doubles is not modelled.
    - Shader-side (GLSL) floats are real numbers [R], because the shaders use
      [sin], [cos] and [fract].  Rounding of 32-bit floats is not modelled.
    - WebGL is an external device: its commands are recorded in a trace, and the
      outcomes it decides (allocation, compile and link status, info logs) are
      read from a [driver] record.
    - Promises are one-shot cells; the reactions of a settled promise run
      together with the event that settles it (no other task can run between a
      settlement and its microtasks). *)

From Stdlib Require Import List String Bool ZArith QArith Qround Qminmax.
From Stdlib Require Import Reals Qreals Psatz Permutation.
Import ListNotations.

(* Numeric literals are read in the scope each module opens. *)
Close Scope Q_scope.

(* ===================================================================== *)
(** * gl.ts (src/unnamed/part_000): shader and program creation           *)
(* ===================================================================== *)

Module Gl.

Local Open Scope string_scope.

Definition handle := nat.

Inductive shader_type := VERTEX_SHADER | FRAGMENT_SHADER.

(** Objects of the WebGL context.  [deleteShader]/[deleteProgram] set the
    object's DELETE_STATUS. *)
Record shader_obj := {
  sh_type : shader_type;
  sh_source : string;
  sh_compiled : bool;
  sh_deleted : bool }.

Record program_obj := {
  pr_attached : list handle;
  pr_linked : bool;
  pr_deleted : bool }.

(** What the GPU driver decides. *)
Record driver := {
  alloc_shader : handle -> bool;      (* does gl.createShader return an object *)
  alloc_program : handle -> bool;     (* does gl.createProgram return an object *)
  compile_status : shader_type -> string -> bool;
  shader_info_log : shader_type -> string -> option string;
  link_status : list (shader_type * string) -> bool;
  program_info_log : list (shader_type * string) -> option string }.

(** The commands of this file, as issued on the context. *)
Inductive glcall :=
| CreateShader (ty : shader_type)
| ShaderSource (s : handle) (src : string)
| CompileShader (s : handle)
| GetShaderParameter_COMPILE_STATUS (s : handle)
| GetShaderInfoLog (s : handle)
| DeleteShader (s : handle)
| CreateProgram
| AttachShader (p s : handle)
| LinkProgram (p : handle)
| GetProgramParameter_LINK_STATUS (p : handle)
| GetProgramInfoLog (p : handle)
| DeleteProgram (p : handle).

(** [calls] holds the commands issued so far, the most recent first. *)
Record glstate := {
  fresh : handle;
  shaders : handle -> option shader_obj;
  programs : handle -> option program_obj;
  calls : list glcall }.

Definition trace (st : glstate) : list glcall := rev (calls st).

Definition initial : glstate :=
  {| fresh := 1; shaders := fun _ => None; programs := fun _ => None; calls := [] |}.

Definition upd {A} (m : handle -> option A) (k : handle) (v : A) : handle -> option A :=
  fun k' => if Nat.eqb k' k then Some v else m k'.

(** ** A state monad with exceptions: [throw new Error(msg)] is [Throw msg]. *)

Inductive result (A : Type) :=
| Ok (a : A)
| Throw (msg : string).
Arguments Ok {A} a.
Arguments Throw {A} msg.

Definition M (A : Type) := glstate -> result A * glstate.

Definition ret {A} (a : A) : M A := fun st => (Ok a, st).
Definition throw {A} (msg : string) : M A := fun st => (Throw msg, st).
Definition bind {A B} (m : M A) (k : A -> M B) : M B :=
  fun st => match m st with
            | (Ok a, st') => k a st'
            | (Throw e, st') => (Throw e, st')
            end.

Notation "x <- m ;; k" := (bind m (fun x => k))
  (at level 61, m at next level, right associativity).
Notation "m ;;; k" := (bind m (fun _ => k))
  (at level 61, right associativity).

Definition record (c : glcall) (st : glstate) : glstate :=
  {| fresh := fresh st; shaders := shaders st; programs := programs st;
     calls := c :: calls st |}.

Section Context.

Variable drv : driver.

(** *** The context's methods *)

Definition gl_createShader (ty : shader_type) : M (option handle) := fun st =>
  let st := record (CreateShader ty) st in
  let h := fresh st in
  if alloc_shader drv h then
    (Ok (Some h),
     {| fresh := S h;
        shaders := upd (shaders st) h
                     {| sh_type := ty; sh_source := EmptyString; sh_compiled := false;
                        sh_deleted := false |};
        programs := programs st; calls := calls st |})
  else (Ok None, st).

Definition set_shader (s : handle) (f : shader_obj -> shader_obj) (st : glstate) : glstate :=
  match shaders st s with
  | Some o => {| fresh := fresh st; shaders := upd (shaders st) s (f o);
                 programs := programs st; calls := calls st |}
  | None => st
  end.

Definition set_program (p : handle) (f : program_obj -> program_obj) (st : glstate) : glstate :=
  match programs st p with
  | Some o => {| fresh := fresh st; shaders := shaders st;
                 programs := upd (programs st) p (f o); calls := calls st |}
  | None => st
  end.

Definition gl_shaderSource (s : handle) (src : string) : M unit := fun st =>
  (Ok tt, set_shader s (fun o => {| sh_type := sh_type o; sh_source := src;
                                    sh_compiled := sh_compiled o;
                                    sh_deleted := sh_deleted o |})
            (record (ShaderSource s src) st)).

Definition gl_compileShader (s : handle) : M unit := fun st =>
  (Ok tt, set_shader s (fun o => {| sh_type := sh_type o; sh_source := sh_source o;
                                    sh_compiled := compile_status drv (sh_type o) (sh_source o);
                                    sh_deleted := sh_deleted o |})
            (record (CompileShader s) st)).

Definition gl_getShaderParameter_COMPILE_STATUS (s : handle) : M bool := fun st =>
  (Ok (match shaders st s with Some o => sh_compiled o | None => false end),
   record (GetShaderParameter_COMPILE_STATUS s) st).

Definition gl_getShaderInfoLog (s : handle) : M (option string) := fun st =>
  (Ok (match shaders st s with
       | Some o => shader_info_log drv (sh_type o) (sh_source o)
       | None => None
       end),
   record (GetShaderInfoLog s) st).

Definition gl_deleteShader (s : handle) : M unit := fun st =>
  (Ok tt, set_shader s (fun o => {| sh_type := sh_type o; sh_source := sh_source o;
                                    sh_compiled := sh_compiled o; sh_deleted := true |})
            (record (DeleteShader s) st)).

Definition gl_createProgram : M (option handle) := fun st =>
  let st := record CreateProgram st in
  let h := fresh st in
  if alloc_program drv h then
    (Ok (Some h),
     {| fresh := S h; shaders := shaders st;
        programs := upd (programs st) h
                      {| pr_attached := []; pr_linked := false; pr_deleted := false |};
        calls := calls st |})
  else (Ok None, st).

Definition gl_attachShader (p s : handle) : M unit := fun st =>
  (Ok tt, set_program p (fun o => {| pr_attached := pr_attached o ++ [s];
                                     pr_linked := pr_linked o;
                                     pr_deleted := pr_deleted o |})
            (record (AttachShader p s) st)).

(** The sources the linker sees: those of the attached shader objects. *)
Definition attached_sources (st : glstate) (o : program_obj) : list (shader_type * string) :=
  flat_map (fun s => match shaders st s with
                     | Some so => [(sh_type so, sh_source so)]
                     | None => []
                     end) (pr_attached o).

Definition gl_linkProgram (p : handle) : M unit := fun st =>
  let st := record (LinkProgram p) st in
  (Ok tt, set_program p (fun o => {| pr_attached := pr_attached o;
                                     pr_linked := link_status drv (attached_sources st o);
                                     pr_deleted := pr_deleted o |}) st).

Definition gl_getProgramParameter_LINK_STATUS (p : handle) : M bool := fun st =>
  (Ok (match programs st p with Some o => pr_linked o | None => false end),
   record (GetProgramParameter_LINK_STATUS p) st).

Definition gl_getProgramInfoLog (p : handle) : M (option string) := fun st =>
  (Ok (match programs st p with
       | Some o => program_info_log drv (attached_sources st o)
       | None => None
       end),
   record (GetProgramInfoLog p) st).

Definition gl_deleteProgram (p : handle) : M unit := fun st =>
  (Ok tt, set_program p (fun o => {| pr_attached := pr_attached o;
                                     pr_linked := pr_linked o; pr_deleted := true |})
            (record (DeleteProgram p) st)).

(** [log ?? fallback] *)
Definition nullish (log : option string) (fallback : string) : string :=
  match log with Some l => l | None => fallback end.

(** *** createShader *)
Definition createShader (ty : shader_type) (source : string) : M handle :=
  shader <- gl_createShader ty ;;
  match shader with
  | None => throw "Unable to create shader"
  | Some shader =>
      gl_shaderSource shader source ;;;
      gl_compileShader shader ;;;
      ok <- gl_getShaderParameter_COMPILE_STATUS shader ;;
      if negb ok then
        log <- gl_getShaderInfoLog shader ;;
        gl_deleteShader shader ;;;
        throw (nullish log "Shader compile error")
      else ret shader
  end.

(** *** createProgram *)
Definition createProgram (vs fs : string) : M handle :=
  program <- gl_createProgram ;;
  match program with
  | None => throw "Unable to create program"
  | Some program =>
      vShader <- createShader VERTEX_SHADER vs ;;
      fShader <- createShader FRAGMENT_SHADER fs ;;
      gl_attachShader program vShader ;;;
      gl_attachShader program fShader ;;;
      gl_linkProgram program ;;;
      gl_deleteShader vShader ;;;
      gl_deleteShader fShader ;;;
      ok <- gl_getProgramParameter_LINK_STATUS program ;;
      if negb ok then
        log <- gl_getProgramInfoLog program ;;
        gl_deleteProgram program ;;;
        throw (nullish log "Program link error")
      else ret program
  end.

End Context.

(** Observations on a final state. *)
Definition shader_deleted (st : glstate) (s : handle) : bool :=
  match shaders st s with Some o => sh_deleted o | None => false end.
Definition program_deleted (st : glstate) (p : handle) : bool :=
  match programs st p with Some o => pr_deleted o | None => false end.
Definition program_linked (st : glstate) (p : handle) : bool :=
  match programs st p with Some o => pr_linked o | None => false end.

End Gl.

(* ===================================================================== *)
(** * Promises, and [loadTexture] of gl.ts                                 *)
(* ===================================================================== *)

Module Promise.

Inductive state (A : Type) :=
| Pending
| Fulfilled (v : A)
| Rejected (reason : string).
Arguments Pending {A}.
Arguments Fulfilled {A} v.
Arguments Rejected {A} reason.

(** [resolve]/[reject] only act on a pending promise. *)
Definition settle {A} (p outcome : state A) : state A :=
  match p with Pending => outcome | _ => p end.

Definition is_fulfilled {A} (p : state A) : bool :=
  match p with Fulfilled _ => true | _ => false end.
Definition is_rejected {A} (p : state A) : bool :=
  match p with Rejected _ => true | _ => false end.

(** The values of the inputs when every one is fulfilled. *)
Fixpoint values {A} (ps : list (state A)) : option (list A) :=
  match ps with
  | [] => Some []
  | Fulfilled v :: ps' => option_map (cons v) (values ps')
  | _ :: _ => None
  end.

(** The reason of a rejected input. *)
Fixpoint rejection {A} (ps : list (state A)) : option string :=
  match ps with
  | [] => None
  | Rejected r :: _ => Some r
  | _ :: ps' => rejection ps'
  end.

(** The promise [Promise.all(inputs)], brought up to date after one of its
    inputs settled: it rejects with the input that rejected, fulfils once all
    inputs are fulfilled, and never changes once settled. *)
Definition all {A} (cell : state (list A)) (inputs : list (state A)) : state (list A) :=
  match cell with
  | Pending =>
      match rejection inputs with
      | Some r => Rejected r
      | None => match values inputs with
                | Some vs => Fulfilled vs
                | None => Pending
                end
      end
  | _ => cell
  end.

(** Replace the [i]-th element. *)
Fixpoint set_nth {A} (i : nat) (x : A) (l : list A) : list A :=
  match l, i with
  | [], _ => []
  | _ :: l', O => x :: l'
  | y :: l', S i' => y :: set_nth i' x l'
  end.

(** The [i]-th input promise receives [outcome]. *)
Definition settle_nth {A} (i : nat) (outcome : state A) (ps : list (state A)) :=
  match nth_error ps i with
  | Some p => set_nth i (settle p outcome) ps
  | None => ps
  end.

End Promise.

Module Texture.

Import Gl.
Local Open Scope string_scope.

Record LoadedTexture := {
  texture : handle;
  width : Q;
  height : Q }.

(** What happens to the [Image] of one [loadTexture] call: [onload] (with the
    result of [gl.createTexture()] and the image size) or [onerror]. *)
Inductive image_event :=
| Onload (tex : option handle) (w h : Q)
| Onerror.

(** The settlement [loadTexture(gl, url)] performs on that event. *)
Definition loadTexture (url : string) (ev : image_event) : Promise.state LoadedTexture :=
  match ev with
  | Onload None _ _ => Promise.Rejected "Unable to create texture"
  | Onload (Some t) w h =>
      Promise.Fulfilled {| texture := t; width := w; height := h |}
  | Onerror => Promise.Rejected ("Failed to load " ++ url)
  end.

End Texture.

(* ===================================================================== *)
(** * Draw-time commands shared by the layers and the scene               *)
(* ===================================================================== *)

Module Draw.

Import Gl.

(** Attribute and uniform locations are named by the GLSL identifier they
    were looked up with. *)
Inductive drawcall :=
| UseProgram (p : handle)
| BindBuffer (b : handle)
| EnableVertexAttribArray (a : string)
| VertexAttribPointer (a : string) (size stride offset : Z)
| ActiveTexture0
| BindTexture (t : option handle)
| BindVertexArray (v : option handle)
| Uniform1i (u : string) (v : Z)
| Uniform1f (u : string) (x : Q)
| Uniform2f (u : string) (x y : Q)
| Uniform3f (u : string) (x y z : Q)
| Uniform1fv (u : string) (xs : list Q)
| Uniform4fv (u : string) (xs : list Q)
| DrawArrays (first count : Z)
| DrawArraysInstanced (first count instances : Z)
| Viewport (x y w h : Z)
| ClearColor (r g b a : Q)
| Clear.

(** The float values a command stores in uniform [u], if it sets [u]. *)
Definition sets_uniform (u : string) (c : drawcall) : option (list Q) :=
  match c with
  | Uniform1f v x => if String.eqb v u then Some [x] else None
  | Uniform2f v x y => if String.eqb v u then Some [x; y] else None
  | Uniform3f v x y z => if String.eqb v u then Some [x; y; z] else None
  | Uniform1fv v xs => if String.eqb v u then Some xs else None
  | Uniform4fv v xs => if String.eqb v u then Some xs else None
  | _ => None
  end.

(** The value uniform [u] holds after the commands [cs], when one of them
    set it: the last assignment wins. *)
Fixpoint uniform_value (u : string) (cs : list drawcall) : option (list Q) :=
  match cs with
  | [] => None
  | c :: cs' =>
      match uniform_value u cs' with
      | Some v => Some v
      | None => sets_uniform u c
      end
  end.

Definition sets_int (u : string) (c : drawcall) : option Z :=
  match c with
  | Uniform1i v n => if String.eqb v u then Some n else None
  | _ => None
  end.

Fixpoint int_value (u : string) (cs : list drawcall) : option Z :=
  match cs with
  | [] => None
  | c :: cs' =>
      match int_value u cs' with
      | Some v => Some v
      | None => sets_int u c
      end
  end.

Record ReferenceSize := { width : Q; height : Q }.

End Draw.

(* ===================================================================== *)
(** * layers/fog-layer.ts (src/unnamed/part_001)                          *)
(* ===================================================================== *)

Module Fog.

Import Gl Draw.
Local Open Scope string_scope.
Local Open Scope Q_scope.

(** [type FogFlow]: [start], [end] and [height] are required, the other three
    may be absent ([None]); reading an absent field gives [undefined]. *)
Record FogFlow := {
  start : Q * Q;
  end_ : Q * Q;
  height : Q;
  speed : option Q;
  density : option Q;
  feather : option Q }.

(** [Partial<FogFlow>]: every key may be absent (outer [None]).  A key of an
    optional field may also be present with the value [undefined]
    ([Some None]), which the spread copies like any other value. *)
Record PartialFogFlow := {
  p_start : option (Q * Q);
  p_end : option (Q * Q);
  p_height : option Q;
  p_speed : option (option Q);
  p_density : option (option Q);
  p_feather : option (option Q) }.

(** The renderer closure: what [createFogLayer] captured, and the mutable
    [flow] binding. *)
Record FogRenderer := {
  program : handle;
  quadBuffer : handle;
  referenceSize : ReferenceSize;
  flow : FogFlow }.

(** The default value of the [flow] parameter. *)
Definition default_flow : FogFlow :=
  {| start := (0, 0); end_ := (940, 0); height := 260;
     speed := Some 0.45; density := Some 0.2; feather := Some 300 |}.

(** [a ?? b] *)
Definition nullish (a : option Q) (b : Q) : Q :=
  match a with Some x => x | None => b end.

Definition draw (r : FogRenderer) (time : Q) : list drawcall :=
  let flow := flow r in
  [ UseProgram (program r);
    BindBuffer (quadBuffer r);
    EnableVertexAttribArray "aPosition";
    VertexAttribPointer "aPosition" 2 8 0;
    Uniform1f "uTime" time;
    Uniform2f "uResolution" (width (referenceSize r)) (Draw.height (referenceSize r));
    Uniform2f "uStart" (fst (start flow)) (snd (start flow));
    Uniform2f "uEnd" (fst (end_ flow)) (snd (end_ flow));
    Uniform1f "uHeight" (height flow);
    Uniform1f "uSpeed" (nullish (speed flow) 0.45);
    Uniform1f "uDensity" (nullish (density flow) 0.35);
    Uniform1f "uFeather" (nullish (feather flow) (height flow * 0.5));
    DrawArrays 0 4 ].

(** One key of the object spread [{ ...flow, ...next }]: the key of [next]
    wins when present. *)
Definition spread {A} (old : A) (patch : option A) : A :=
  match patch with Some v => v | None => old end.

Definition setFlow (next : PartialFogFlow) (r : FogRenderer) : FogRenderer :=
  {| program := program r; quadBuffer := quadBuffer r;
     referenceSize := referenceSize r;
     flow := {| start := spread (start (flow r)) (p_start next);
                end_ := spread (end_ (flow r)) (p_end next);
                height := spread (height (flow r)) (p_height next);
                speed := spread (speed (flow r)) (p_speed next);
                density := spread (density (flow r)) (p_density next);
                feather := spread (feather (flow r)) (p_feather next) |} |}.

(** The six keys of a flow object, and the uniform [draw] feeds from each. *)
Inductive key := Kstart | Kend | Kheight | Kspeed | Kdensity | Kfeather.

Definition key_eqb (a b : key) : bool :=
  match a, b with
  | Kstart, Kstart | Kend, Kend | Kheight, Kheight
  | Kspeed, Kspeed | Kdensity, Kdensity | Kfeather, Kfeather => true
  | _, _ => false
  end.

Definition present {A} (o : option A) : bool :=
  match o with Some _ => true | None => false end.

Definition has_key (next : PartialFogFlow) (k : key) : bool :=
  match k with
  | Kstart => present (p_start next)
  | Kend => present (p_end next)
  | Kheight => present (p_height next)
  | Kspeed => present (p_speed next)
  | Kdensity => present (p_density next)
  | Kfeather => present (p_feather next)
  end.

(** [next] contains the key [k] and no other. *)
Definition only (k : key) (next : PartialFogFlow) : Prop :=
  forall k', has_key next k' = key_eqb k' k.

(** The value stored under a key, as a list of numbers ([None]: absent or
    [undefined]). *)
Definition field (k : key) (f : FogFlow) : option (list Q) :=
  match k with
  | Kstart => Some [fst (start f); snd (start f)]
  | Kend => Some [fst (end_ f); snd (end_ f)]
  | Kheight => Some [height f]
  | Kspeed => option_map (fun x => [x]) (speed f)
  | Kdensity => option_map (fun x => [x]) (density f)
  | Kfeather => option_map (fun x => [x]) (feather f)
  end.

Definition uniform_of (k : key) : string :=
  match k with
  | Kstart => "uStart" | Kend => "uEnd" | Kheight => "uHeight"
  | Kspeed => "uSpeed" | Kdensity => "uDensity" | Kfeather => "uFeather"
  end.

End Fog.

(* ===================================================================== *)
(** * GLSL built-ins used by the shaders, on real numbers                 *)
(* ===================================================================== *)

Module Glsl.

Local Open Scope R_scope.

Definition vec2 := (R * R)%type.
Definition vec3 := (R * R * R)%type.
Record vec4 := { v4x : R; v4y : R; v4z : R; v4w : R }.

Definition zero2 : vec2 := (0, 0).
Definition zero4 : vec4 := {| v4x := 0; v4y := 0; v4z := 0; v4w := 0 |}.

Definition vadd (a b : vec2) : vec2 := (fst a + fst b, snd a + snd b).
Definition vmul (a b : vec2) : vec2 := (fst a * fst b, snd a * snd b).
Definition vscale (a : vec2) (k : R) : vec2 := (fst a * k, snd a * k).

Definition ltb (a b : R) : bool :=
  match Rlt_dec a b with left _ => true | right _ => false end.

Definition clamp (x lo hi : R) : R := Rmin (Rmax x lo) hi.

(** [smoothstep(edge0, edge1, x)]; GLSL leaves it undefined when
    [edge0 >= edge1], here the formula is evaluated all the same. *)
Definition smoothstep (edge0 edge1 x : R) : R :=
  let t := clamp ((x - edge0) / (edge1 - edge0)) 0 1 in
  t * t * (3 - 2 * t).

(** [step(edge, x)] *)
Definition step (edge x : R) : R := if ltb x edge then 0 else 1.

Definition mix (a b t : R) : R := a * (1 - t) + b * t.

Definition floor (x : R) : R := IZR (Int_part x).

(** [fract(x) = x - floor(x)] *)
Definition fract (x : R) : R := x - floor x.

End Glsl.

(* ===================================================================== *)
(** * layers/flying-layers.ts: the wind layer                             *)
(* ===================================================================== *)

Module Wind.

Import Gl Draw Glsl.

(** ** The fragment shader *)

Section Shader.
Local Open Scope R_scope.

Record uniforms := {
  uTexture : vec2 -> vec4;
  uAmp : vec2;
  uFreq : vec2;
  uSpeed : vec2;
  uTime : R;
  uRectCount : Z;
  uRects : list vec4;
  uRectFeather : list R;
  uDebugRects : R;
  uRectBorder : R;
  uDebugColor : vec3 }.

Definition PI : R := 3.141592653589793.

(** [rectMask] of the loop body, for one rect. *)
Definition rectMask (rect : vec4) (feather : R) (uv : vec2) : R :=
  let rectMin := (v4x rect, v4y rect) in
  let rectMax := (v4x rect + v4z rect, v4y rect + v4w rect) in
  let insideX :=
    smoothstep (fst rectMin - feather) (fst rectMin + feather) (fst uv)
    * (1 - smoothstep (fst rectMax - feather) (fst rectMax + feather) (fst uv)) in
  let insideY :=
    smoothstep (snd rectMin - feather) (snd rectMin + feather) (snd uv)
    * (1 - smoothstep (snd rectMax - feather) (snd rectMax + feather) (snd uv)) in
  insideX * insideY.

(** [vec2(swayX, swayY)] of the loop body, for one rect. *)
Definition sway (u : uniforms) (rect : vec4) : vec2 :=
  let rectCenter := (v4x rect + v4z rect * 0.5, v4y rect + v4w rect * 0.5) in
  let swayX := sin (snd rectCenter * fst (uFreq u) * 2 * PI + uTime u * fst (uSpeed u)) in
  let swayY := sin (fst rectCenter * snd (uFreq u) * 2 * PI + uTime u * snd (uSpeed u)
                    + PI * 0.5) in
  (swayX, swayY).

(** [rectBorder] of the debug branch. *)
Definition rectBorder (u : uniforms) (rect : vec4) (uv : vec2) : R :=
  let rectMin := (v4x rect, v4y rect) in
  let rectMax := (v4x rect + v4z rect, v4y rect + v4w rect) in
  let inside := step (fst rectMin) (fst uv) * step (snd rectMin) (snd uv)
                * step (fst uv) (fst rectMax) * step (snd uv) (snd rectMax) in
  let distEdge :=
    Rmin (Rmin (Rabs (fst uv - fst rectMin)) (Rabs (fst uv - fst rectMax)))
         (Rmin (Rabs (snd uv - snd rectMin)) (Rabs (snd uv - snd rectMax))) in
  inside * (1 - smoothstep 0 (uRectBorder u) distEdge).

(** One iteration of the loop, after the [break] test: the state is
    [(offset, borderMask)]. *)
Definition body (u : uniforms) (uv : vec2) (i : nat) (acc : vec2 * R) : vec2 * R :=
  let rect := nth i (uRects u) zero4 in
  let feather := nth i (uRectFeather u) 0 in
  let m := rectMask rect feather uv in
  let offset :=
    if ltb 0.0001 m then vadd (fst acc) (vscale (sway u rect) m) else fst acc in
  let borderMask :=
    if ltb 0.5 (uDebugRects u) then Rmax (snd acc) (rectBorder u rect uv) else snd acc in
  (offset, borderMask).

(** [for (int i = 0; i < 8; i += 1) { if (i >= uRectCount) break; ... }],
    with [n] iterations left. *)
Fixpoint loop (u : uniforms) (uv : vec2) (n i : nat) (acc : vec2 * R) : vec2 * R :=
  match n with
  | O => acc
  | S n' =>
      if (uRectCount u <=? Z.of_nat i)%Z then acc
      else loop u uv n' (S i) (body u uv i acc)
  end.

(** The accumulated [offset] and [borderMask] after the loop. *)
Definition accumulate (u : uniforms) (uv : vec2) : vec2 * R :=
  loop u uv 8 0 (zero2, 0).

(** The coordinate the texture is sampled at after the loop. *)
Definition sample_coord (u : uniforms) (vUv : vec2) : vec2 :=
  vadd vUv (vmul (fst (accumulate u vUv)) (uAmp u)).

(** [void main()]: the value of [outColor]. *)
Definition main (u : uniforms) (vUv : vec2) : vec4 :=
  let uv := vUv in
  if (uRectCount u =? 0)%Z && ltb (uDebugRects u) 0.5 then uTexture u uv
  else
    let borderMask := snd (accumulate u uv) in
    let outColor := uTexture u (sample_coord u vUv) in
    if ltb 0.5 (uDebugRects u) then
      let '(r, g, b) := uDebugColor u in
      {| v4x := mix (v4x outColor) r borderMask;
         v4y := mix (v4y outColor) g borderMask;
         v4z := mix (v4z outColor) b borderMask;
         v4w := Rmax (v4w outColor) borderMask |}
    else outColor.

End Shader.

(** ** The host side *)

Local Open Scope string_scope.
Local Open Scope list_scope.
Local Open Scope Q_scope.

Record Rect := {
  px : Q * Q;
  size : Q * Q;
  feather : Q }.

Record Layer := {
  texture : handle;
  width : Q;
  height : Q;
  x : Q;
  y : Q;
  amp : Q * Q;
  freq : Q * Q;
  speed : Q * Q;
  rects : option (list Rect);
  rectCount : option nat;
  rectData : option (list Q);
  rectFeatherData : option (list Q) }.

Definition DEBUG_RECTS : bool := false.

Definition maxRects : nat := 8.

(** The four floats written to [rectData] at index [i], and the one written
    to [rectFeather]. *)
Definition rectEntry (layer : Layer) (rs : list Rect) (rectCount i : nat) : list Q * Q :=
  if (i <? rectCount)%nat then
    match nth_error rs i with
    | Some rect =>
        let rectX := fst (px rect) / width layer in
        let rectY := 1 - (snd (px rect) + snd (size rect)) / height layer in
        let rectW := fst (size rect) / width layer in
        let rectH := snd (size rect) / height layer in
        ([rectX; rectY; rectW; rectH], feather rect)
    | None => ([0; 0; 0; 0], 0)
    end
  else ([0; 0; 0; 0], 0).

(** [layer.rects ?? []] *)
Definition rects_or_empty (layer : Layer) : list Rect :=
  match rects layer with Some rs => rs | None => [] end.

Definition buildRectUniforms (layer : Layer) : Layer :=
  let rs := rects_or_empty layer in
  let rectCount := Nat.min (List.length rs) maxRects in
  let entries := map (rectEntry layer rs rectCount) (seq 0 maxRects) in
  {| texture := texture layer; width := width layer; height := height layer;
     x := x layer; y := y layer; amp := amp layer; freq := freq layer;
     speed := speed layer; rects := rects layer;
     rectCount := Some rectCount;
     rectData := Some (flat_map fst entries);
     rectFeatherData := Some (map snd entries) |}.

(** The closure of [createWindLayer]: handles it created, the four texture
    promises, [Promise.all] of them, [ready], and the [layers] binding. *)
Record state := {
  program : handle;
  quadBuffer : handle;
  referenceSize : ReferenceSize;
  loads : list (Promise.state Texture.LoadedTexture);
  loaded : Promise.state (list Texture.LoadedTexture);
  ready : Promise.state unit;
  layers : list Layer }.

Definition urls : list string :=
  ["assets/bridge.png"; "assets/flying-1.png"; "assets/flying-2.png"; "assets/leaves.png"].

Definition create (program quadBuffer : handle) (referenceSize : ReferenceSize) : state :=
  {| program := program; quadBuffer := quadBuffer; referenceSize := referenceSize;
     loads := map (fun _ => Promise.Pending) urls;
     loaded := Promise.Pending; ready := Promise.Pending; layers := [] |}.

Definition sprite (t : Texture.LoadedTexture) (x y : Q) (amp freq speed : Q * Q)
    (rects : list Rect) : Layer :=
  {| texture := Texture.texture t; width := Texture.width t; height := Texture.height t;
     x := x; y := y; amp := amp; freq := freq; speed := speed;
     rects := Some rects; rectCount := None; rectData := None;
     rectFeatherData := None |}.

Definition rect (px size : Q * Q) (feather : Q) : Rect :=
  {| px := px; size := size; feather := feather |}.

(** The callback of [.then]: the four sprites, then [buildRectUniforms] on
    each. *)
Definition on_loaded (texs : list Texture.LoadedTexture) : list Layer :=
  match texs with
  | [bridge; flying_1; flying_2; leaves] =>
      map buildRectUniforms
        [ sprite bridge (-20) 168 (0.012, 0.004) (8, 5) (1.2, 0.6)
            [ rect (0, 0) (145, 298) 0.05 ];
          sprite flying_1 107 0 (0.012, 0.006) (10, 7) (1.2, 1.2)
            [ rect (870, 380) (10, 10) 0.06;
              rect (1100, 90) (80, 110) 0.08;
              rect (1310, 440) (74, 220) 0.1 ];
          sprite flying_2 300 5 (0.012, 0.006) (10, 7) (1.2, 1.6)
            [ rect (48, 160) (72, 70) 0.08;
              rect (1272, 77) (60, 80) 0.1;
              rect (1459, 24) (57, 65) 0.1;
              rect (1095, 495) (146, 108) 0.03;
              rect (420, 295) (80, 60) 0.08 ];
          sprite leaves 1088 614 (0.02, 0.01) (6, 4) (1.2, 1.0)
            [ rect (191, 204) (151, 96) 0.05;
              rect (52, 70) (174, 87) 0.05;
              rect (26, 5) (202, 66) 0.05;
              rect (225, 45) (117, 135) 0.05 ] ]
  | _ => []
  end.

(** The image of the [i]-th [loadTexture] call fires [ev]; the promise
    reactions that follow run at once. *)
Definition on_image (i : nat) (ev : Texture.image_event) (w : state) : state :=
  let loads' :=
    Promise.settle_nth i (Texture.loadTexture (nth i urls EmptyString) ev) (loads w) in
  let loaded' := Promise.all (loaded w) loads' in
  let '(ready', layers') :=
    match ready w, loaded' with
    | Promise.Pending, Promise.Fulfilled texs => (Promise.Fulfilled tt, on_loaded texs)
    | Promise.Pending, Promise.Rejected r => (Promise.Rejected r, layers w)
    | _, _ => (ready w, layers w)
    end in
  {| program := program w; quadBuffer := quadBuffer w; referenceSize := referenceSize w;
     loads := loads'; loaded := loaded'; ready := ready'; layers := layers' |}.

(** The commands of one iteration of [layers.forEach] in [draw]. *)
Definition draw_layer (referenceSize : ReferenceSize) (time : Q) (index : nat)
    (layer : Layer) : list drawcall :=
  let centerX := x layer + width layer * 0.5 in
  let centerY := y layer + height layer * 0.5 in
  let translateX := (centerX / Draw.width referenceSize) * 2 - 1 in
  let translateY := 1 - (centerY / Draw.height referenceSize) * 2 in
  let scaleX := width layer / Draw.width referenceSize in
  let scaleY := height layer / Draw.height referenceSize in
  [ ActiveTexture0;
    BindTexture (Some (texture layer));
    Uniform1i "uTexture" 0;
    Uniform2f "uAmp" (fst (amp layer)) (snd (amp layer));
    Uniform2f "uFreq" (fst (freq layer)) (snd (freq layer));
    Uniform2f "uSpeed" (fst (speed layer)) (snd (speed layer));
    Uniform2f "uTranslate" translateX translateY;
    Uniform2f "uScale" scaleX scaleY;
    Uniform1f "uDebugRects" (if DEBUG_RECTS then 1 else 0);
    Uniform1f "uRectBorder" (3 / Qmin (width layer) (height layer));
    Uniform3f "uDebugColor" 0.15 0.95 0.25;
    Uniform1i "uRectCount"
      (Z.of_nat (match rectCount layer with Some n => n | None => O end)) ]
  ++ match rectData layer, rectFeatherData layer with
     | Some rd, Some rf => [ Uniform4fv "uRects[0]" rd; Uniform1fv "uRectFeather[0]" rf ]
     | _, _ => []
     end
  ++ [ Uniform1f "uTime" (time + inject_Z (Z.of_nat index) * 0.15);
       DrawArrays 0 4 ].

Fixpoint forEach_indexed {A B} (f : nat -> A -> list B) (index : nat) (l : list A) : list B :=
  match l with
  | [] => []
  | a :: l' => f index a ++ forEach_indexed f (S index) l'
  end.

Definition draw (w : state) (time : Q) : list drawcall :=
  match layers w with
  | [] => []
  | _ :: _ =>
      [ UseProgram (program w);
        BindBuffer (quadBuffer w);
        EnableVertexAttribArray "aPosition";
        VertexAttribPointer "aPosition" 2 16 0;
        EnableVertexAttribArray "aUv";
        VertexAttribPointer "aUv" 2 16 8 ]
      ++ forEach_indexed (draw_layer (referenceSize w) time) 0 (layers w)
  end.

(** ** From the commands of one sprite to the uniforms its fragments see *)

Definition floats (u : string) (cs : list drawcall) : list R :=
  match uniform_value u cs with Some xs => map Q2R xs | None => [] end.

Definition float1 (u : string) (cs : list drawcall) : R := nth 0 (floats u cs) 0%R.
Definition float2 (u : string) (cs : list drawcall) : vec2 :=
  (nth 0 (floats u cs) 0%R, nth 1 (floats u cs) 0%R).
Definition float3 (u : string) (cs : list drawcall) : vec3 :=
  (nth 0 (floats u cs) 0%R, nth 1 (floats u cs) 0%R, nth 2 (floats u cs) 0%R).

Fixpoint vec4s (xs : list R) : list vec4 :=
  match xs with
  | a :: b :: c :: d :: xs' => {| v4x := a; v4y := b; v4z := c; v4w := d |} :: vec4s xs'
  | _ => []
  end.

(** The uniform state of the wind program once the commands [cs] ran, with
    [tex] the content of the texture bound to unit 0. *)
Definition uniforms_after (cs : list drawcall) (tex : vec2 -> vec4) : uniforms :=
  {| uTexture := tex;
     uAmp := float2 "uAmp" cs;
     uFreq := float2 "uFreq" cs;
     uSpeed := float2 "uSpeed" cs;
     uTime := float1 "uTime" cs;
     uRectCount := match int_value "uRectCount" cs with Some n => n | None => 0%Z end;
     uRects := vec4s (floats "uRects[0]" cs);
     uRectFeather := floats "uRectFeather[0]" cs;
     uDebugRects := float1 "uDebugRects" cs;
     uRectBorder := float1 "uRectBorder" cs;
     uDebugColor := float3 "uDebugColor" cs |}.

End Wind.

(* ===================================================================== *)
(** * layers/pulse-mask.ts: the pulsing mask layer (host side)            *)
(* ===================================================================== *)

Module Pulse.

Import Gl Draw.
Local Open Scope string_scope.
Local Open Scope list_scope.
Local Open Scope Q_scope.

Record PulseMaskLayer := {
  texture : handle;
  width : Q;
  height : Q;
  x : Q;
  y : Q }.

(** The closure of [createPulseMaskLayer]. *)
Record state := {
  program : handle;
  quadBuffer : handle;
  referenceSize : ReferenceSize;
  load : Promise.state Texture.LoadedTexture;
  ready : Promise.state unit;
  layer : option PulseMaskLayer }.

Definition pulseMaskUrl : string := "assets/pulse_mask.png".

Definition create (program quadBuffer : handle) (referenceSize : ReferenceSize) : state :=
  {| program := program; quadBuffer := quadBuffer; referenceSize := referenceSize;
     load := Promise.Pending; ready := Promise.Pending; layer := None |}.

(** The callback of [.then]. *)
Definition on_loaded (referenceSize : ReferenceSize) (mask : Texture.LoadedTexture)
  : PulseMaskLayer :=
  {| texture := Texture.texture mask;
     width := Texture.width mask;
     height := Texture.height mask;
     x := (Draw.width referenceSize - Texture.width mask) * 0.5;
     y := (Draw.height referenceSize - Texture.height mask) * 0.5 |}.

Definition on_image (ev : Texture.image_event) (w : state) : state :=
  let load' := Promise.settle (load w) (Texture.loadTexture pulseMaskUrl ev) in
  let '(ready', layer') :=
    match ready w, load' with
    | Promise.Pending, Promise.Fulfilled mask =>
        (Promise.Fulfilled tt, Some (on_loaded (referenceSize w) mask))
    | Promise.Pending, Promise.Rejected r => (Promise.Rejected r, layer w)
    | _, _ => (ready w, layer w)
    end in
  {| program := program w; quadBuffer := quadBuffer w; referenceSize := referenceSize w;
     load := load'; ready := ready'; layer := layer' |}.

Definition draw (w : state) (time : Q) : list drawcall :=
  match layer w with
  | None => []
  | Some layer =>
      let centerX := x layer + width layer * 0.5 in
      let centerY := y layer + height layer * 0.5 in
      let translateX := (centerX / Draw.width (referenceSize w)) * 2 - 1 in
      let translateY := 1 - (centerY / Draw.height (referenceSize w)) * 2 in
      let scaleX := width layer / Draw.width (referenceSize w) in
      let scaleY := height layer / Draw.height (referenceSize w) in
      [ UseProgram (program w);
        BindBuffer (quadBuffer w);
        EnableVertexAttribArray "aPosition";
        VertexAttribPointer "aPosition" 2 16 0;
        EnableVertexAttribArray "aUv";
        VertexAttribPointer "aUv" 2 16 8;
        ActiveTexture0;
        BindTexture (Some (texture layer));
        Uniform1i "uMask" 0;
        Uniform1f "uTime" time;
        Uniform2f "uTranslate" translateX translateY;
        Uniform2f "uScale" scaleX scaleY;
        DrawArrays 0 4 ]
  end.

End Pulse.

(* ===================================================================== *)
(** * layers/petal-particles.ts (src/unnamed/part_002)                    *)
(* ===================================================================== *)

Module Sakura.

Import Gl Draw Glsl.

(** ** The vertex shader *)

Section Shader.
Local Open Scope R_scope.

(** Per-vertex and per-instance attributes. *)
Record attributes := {
  aPosition : vec2;
  aUv : vec2;
  aInstancePos : vec2;
  aInstanceVel : vec2;
  aInstanceSize : vec2;
  aInstanceRot : vec3;
  aInstanceRotSpeed : vec3;
  aInstanceSpeed : R;
  aInstanceDepth : R;
  aInstanceSeed : R }.

Record uniforms := {
  uResolution : vec2;
  uTime : R;
  uWind : vec2;
  uWindFreq : R;
  uWindSpeed : R;
  uWindAmp : R }.

Record varyings := {
  gl_Position : vec4;
  vUv : vec2;
  vAlpha : R;
  vLife : R }.

(** [float progress = fract(uTime * aInstanceSpeed + aInstanceSeed);] *)
Definition progress (u : uniforms) (a : attributes) : R :=
  fract (uTime u * aInstanceSpeed a + aInstanceSeed a).

(** [vec2 pos = aInstancePos + aInstanceVel * progress;] *)
Definition travel (u : uniforms) (a : attributes) : vec2 :=
  vadd (aInstancePos a) (vscale (aInstanceVel a) (progress u a)).

Definition main (u : uniforms) (a : attributes) : varyings :=
  let progress := progress u a in
  let pos := travel u a in
  let wind := sin ((snd pos / snd (uResolution u)) * uWindFreq u
                   + uTime u * uWindSpeed u + aInstanceSeed a) in
  let pos := vadd pos (vscale (vscale (uWind u) wind) (uWindAmp u)) in
  let scaleBoost := mix 0.6 1.3 progress in
  let lx := fst (aPosition a) * fst (aInstanceSize a) * scaleBoost in
  let ly := snd (aPosition a) * snd (aInstanceSize a) * scaleBoost in
  let lz := - aInstanceDepth a * progress in
  let '(r0x, r0y, r0z) := aInstanceRot a in
  let '(rsx, rsy, rsz) := aInstanceRotSpeed a in
  let rotx := r0x + rsx * uTime u in
  let roty := r0y + rsy * uTime u in
  let rotz := r0z + rsz * uTime u in
  let cx := cos rotx in
  let sx := sin rotx in
  let cy := cos roty in
  let sy := sin roty in
  let cz := cos rotz in
  let sz := sin rotz in
  let '(lx, ly, lz) := (lx, ly * cx - lz * sx, ly * sx + lz * cx) in
  let '(lx, ly, lz) := (lx * cy + lz * sy, ly, - lx * sy + lz * cy) in
  let '(lx, ly, lz) := (lx * cz - ly * sz, lx * sz + ly * cz, lz) in
  let perspective := 1 / (1 + lz * 0.002) in
  let offset := (lx * perspective, ly * perspective) in
  let ndc := ((fst pos / fst (uResolution u)) * 2 - 1,
              1 - (snd pos / snd (uResolution u)) * 2) in
  let ndcOffset := (fst offset / fst (uResolution u) * 2,
                    - snd offset / snd (uResolution u) * 2) in
  {| gl_Position := {| v4x := fst ndc + fst ndcOffset; v4y := snd ndc + snd ndcOffset;
                       v4z := 0; v4w := 1 |};
     vUv := aUv a;
     vAlpha := clamp perspective 0.45 1;
     vLife := progress |}.

End Shader.

(** ** The host side *)

Local Open Scope string_scope.
Local Open Scope list_scope.
Local Open Scope Q_scope.

Record ParticleGroup := {
  texture : handle;
  count : Z;
  vao : handle }.

Definition windSettings_dir : Q * Q := (1, 0.15).
Definition windSettings_amp : Q := 18.
Definition windSettings_freq : Q := 6.
Definition windSettings_speed : Q := 1.4.

(** The closure of [createSakuraLayer]. *)
Record state := {
  particleProgram : handle;
  particleQuadBuffer : handle;
  referenceSize : ReferenceSize;
  loads : list (Promise.state Texture.LoadedTexture);
  loaded : Promise.state (list Texture.LoadedTexture);
  ready : Promise.state unit;
  particleGroups : list ParticleGroup }.

Definition urls : list string :=
  ["assets/petal-1.png"; "assets/petal-2.png"; "assets/petal-3.png"; "assets/petal-4.png"].

Definition create (program quadBuffer : handle) (referenceSize : ReferenceSize) : state :=
  {| particleProgram := program; particleQuadBuffer := quadBuffer;
     referenceSize := referenceSize;
     loads := map (fun _ => Promise.Pending) urls;
     loaded := Promise.Pending; ready := Promise.Pending; particleGroups := [] |}.

(** [createParticleGroup], as far as the renderer depends on it: the two
    objects it asks the context for ([gl.createVertexArray()],
    [gl.createBuffer()]) are given; it throws when either is null.  The
    instance data it uploads is random and read only by the vertex shader,
    where it appears as [attributes]. *)
Definition createParticleGroup (objs : option handle * option handle)
    (texture : Texture.LoadedTexture) (count : Z) : result ParticleGroup :=
  match objs with
  | (Some vao, Some instanceBuffer) =>
      Ok {| texture := Texture.texture texture; count := count; vao := vao |}
  | _ => Throw "Unable to create particle buffers"
  end.

(** The array literal of the [.then] callback: the groups are built in order
    and the first exception aborts the callback. *)
Fixpoint build_groups (objs : list (option handle * option handle))
    (texs : list Texture.LoadedTexture) : result (list ParticleGroup) :=
  match texs, objs with
  | [], _ => Ok []
  | t :: texs', o :: objs' =>
      match createParticleGroup o t 10 with
      | Ok g => match build_groups objs' texs' with
                | Ok gs => Ok (g :: gs)
                | Throw e => Throw e
                end
      | Throw e => Throw e
      end
  | _ :: _, [] => Throw "Unable to create particle buffers"
  end.

(** The image of the [i]-th [loadTexture] call fires [ev]; [objs] are the
    objects the context hands out should the callback of [.then] run. *)
Definition on_image (i : nat) (ev : Texture.image_event)
    (objs : list (option handle * option handle)) (w : state) : state :=
  let loads' :=
    Promise.settle_nth i (Texture.loadTexture (nth i urls EmptyString) ev) (loads w) in
  let loaded' := Promise.all (loaded w) loads' in
  let '(ready', groups') :=
    match ready w, loaded' with
    | Promise.Pending, Promise.Fulfilled texs =>
        match build_groups objs texs with
        | Ok gs => (Promise.Fulfilled tt, gs)
        | Throw e => (Promise.Rejected e, particleGroups w)
        end
    | Promise.Pending, Promise.Rejected r => (Promise.Rejected r, particleGroups w)
    | _, _ => (ready w, particleGroups w)
    end in
  {| particleProgram := particleProgram w; particleQuadBuffer := particleQuadBuffer w;
     referenceSize := referenceSize w;
     loads := loads'; loaded := loaded'; ready := ready'; particleGroups := groups' |}.

Definition draw_group (group : ParticleGroup) : list drawcall :=
  [ ActiveTexture0;
    BindTexture (Some (texture group));
    Uniform1i "uTexture" 0;
    BindVertexArray (Some (vao group));
    DrawArraysInstanced 0 4 (count group) ].

Definition draw (w : state) (time : Q) : list drawcall :=
  match particleGroups w with
  | [] => []
  | _ :: _ =>
      [ UseProgram (particleProgram w);
        Uniform2f "uResolution" (Draw.width (referenceSize w))
                                (Draw.height (referenceSize w));
        Uniform1f "uTime" time;
        Uniform2f "uWind" (fst windSettings_dir) (snd windSettings_dir);
        Uniform1f "uWindFreq" windSettings_freq;
        Uniform1f "uWindSpeed" windSettings_speed;
        Uniform1f "uWindAmp" windSettings_amp ]
      ++ flat_map draw_group (particleGroups w)
      ++ [ BindVertexArray None ]
  end.

End Sakura.

(* ===================================================================== *)
(** * scene.ts: the orchestrator                                          *)
(* ===================================================================== *)

Module Scene.

Import Gl Draw.
Local Open Scope string_scope.
Local Open Scope list_scope.
Local Open Scope Q_scope.

Definition referenceSize : ReferenceSize := {| width := 1920; height := 1080 |}.

(** [targetFps: 15 | 24 | 30 | 60 | null]; the source sets 24. *)
Definition targetFps : option positive := Some 24%positive.

(** [targetFps ? 1000 / targetFps : 0] *)
Definition minFrameTime (targetFps : option positive) : Q :=
  match targetFps with
  | Some f => 1000 / inject_Z (Zpos f)
  | None => 0
  end.

(** [a < b] on numbers. *)
Definition Qltb (a b : Q) : bool := negb (Qle_bool b a).

(** [Math.round]: the nearest integer, halves upwards. *)
Definition Math_round (x : Q) : Z := Qfloor (x + 0.5).

(** The canvas element's [width] and [height] properties. *)
Record canvas := {
  canvas_width : Z;
  canvas_height : Z }.

(** What [resizeCanvas] reads from the page: [window.devicePixelRatio] and
    the size [canvas.getBoundingClientRect()] reports. *)
Record layout := {
  devicePixelRatio : Q;
  rect_width : Q;
  rect_height : Q }.

(** The four layers, in draw order. *)
Inductive layer_id := PulseMask | FogLayer | WindLayer | SakuraLayer.

(** What the orchestrator does, in order. *)
Inductive call :=
| SetCanvasWidth (w : Z)
| SetCanvasHeight (h : Z)
| GL (c : drawcall)
| LayerDraw (l : layer_id) (t : Q)
| RequestAnimationFrame.

(** [window.devicePixelRatio || 1]: zero is falsy. *)
Definition or_1 (d : Q) : Q := if Qeq_bool d 0 then 1 else d.

Definition resizeCanvas (env : layout) (c : canvas) : canvas * list call :=
  let dpr := Qmin (or_1 (devicePixelRatio env)) 2 in
  let targetWidth := Z.max 1 (Math_round (rect_width env * dpr)) in
  let targetHeight := Z.max 1 (Math_round (rect_height env * dpr)) in
  if negb (canvas_width c =? targetWidth)%Z || negb (canvas_height c =? targetHeight)%Z
  then ({| canvas_width := targetWidth; canvas_height := targetHeight |},
        [SetCanvasWidth targetWidth; SetCanvasHeight targetHeight])
  else (c, []).

(** The variables of the [.then] callback that [render] closes over. *)
Record loop_state := {
  start : Q;
  lastFrameTime : Q }.

(** What [initScene] set up and its closures share.  [fps] is the constant
    [targetFps], kept as a field so that statements can range over it. *)
Record scene := {
  fps : option positive;
  the_canvas : canvas;
  windLayer : Wind.state;
  fogLayer : Fog.FogRenderer;
  pulseMaskLayer : Pulse.state;
  sakuraLayer : Sakura.state;
  (* Promise.all([windLayer.ready, pulseMaskLayer.ready, sakuraLayer.ready]) *)
  all_ready : Promise.state (list unit);
  (* None until the callback of .then has run *)
  loop : option loop_state;
  (* a render callback is waiting for the next animation frame *)
  scheduled : bool;
  log : list call }.

(** The scene once [initScene] has returned: layers created, no image
    loaded yet, nothing scheduled.  The canvas has its default size. *)
Definition init (fps : option positive) : scene :=
  {| fps := fps;
     the_canvas := {| canvas_width := 300; canvas_height := 150 |};
     windLayer := Wind.create 1%nat 13%nat referenceSize;
     fogLayer := {| Fog.program := 4%nat; Fog.quadBuffer := 14%nat;
                    Fog.referenceSize := referenceSize; Fog.flow := Fog.default_flow |};
     pulseMaskLayer := Pulse.create 7%nat 15%nat referenceSize;
     sakuraLayer := Sakura.create 10%nat 16%nat referenceSize;
     all_ready := Promise.Pending;
     loop := None;
     scheduled := false;
     log := [] |}.

Definition with_layers (s : scene) (w : Wind.state) (p : Pulse.state) (k : Sakura.state)
  : scene :=
  {| fps := fps s; the_canvas := the_canvas s;
     windLayer := w; fogLayer := fogLayer s; pulseMaskLayer := p; sakuraLayer := k;
     all_ready := all_ready s; loop := loop s; scheduled := scheduled s; log := log s |}.

(** The reactions of the orchestrator after a layer promise may have
    settled, [now] being [performance.now()]: [Promise.all] is brought up to
    date and, when it has just fulfilled, the callback of [.then] runs. *)
Definition after_settle (now : Q) (s : scene) : scene :=
  let all' := Promise.all (all_ready s)
                [Wind.ready (windLayer s); Pulse.ready (pulseMaskLayer s);
                 Sakura.ready (sakuraLayer s)] in
  match all_ready s, all' with
  | Promise.Pending, Promise.Fulfilled _ =>
      {| fps := fps s; the_canvas := the_canvas s;
         windLayer := windLayer s; fogLayer := fogLayer s;
         pulseMaskLayer := pulseMaskLayer s; sakuraLayer := sakuraLayer s;
         all_ready := all';
         loop := Some {| start := now; lastFrameTime := 0 |};
         scheduled := true;
         log := log s ++ [RequestAnimationFrame] |}
  | _, _ =>
      {| fps := fps s; the_canvas := the_canvas s;
         windLayer := windLayer s; fogLayer := fogLayer s;
         pulseMaskLayer := pulseMaskLayer s; sakuraLayer := sakuraLayer s;
         all_ready := all'; loop := loop s; scheduled := scheduled s; log := log s |}
  end.

(** The calls of one accepted frame, after [lastFrameTime = now].  The
    drawing buffer is taken to have the size of the canvas. *)
Definition frame (s : scene) (ls : loop_state) (now : Q) (env : layout)
  : canvas * list call :=
  let '(c, resized) := resizeCanvas env (the_canvas s) in
  let t := (now - start ls) * 0.001 in
  (c,
   resized
   ++ [ GL (Viewport 0 0 (canvas_width c) (canvas_height c));
        GL (ClearColor 0 0 0 0);
        GL Clear ]
   ++ LayerDraw PulseMask t :: map GL (Pulse.draw (pulseMaskLayer s) t)
   ++ LayerDraw FogLayer t :: map GL (Fog.draw (fogLayer s) t)
   ++ LayerDraw WindLayer t :: map GL (Wind.draw (windLayer s) t)
   ++ LayerDraw SakuraLayer t :: map GL (Sakura.draw (sakuraLayer s) t)
   ++ [ RequestAnimationFrame ]).

(** [render(now)] *)
Definition render (now : Q) (env : layout) (s : scene) : scene :=
  match loop s with
  | None => s
  | Some ls =>
      let m := minFrameTime (fps s) in
      if Qltb 0 m && Qltb (now - lastFrameTime ls) m then
        {| fps := fps s; the_canvas := the_canvas s;
           windLayer := windLayer s; fogLayer := fogLayer s;
           pulseMaskLayer := pulseMaskLayer s; sakuraLayer := sakuraLayer s;
           all_ready := all_ready s; loop := loop s; scheduled := true;
           log := log s ++ [RequestAnimationFrame] |}
      else
        let '(c, calls) := frame s ls now env in
        {| fps := fps s; the_canvas := c;
           windLayer := windLayer s; fogLayer := fogLayer s;
           pulseMaskLayer := pulseMaskLayer s; sakuraLayer := sakuraLayer s;
           all_ready := all_ready s;
           loop := Some {| start := start ls; lastFrameTime := now |};
           scheduled := true;
           log := log s ++ calls |}
  end.

(** What the page can do to the scene. *)
Inductive event :=
| WindImage (i : nat) (ev : Texture.image_event) (now : Q)
| PulseImage (ev : Texture.image_event) (now : Q)
| SakuraImage (i : nat) (ev : Texture.image_event)
    (objs : list (option handle * option handle)) (now : Q)
| AnimationFrame (now : Q) (env : layout)
| WindowResize (env : layout).

Definition step (e : event) (s : scene) : scene :=
  match e with
  | WindImage i ev now =>
      after_settle now
        (with_layers s (Wind.on_image i ev (windLayer s)) (pulseMaskLayer s) (sakuraLayer s))
  | PulseImage ev now =>
      after_settle now
        (with_layers s (windLayer s) (Pulse.on_image ev (pulseMaskLayer s)) (sakuraLayer s))
  | SakuraImage i ev objs now =>
      after_settle now
        (with_layers s (windLayer s) (pulseMaskLayer s)
           (Sakura.on_image i ev objs (sakuraLayer s)))
  | AnimationFrame now env =>
      (* the browser only calls a callback that was requested *)
      if scheduled s then render now env s else s
  | WindowResize env =>
      let '(c, calls) := resizeCanvas env (the_canvas s) in
      {| fps := fps s; the_canvas := c;
         windLayer := windLayer s; fogLayer := fogLayer s;
         pulseMaskLayer := pulseMaskLayer s; sakuraLayer := sakuraLayer s;
         all_ready := all_ready s; loop := loop s; scheduled := scheduled s;
         log := log s ++ calls |}
  end.

(** The scene after the events [es], the earliest first. *)
Definition run (es : list event) (s : scene) : scene :=
  fold_left (fun s e => step e s) es s.

End Scene.

(* ===================================================================== *)
(** * layers/fog-layer.ts: the fragment shader                            *)
(* ===================================================================== *)

Module FogShader.

Import Glsl.
Local Open Scope R_scope.

Record uniforms := {
  uTime : R;
  uResolution : vec2;
  uStart : vec2;
  uEnd : vec2;
  uHeight : R;
  uSpeed : R;
  uDensity : R;
  uFeather : R }.

Definition dot (a b : vec2) : R := fst a * fst b + snd a * snd b.

Definition hash (p : vec2) : R :=
  fract (sin (dot p (127.1, 311.7)) * 43758.5453123).

Definition noise (p : vec2) : R :=
  let i := (floor (fst p), floor (snd p)) in
  let f := (fract (fst p), fract (snd p)) in
  let a := hash i in
  let b := hash (vadd i (1, 0)) in
  let c := hash (vadd i (0, 1)) in
  let d := hash (vadd i (1, 1)) in
  let u := (fst f * fst f * (3 - 2 * fst f), snd f * snd f * (3 - 2 * snd f)) in
  mix a b (fst u) + (c - a) * snd u * (1 - fst u) + (d - b) * fst u * snd u.

(** [vec2 p]: the fragment in reference pixels. *)
Definition pixel (u : uniforms) (vUv : vec2) : vec2 :=
  (fst vUv * fst (uResolution u), snd vUv * snd (uResolution u)).

Definition minX (u : uniforms) : R := Rmin (fst (uStart u)) (fst (uEnd u)).
Definition maxX (u : uniforms) : R := Rmax (fst (uStart u)) (fst (uEnd u)).
Definition spanX (u : uniforms) : R := Rmax (maxX u - minX u) 1.

(** [float band] *)
Definition band (u : uniforms) (vUv : vec2) : R :=
  let p := pixel u vUv in
  let centerY := mix (snd (uStart u)) (snd (uEnd u)) 0.5 in
  let dist := Rabs (snd p - centerY) in
  let halfH := uHeight u * 0.5 in
  1 - smoothstep halfH (halfH + uFeather u) dist.

(** [float endFade] *)
Definition endFade (u : uniforms) (vUv : vec2) : R :=
  let p := pixel u vUv in
  let t := clamp ((fst p - minX u) / spanX u) 0 1 in
  smoothstep 0 0.08 t * (1 - smoothstep 0.92 1 t).

(** [float mist] *)
Definition mist (u : uniforms) (vUv : vec2) : R :=
  let p := pixel u vUv in
  let flowCoord := fst p - minX u in
  let n := noise (flowCoord * 0.02 - uTime u * uSpeed u,
                  snd p * 0.015 + uTime u * 0.04) in
  smoothstep 0.35 0.75 n.

(** [void main()]: [outColor], as [(r, g, b, alpha)]. *)
Definition main (u : uniforms) (vUv : vec2) : vec4 :=
  let mist := mist u vUv in
  let alpha := mist * band u vUv * endFade u vUv * uDensity u in
  {| v4x := mix 0.85 0.7 mist;
     v4y := mix 0.9 0.8 mist;
     v4z := mix 0.95 0.9 mist;
     v4w := alpha |}.

End FogShader.

(* ===================================================================== *)
(** * layers/flying-layers.ts: the vertex shader                          *)
(* ===================================================================== *)

Module WindVertex.

Import Draw Glsl.
Local Open Scope R_scope.

Record uniforms := {
  uTranslate : vec2;
  uScale : vec2 }.

Record varyings := {
  gl_Position : vec4;
  vUv : vec2 }.

(** [void main()] of [vertexSource]. *)
Definition main (u : uniforms) (aPosition aUv : vec2) : varyings :=
  let pos := vadd (vmul aPosition (uScale u)) (uTranslate u) in
  {| gl_Position := {| v4x := fst pos; v4y := snd pos; v4z := 0; v4w := 1 |};
     vUv := aUv |}.

(** The uniforms of the vertex stage once the commands [cs] ran. *)
Definition uniforms_after (cs : list drawcall) : uniforms :=
  {| uTranslate := Wind.float2 "uTranslate" cs;
     uScale := Wind.float2 "uScale" cs |}.

End WindVertex.

(* ===================================================================== *)
(** * layers/pulse-mask.ts: the shaders                                   *)
(* ===================================================================== *)

Module PulseShader.

Import Draw Glsl.
Local Open Scope R_scope.

(** [float pulse(float t, float speed, float bias)] *)
Definition pulse (t speed bias : R) : R :=
  let s := sin (t * speed + bias) * 0.5 + 0.5 in
  smoothstep 0.35 1 s.

(** [float pulseMix] of [main]. *)
Definition pulseMix (uTime : R) : R :=
  let basePulse := pulse uTime 3.2 0 in
  let accentPulse := pulse uTime 6.4 1.6 * 0.6 in
  clamp (basePulse + accentPulse) 0 1.

(** [void main()] of [fragmentSource]: [outColor]. *)
Definition main (uMask : vec2 -> vec4) (uTime : R) (vUv : vec2) : vec4 :=
  let mask := v4x (uMask vUv) in
  let maskAlpha := smoothstep 0.25 0.95 mask in
  let flicker := 0.85 + 0.15 * sin (uTime * 19 + snd vUv * 8) in
  let pulseMix := pulseMix uTime in
  let alpha := maskAlpha * mix 0.18 0.75 pulseMix * flicker in
  {| v4x := mix 0 1 pulseMix;
     v4y := mix 0 0.86 pulseMix;
     v4z := mix 0 0.2 pulseMix;
     v4w := alpha |}.

End PulseShader.

(* ===================================================================== *)
(** * utils.ts (at the end of flying-layers.ts in src/)                   *)
(* ===================================================================== *)

Module Utils.

Local Open Scope R_scope.

(** [rand()] is [Math.random()]; the two functions below take the number
    that call returned as [r]. *)

(** [randRange(min, max)] *)
Definition randRange (r min max : R) : R := min + r * (max - min).

(** [randSigned(range)] *)
Definition randSigned (r range : R) : R := (r - 0.5) * range.

End Utils.

(* ===================================================================== *)
(** * layers/petal-particles.ts: fragment shader and instance data        *)
(* ===================================================================== *)

Module SakuraFragment.

Import Glsl.
Local Open Scope R_scope.

(** [void main()] of [particleFragmentSource]: [outColor]. *)
Definition main (uTexture : vec2 -> vec4) (vUv : vec2) (vAlpha vLife : R) : vec4 :=
  let color := uTexture vUv in
  let fadeOut := 1 - smoothstep 0.78 0.98 vLife in
  let edgeFeather := smoothstep 0.05 0.7 (v4w color) in
  let alpha := v4w color * edgeFeather * vAlpha * fadeOut in
  {| v4x := v4x color; v4y := v4y color; v4z := v4z color; v4w := alpha |}.

End SakuraFragment.

Module SakuraData.

Import Glsl Utils.
Local Open Scope R_scope.

(** [flowSettings] *)
Definition origin : vec2 := (280, 0).
Definition spread : vec2 := (450, 260).
Definition direction : vec2 := (1, 0.9).
Definition distance : R := 2000.
Definition speedRange : vec2 := (0.035, 0.08).
Definition depthRange : vec2 := (120, 760).

Definition floatsPerInstance : nat := 15.

(** [Math.max(18, Math.min(texture.width, texture.height) * options.scale)] *)
Definition baseSize (width height scale : R) : R := Rmax 18 (Rmin width height * scale).

(** [Math.hypot(direction[0], direction[1]) || 1] *)
Definition dirLength : R :=
  let h := sqrt (fst direction * fst direction + snd direction * snd direction) in
  if Req_dec_T h 0 then 1 else h.

Definition dir : vec2 := (fst direction / dirLength, snd direction / dirLength).
Definition travel : vec2 := (fst dir * distance, snd dir * distance).

(** The constants of one pass of the loop of [createParticleGroup]. *)
Record particle := {
  size : R;
  posX : R; posY : R;
  velX : R; velY : R;
  rotX : R; rotY : R; rotZ : R;
  rotSpeedX : R; rotSpeedY : R; rotSpeedZ : R;
  speed : R;
  depth : R;
  seed : R }.

(** Pass [i] of the loop: [rand n] is what the [n]-th call of [rand()] made
    for this group returns; a pass makes fourteen calls, in this order. *)
Definition generate (baseSize : R) (rand : nat -> R) (i : nat) : particle :=
  let r k := rand (14 * i + k)%nat in
  {| size := baseSize * randRange (r 0%nat) 0.7 1.3;
     posX := fst origin + r 1%nat * fst spread;
     posY := snd origin + r 2%nat * snd spread;
     velX := fst travel + randSigned (r 3%nat) 120;
     velY := snd travel + randSigned (r 4%nat) 120;
     rotX := randRange (r 5%nat) 0 (Rtrigo1.PI * 2);
     rotY := randRange (r 6%nat) 0 (Rtrigo1.PI * 2);
     rotZ := randRange (r 7%nat) 0 (Rtrigo1.PI * 2);
     rotSpeedX := randSigned (r 8%nat) 1.6;
     rotSpeedY := randSigned (r 9%nat) 1.6;
     rotSpeedZ := randSigned (r 10%nat) 2.6;
     speed := randRange (r 11%nat) (fst speedRange) (snd speedRange);
     depth := randRange (r 12%nat) (fst depthRange) (snd depthRange);
     seed := randRange (r 13%nat) 0 (Rtrigo1.PI * 2) |}.

(** The fifteen floats written at [data[baseIndex + 0 .. 14]]. *)
Definition write (p : particle) : list R :=
  [ posX p; posY p; velX p; velY p; size p; size p;
    rotX p; rotY p; rotZ p; rotSpeedX p; rotSpeedY p; rotSpeedZ p;
    speed p; depth p; seed p ].

(** The [Float32Array] handed to [gl.bufferData] for a group of [count]
    instances. *)
Definition data (baseSize : R) (rand : nat -> R) (count : nat) : list R :=
  flat_map (fun i => write (generate baseSize rand i)) (seq 0 count).

(** [const stride = floatsPerInstance * 4] *)
Definition stride : nat := floatsPerInstance * 4.

(** What instance [k] reads through
    [vertexAttribPointer(loc, size, gl.FLOAT, false, stride, offset)] with
    divisor 1: [size] floats starting [k * stride + offset] bytes into the
    buffer, four bytes a float. *)
Definition fetch (data : list R) (size stride offset : nat) (k : nat) : list R :=
  firstn size (skipn ((k * stride + offset) / 4) data).

(** The attribute pointers [createParticleGroup] sets up on the instance
    buffer: name, size, byte offset. *)
Definition pointers : list (string * nat * nat) :=
  [ ("aInstancePos", 2, 0); ("aInstanceVel", 2, 8); ("aInstanceSize", 2, 16);
    ("aInstanceRot", 3, 24); ("aInstanceRotSpeed", 3, 36);
    ("aInstanceSpeed", 1, 48); ("aInstanceDepth", 1, 52);
    ("aInstanceSeed", 1, 56) ]%string%nat.

(** The floats instance [k] receives for the attribute [name]. *)
Definition attribute (data : list R) (name : string) (k : nat) : list R :=
  match find (fun p => String.eqb (fst (fst p)) name) pointers with
  | Some (_, size, offset) => fetch data size stride offset k
  | None => []
  end.

End SakuraData.

(* ===================================================================== *)
(** * Vocabulary of the statements: sums, traces, invariants, inputs      *)
(* ===================================================================== *)

(** ** Definitions for gl.ts *)

Module GlSpec.
Import Gl.
Local Open Scope string_scope.
Local Open Scope list_scope.

(** The calls [createShader] issues when the object is allocated and the
    source compiles. *)
Definition shader_calls (ty : shader_type) (s : handle) (src : string) : list glcall :=
  [CreateShader ty; ShaderSource s src; CompileShader s;
   GetShaderParameter_COMPILE_STATUS s].

(** The calls [createProgram] issues up to and including the link-status
    query, once both shaders compiled. *)
Definition link_calls (p : handle) (vs fs : string) : list glcall :=
  [CreateProgram] ++ shader_calls VERTEX_SHADER (S p) vs
    ++ shader_calls FRAGMENT_SHADER (S (S p)) fs
    ++ [AttachShader p (S p); AttachShader p (S (S p)); LinkProgram p;
        DeleteShader (S p); DeleteShader (S (S p));
        GetProgramParameter_LINK_STATUS p].

(** A driver on which everything succeeds but, when [ls] is false, the link;
    [log] is the linker's log. *)
Definition all_ok (ls : bool) (log : option string) : driver :=
  {| alloc_shader := fun _ => true; alloc_program := fun _ => true;
     compile_status := fun _ _ => true; shader_info_log := fun _ _ => None;
     link_status := fun _ => ls; program_info_log := fun _ => log |}.

End GlSpec.

(** ** Definitions for the fog layer *)

Module FogSpec.
Import Gl Draw Fog.
Local Open Scope string_scope.
Local Open Scope Q_scope.

(** A renderer whose flow has no [feather] (the field is optional). *)
Definition no_feather : FogRenderer :=
  {| program := 1%nat; quadBuffer := 4%nat;
     referenceSize := {| width := 1920; Draw.height := 1080 |};
     flow := {| start := (0, 0); end_ := (940, 0); height := 260;
                speed := Some 0.45; density := Some 0.2; feather := None |} |}.

(** The patch [{ height: 100 }]. *)
Definition height_100 : PartialFogFlow :=
  {| p_start := None; p_end := None; p_height := Some 100;
     p_speed := None; p_density := None; p_feather := None |}.

(** The patch [{ density: d }]. *)
Definition density_only (d : Q) : PartialFogFlow :=
  {| p_start := None; p_end := None; p_height := None;
     p_speed := None; p_density := Some (Some d); p_feather := None |}.

End FogSpec.

(** ** Definitions for the wind layer *)

Module WindSpec.
Import Gl Draw Glsl Wind.
Local Open Scope R_scope.

(** The sum of a list of vectors. *)
Definition vsum (l : list vec2) : vec2 := fold_right vadd zero2 l.


(** The mask value of rect [i] at the fragment [uv]. *)
Definition mask_at (u : uniforms) (uv : vec2) (i : nat) : R :=
  rectMask (nth i (uRects u) zero4) (nth i (uRectFeather u) 0) uv.

(** The fragment lies inside rect [i]: the shader's own test
    [rectMask > 0.0001]. *)
Definition inside (u : uniforms) (uv : vec2) (i : nat) : bool :=
  ltb 0.0001 (mask_at u uv i).

(** The individual feathered contribution of rect [i]: its centre-derived
    sine sway scaled by its mask value. *)
Definition contribution (u : uniforms) (uv : vec2) (i : nat) : vec2 :=
  vscale (sway u (nth i (uRects u) zero4)) (mask_at u uv i).

(** What rect [i] adds to [offset] in the loop. *)
Definition gated (u : uniforms) (uv : vec2) (i : nat) : vec2 :=
  if inside u uv i then contribution u uv i else zero2.

(** The number of rects the loop visits. *)
Definition visited (u : uniforms) : nat := Z.to_nat (Z.min (uRectCount u) 8).

(** The rect covering the whole sprite, in UV space. *)
Definition unit_rect : vec4 := {| v4x := 0; v4y := 0; v4z := 1; v4w := 1 |}.

(** Two rects with the same region, feather 0.5, no spatial frequency,
    [uTime = 1]; debug rendering off. *)
Definition two_rects : uniforms :=
  {| uTexture := fun uv => {| v4x := fst uv; v4y := snd uv; v4z := 0; v4w := 1 |};
     uAmp := (0.012, 0.004);
     uFreq := (0, 0);
     uSpeed := (1, 0);
     uTime := 1;
     uRectCount := 2;
     uRects := [unit_rect; unit_rect; zero4; zero4; zero4; zero4; zero4; zero4];
     uRectFeather := [0.5; 0.5; 0; 0; 0; 0; 0; 0];
     uDebugRects := 0;
     uRectBorder := 0.01;
     uDebugColor := (0.15, 0.95, 0.25) |}.

(** The fragment at the middle of the sprite. *)
Definition centre : vec2 := (0.5, 0.5).

(** A sprite without the optional [rects] field. *)
Definition bare_sprite : Layer :=
  {| texture := 7%nat; width := 512; height := 256; x := 10; y := 20;
     amp := (0.012, 0.004)%Q; freq := (8, 5)%Q; speed := (1.2, 0.6)%Q;
     rects := None; rectCount := None; rectData := None;
     rectFeatherData := None |}.

End WindSpec.

(** ** Definitions for promises and the texture-backed layers *)

Module LayerSpec.
Import Gl Draw Promise.
Local Open Scope list_scope.

(** [Promise.all] fulfils with the values of its inputs. *)
Definition batch_ok {A} (loads : list (state A)) (loaded : state (list A)) : Prop :=
  forall vs, loaded = Fulfilled vs -> values loads = Some vs.

(** What holds of a wind layer however its images arrive: [loaded] carries
    the values of [loads], [ready] follows [loaded], and [layers] is empty
    until [ready] is fulfilled. *)
Record wind_inv (w : Wind.state) : Prop := {
  wind_batch : batch_ok (Wind.loads w) (Wind.loaded w);
  wind_ready : is_fulfilled (Wind.ready w) = true ->
               is_fulfilled (Wind.loaded w) = true;
  wind_layers : is_fulfilled (Wind.ready w) = false -> Wind.layers w = [] }.

(** Image events of the wind layer, the earliest first. *)
Definition wind_run (evs : list (nat * Texture.image_event)) (w : Wind.state) : Wind.state :=
  fold_left (fun w e => Wind.on_image (fst e) (snd e) w) evs w.

(** The same for the pulse mask layer and its single load. *)
Record pulse_inv (w : Pulse.state) : Prop := {
  pulse_ready : is_fulfilled (Pulse.ready w) = true ->
                is_fulfilled (Pulse.load w) = true;
  pulse_layer : is_fulfilled (Pulse.ready w) = false -> Pulse.layer w = None }.

(** Image events of the pulse mask layer, the earliest first. *)
Definition pulse_run (evs : list Texture.image_event) (w : Pulse.state) : Pulse.state :=
  fold_left (fun w e => Pulse.on_image e w) evs w.

(** The same for the petal layer and its particle groups. *)
Record sakura_inv (w : Sakura.state) : Prop := {
  sakura_batch : batch_ok (Sakura.loads w) (Sakura.loaded w);
  sakura_ready : is_fulfilled (Sakura.ready w) = true ->
                 is_fulfilled (Sakura.loaded w) = true;
  sakura_groups : is_fulfilled (Sakura.ready w) = false ->
                  Sakura.particleGroups w = [] }.

(** Image events of the petal layer, each with the objects the context
    would hand to [createParticleGroup]. *)
Definition sakura_run
    (evs : list (nat * Texture.image_event * list (option handle * option handle)))
    (w : Sakura.state) : Sakura.state :=
  fold_left (fun w e => Sakura.on_image (fst (fst e)) (snd (fst e)) (snd e) w) evs w.

(** Three of the four wind images load. *)
Definition three_images : list (nat * Texture.image_event) :=
  [ (0%nat, Texture.Onload (Some 20%nat) 400%Q 300%Q);
    (1%nat, Texture.Onload (Some 21%nat) 1600%Q 900%Q);
    (2%nat, Texture.Onload (Some 22%nat) 1600%Q 900%Q) ].

(** The wind layer with three of its four textures. *)
Definition three_loaded : Wind.state :=
  wind_run three_images (Wind.create 1%nat 13%nat Scene.referenceSize).

End LayerSpec.

(** ** Definitions for the orchestrator *)

Module SceneSpec.
Import Gl Draw Promise Scene LayerSpec.
Local Open Scope list_scope.
Local Open Scope Q_scope.

(** The backing-store size [resizeCanvas] computes for a layout. *)
Definition target (env : layout) : Z * Z :=
  let dpr := Qmin (or_1 (devicePixelRatio env)) 2 in
  (Z.max 1 (Math_round (rect_width env * dpr)),
   Z.max 1 (Math_round (rect_height env * dpr))).


(** A canvas element with the default size of the HTML standard. *)
Definition default_canvas : canvas := {| canvas_width := 300; canvas_height := 150 |}.

(** A retina display: ratio 3 (capped to 2), laid out 800 by 600.4. *)
Definition retina : layout :=
  {| devicePixelRatio := 3; rect_width := 800; rect_height := 600.4 |}.

(** The orchestrator calling a layer's [draw]. *)
Definition is_draw (c : call) : bool :=
  match c with LayerDraw _ _ => true | _ => false end.

(** The number of layer draws the orchestrator has made. *)
Definition draw_count (l : list call) : nat := List.length (filter is_draw l).

(** The times of the animation callbacks, among the events [es] played from
    [s], that performed a draw sequence. *)
Fixpoint accepted (es : list event) (s : scene) : list Q :=
  match es with
  | [] => []
  | e :: es' =>
      let s' := step e s in
      match e with
      | AnimationFrame now _ =>
          if (draw_count (log s) <? draw_count (log s'))%nat
          then now :: accepted es' s'
          else accepted es' s'
      | _ => accepted es' s'
      end
  end.





(** The vertex arrays and buffers the four particle groups receive. *)
Definition objs4 : list (option handle * option handle) :=
  [ (Some 30%nat, Some 31%nat); (Some 32%nat, Some 33%nat);
    (Some 34%nat, Some 35%nat); (Some 36%nat, Some 37%nat) ].

(** The nine images load one after the other, the last at 3 ms. *)
Definition images : list event :=
  [ WindImage 0 (Texture.Onload (Some 20%nat) 400 300) 1;
    WindImage 1 (Texture.Onload (Some 21%nat) 1600 900) 1;
    PulseImage (Texture.Onload (Some 24%nat) 512 512) 2;
    WindImage 2 (Texture.Onload (Some 22%nat) 1600 900) 2;
    SakuraImage 0 (Texture.Onload (Some 25%nat) 64 64) objs4 2;
    SakuraImage 1 (Texture.Onload (Some 26%nat) 64 64) objs4 2;
    WindImage 3 (Texture.Onload (Some 23%nat) 342 300) 3;
    SakuraImage 2 (Texture.Onload (Some 27%nat) 64 64) objs4 3;
    SakuraImage 3 (Texture.Onload (Some 28%nat) 64 64) objs4 3 ].

(** A canvas laid out 1280 by 720 at pixel ratio 1. *)
Definition desktop : layout :=
  {| devicePixelRatio := 1; rect_width := 1280; rect_height := 720 |}.

(** The scene at 24 frames per second once everything is loaded. *)
Definition running : scene := run images (init targetFps).

(** The three readiness promises have resolved. *)
Definition ready_all (s : scene) : Prop :=
  is_fulfilled (Wind.ready (windLayer s)) = true /\
  is_fulfilled (Pulse.ready (pulseMaskLayer s)) = true /\
  is_fulfilled (Sakura.ready (sakuraLayer s)) = true.

(** Every one of the nine texture loads has resolved. *)
Definition loaded_all (s : scene) : Prop :=
  (exists texs, values (Wind.loads (windLayer s)) = Some texs) /\
  is_fulfilled (Pulse.load (pulseMaskLayer s)) = true /\
  (exists texs, values (Sakura.loads (sakuraLayer s)) = Some texs).

(** One of the nine texture loads has rejected. *)
Definition some_load_rejected (s : scene) : Prop :=
  rejection (Wind.loads (windLayer s)) <> None \/
  is_rejected (Pulse.load (pulseMaskLayer s)) = true \/
  rejection (Sakura.loads (sakuraLayer s)) <> None.

(** An assignment to the canvas size. *)
Definition is_resize (c : call) : bool :=
  match c with SetCanvasWidth _ | SetCanvasHeight _ => true | _ => false end.

(** Nothing but canvas resizes: no layer draw, no WebGL command, no
    animation frame requested. *)
Definition quiet (l : list call) : Prop := forallb is_resize l = true.

(** What holds of every scene reachable from [init]. *)
Record scene_inv (s : scene) : Prop := {
  si_wind : wind_inv (windLayer s);
  si_pulse : pulse_inv (pulseMaskLayer s);
  si_sakura : sakura_inv (sakuraLayer s);
  si_started : loop s <> None -> ready_all s;
  si_idle : loop s = None -> quiet (log s) /\ scheduled s = false }.

(** The first wind image fails to load. *)
Definition broken : list event := [ WindImage 0 Texture.Onerror 1 ].

End SceneSpec.

(** ** Further definitions for gl.ts *)

Module GlMoreSpec.
Import Gl.
Local Open Scope string_scope.
Local Open Scope list_scope.

(** The calls [createShader] issues when the source does not compile. *)
Definition failed_shader_calls (ty : shader_type) (s : handle) (src : string)
  : list glcall :=
  [CreateShader ty; ShaderSource s src; CompileShader s;
   GetShaderParameter_COMPILE_STATUS s; GetShaderInfoLog s; DeleteShader s].

(** A driver that compiles vertex shaders and refuses fragment shaders with
    the log [log]. *)
Definition fragment_fails (log : option string) : driver :=
  {| alloc_shader := fun _ => true; alloc_program := fun _ => true;
     compile_status := fun ty _ => match ty with
                                   | VERTEX_SHADER => true
                                   | FRAGMENT_SHADER => false
                                   end;
     shader_info_log := fun _ _ => log;
     link_status := fun _ => true; program_info_log := fun _ => None |}.

(** A driver that has no object left to hand out. *)
Definition exhausted : driver :=
  {| alloc_shader := fun _ => false; alloc_program := fun _ => false;
     compile_status := fun _ _ => true; shader_info_log := fun _ _ => None;
     link_status := fun _ => true; program_info_log := fun _ => None |}.

End GlMoreSpec.

(** ** Further definitions for the fog layer *)

Module FogMoreSpec.
Import Gl Draw Fog.
Local Open Scope Q_scope.

(** One key of two patches applied one after the other: the later patch
    wins where it has the key. *)
Definition merge_key {A} (first second : option A) : option A :=
  match second with Some v => Some v | None => first end.

(** The single patch that does what [first] then [second] do. *)
Definition merge (first second : PartialFogFlow) : PartialFogFlow :=
  {| p_start := merge_key (p_start first) (p_start second);
     p_end := merge_key (p_end first) (p_end second);
     p_height := merge_key (p_height first) (p_height second);
     p_speed := merge_key (p_speed first) (p_speed second);
     p_density := merge_key (p_density first) (p_density second);
     p_feather := merge_key (p_feather first) (p_feather second) |}.

(** The patch [{}]. *)
Definition no_change : PartialFogFlow :=
  {| p_start := None; p_end := None; p_height := None;
     p_speed := None; p_density := None; p_feather := None |}.

(** The uniforms of the default flow at time 0. *)
Definition default_uniforms : FogShader.uniforms :=
  {| FogShader.uTime := 0%R;
     FogShader.uResolution := (1920, 1080)%R;
     FogShader.uStart := (0, 0)%R;
     FogShader.uEnd := (940, 0)%R;
     FogShader.uHeight := 260%R;
     FogShader.uSpeed := 0.45%R;
     FogShader.uDensity := 0.2%R;
     FogShader.uFeather := 300%R |}.

End FogMoreSpec.

(** ** Further definitions for the wind layer *)

Module WindMoreSpec.
Import Gl Draw Glsl Wind WindSpec.

(** The point of reference space a corner of the quad stands for: the quad
    coordinate [a] runs from -1 to 1, left to right and bottom to top, over
    the sprite placed at [(x, y)] with its size, [y] growing downwards. *)
Definition reference_point (l : Layer) (a : vec2) : vec2 :=
  (Q2R (x l) + Q2R (width l) * ((fst a + 1) / 2),
   Q2R (y l) + Q2R (height l) * ((1 - snd a) / 2))%R.

(** Normalised device coordinates of a point of reference space. *)
Definition ndc (ref : ReferenceSize) (p : vec2) : vec2 :=
  (2 * (fst p / Q2R (Draw.width ref)) - 1,
   1 - 2 * (snd p / Q2R (Draw.height ref)))%R.

(** The fragment is outside rect [i] widened by its feather on every side. *)
Definition beyond_feather (u : uniforms) (uv : vec2) (i : nat) : Prop :=
  let rect := nth i (uRects u) zero4 in
  let f := nth i (uRectFeather u) 0%R in
  (fst uv <= v4x rect - f \/ v4x rect + v4z rect + f <= fst uv \/
   snd uv <= v4y rect - f \/ v4y rect + v4w rect + f <= snd uv)%R.


(** One rect in the lower left corner, seen from the upper right corner. *)
Definition corner_rect : uniforms :=
  {| uTexture := fun uv => {| v4x := fst uv; v4y := snd uv; v4z := 0; v4w := 1 |};
     uAmp := (0.012, 0.004)%R;
     uFreq := (8, 5)%R;
     uSpeed := (1.2, 0.6)%R;
     uTime := 3%R;
     uRectCount := 1;
     uRects := [ {| v4x := 0; v4y := 0; v4z := 0.25; v4w := 0.25 |} ]%R;
     uRectFeather := [0.05%R];
     uDebugRects := 0%R;
     uRectBorder := 0.01%R;
     uDebugColor := (0.15, 0.95, 0.25)%R |}.

End WindMoreSpec.

(** ** Further definitions for the wind layer's draw *)

Module WindDrawSpec.
Import Gl Draw Glsl Wind WindSpec WindMoreSpec.



End WindDrawSpec.

(** ** Further definitions for the pulse mask and the petals *)

Module PetalSpec.
Import Gl Draw Glsl.

(** The pulse mask layer once a 512 by 256 mask has loaded. *)
Definition mask_loaded : Pulse.state :=
  Pulse.on_image (Texture.Onload (Some 24%nat) 512%Q 256%Q)
    (Pulse.create 7%nat 15%nat Scene.referenceSize).

(** A mask that is white everywhere. *)
Definition white : vec2 -> vec4 :=
  fun _ => {| v4x := 1; v4y := 1; v4z := 1; v4w := 1 |}%R.

(** A mask that is black everywhere. *)
Definition black : vec2 -> vec4 :=
  fun _ => {| v4x := 0; v4y := 0; v4z := 0; v4w := 1 |}%R.

(** A random source that always answers one half. *)
Definition halves : nat -> R := fun _ => 0.5%R.


(** An instance that takes two seconds for a cycle, seen at 1 and at 5
    seconds. *)
Definition slow_petal : Sakura.attributes :=
  {| Sakura.aPosition := (0.5, 0.5)%R; Sakura.aUv := (1, 1)%R;
     Sakura.aInstancePos := (300, 100)%R; Sakura.aInstanceVel := (1400, 1300)%R;
     Sakura.aInstanceSize := (20, 20)%R;
     Sakura.aInstanceRot := (0, 0, 0)%R; Sakura.aInstanceRotSpeed := (1, 1, 1)%R;
     Sakura.aInstanceSpeed := 0.5%R; Sakura.aInstanceDepth := 400%R;
     Sakura.aInstanceSeed := 0.25%R |}.

Definition at_time (t : R) : Sakura.uniforms :=
  {| Sakura.uResolution := (1920, 1080)%R; Sakura.uTime := t;
     Sakura.uWind := (1, 0.15)%R; Sakura.uWindFreq := 6%R;
     Sakura.uWindSpeed := 1.4%R; Sakura.uWindAmp := 18%R |}.

End PetalSpec.

(** ** Further definitions for the orchestrator *)

Module SceneMoreSpec.
Import Gl Draw Scene SceneSpec.
Local Open Scope list_scope.
Local Open Scope Q_scope.

(** A WebGL command, as opposed to what the orchestrator does itself. *)
Definition is_GL (c : call) : bool :=
  match c with GL _ => true | _ => false end.

(** What the orchestrator does itself. *)
Definition own_calls (l : list call) : list call :=
  filter (fun c => negb (is_GL c)) l.

(** The loaded scene with throttling switched off ([targetFps = null]). *)
Definition unthrottled : scene := run images (init None).

(** The requests for an animation callback among the calls [l]. *)
Definition is_request (c : call) : bool :=
  match c with RequestAnimationFrame => true | _ => false end.

Definition request_count (l : list call) : nat := List.length (filter is_request l).

(** Once the loop runs, [Promise.all] is settled and a callback is
    outstanding. *)
Record live (s : scene) : Prop := {
  live_settled : loop s <> None -> all_ready s <> Promise.Pending;
  live_armed : loop s <> None -> scheduled s = true }.

(** A display of pixel ratio 4, laid out like [retina]. *)
Definition denser : layout :=
  {| devicePixelRatio := 4; rect_width := 800; rect_height := 600.4 |}.

End SceneMoreSpec.

(** ** Further definitions for the loading of the layers *)

Module LoadSpec.
Import Gl Draw Promise LayerSpec.
Local Open Scope list_scope.

Section Arrivals.
Variable tex : nat -> handle.
Variables width height : nat -> Q.

(** What [loadTexture] resolves with for the [i]-th image. *)
Definition loaded_texture (i : nat) : Texture.LoadedTexture :=
  {| Texture.texture := tex i; Texture.width := width i; Texture.height := height i |}.

(** The images load without failure, in the order [order]. *)
Definition arrivals (order : list nat) : list (nat * Texture.image_event) :=
  map (fun i => (i, Texture.Onload (Some (tex i)) (width i) (height i))) order.

End Arrivals.

(** The wind layer while it waits for image [i], no image having failed. *)
Record waiting (i : nat) (w : Wind.state) : Prop := {
  waiting_i : nth_error (Wind.loads w) i = Some Pending;
  waiting_clean : rejection (Wind.loads w) = None;
  waiting_loaded : Wind.loaded w = Pending;
  waiting_ready : Wind.ready w = Pending;
  waiting_layers : Wind.layers w = [] }.

(** No number occurs twice. *)
Fixpoint distinct (l : list nat) : bool :=
  match l with
  | [] => true
  | a :: l' => negb (existsb (Nat.eqb a) l') && distinct l'
  end.

(** The context hands out a vertex array and a buffer for each of the
    first [n] groups. *)
Definition all_allocated (objs : list (option handle * option handle)) (n : nat) : Prop :=
  forall k, (k < n)%nat -> exists v b, nth_error objs k = Some (Some v, Some b).

(** It fails to do so for one of them. *)
Definition some_refused (objs : list (option handle * option handle)) (n : nat) : Prop :=
  exists k, (k < n)%nat /\ forall v b, nth_error objs k <> Some (Some v, Some b).

(** Three of the four petal images have loaded. *)
Definition three_petals : Sakura.state :=
  sakura_run [ (0%nat, Texture.Onload (Some 25%nat) 64%Q 64%Q, []);
               (1%nat, Texture.Onload (Some 26%nat) 64%Q 64%Q, []);
               (2%nat, Texture.Onload (Some 27%nat) 64%Q 64%Q, []) ]
    (Sakura.create 10%nat 16%nat Scene.referenceSize).

(** The context runs out of buffers at the third group. *)
Definition objs_refused : list (option handle * option handle) :=
  [ (Some 30%nat, Some 31%nat); (Some 32%nat, Some 33%nat);
    (Some 34%nat, None); (Some 36%nat, Some 37%nat) ].

End LoadSpec.

(* ===================================================================== *)
(** * Properties                                                          *)
(* ===================================================================== *)

Module GlProps.
Import Gl GlSpec.
Local Open Scope string_scope.
Local Open Scope list_scope.

Lemma upd_same {A} (m : handle -> option A) k v : upd m k v k = Some v.
Proof. unfold upd. now rewrite Nat.eqb_refl. Qed.

Lemma upd_other {A} (m : handle -> option A) k v k' : k' <> k -> upd m k v k' = m k'.
Proof. intros H. unfold upd. now rewrite (proj2 (Nat.eqb_neq k' k) H). Qed.

(** [createShader] on a driver that allocates the object and compiles the
    source: the new handle is returned, its object is compiled and live, and
    nothing else changes. *)
Lemma createShader_compiled (drv : driver) ty src n sh pr cs :
  alloc_shader drv n = true ->
  compile_status drv ty src = true ->
  exists sh',
    createShader drv ty src {| fresh := n; shaders := sh; programs := pr; calls := cs |}
    = (Ok n, {| fresh := S n; shaders := sh'; programs := pr;
                calls := rev (shader_calls ty n src) ++ cs |})
    /\ sh' n = Some {| sh_type := ty; sh_source := src; sh_compiled := true;
                       sh_deleted := false |}
    /\ forall h, h <> n -> sh' h = sh h.
Proof.
  intros Ha Hc.
  unfold createShader, bind, gl_createShader.
  cbn [record fresh shaders programs calls]. rewrite Ha.
  unfold gl_shaderSource, gl_compileShader, gl_getShaderParameter_COMPILE_STATUS,
    set_shader, record.
  cbn [fresh shaders programs calls]. rewrite !upd_same.
  cbn [fresh shaders programs calls sh_type sh_source sh_compiled sh_deleted].
  rewrite !upd_same.
  cbn [fresh shaders programs calls sh_type sh_source sh_compiled sh_deleted].
  rewrite !upd_same. rewrite Hc. cbn [negb].
  eexists. split; [reflexivity|]. split.
  - now rewrite upd_same.
  - intros h Hh. now rewrite !upd_other by assumption.
Qed.

Ltac lookup :=
  rewrite ?upd_same; rewrite ?upd_other by lia; rewrite ?upd_same; reflexivity.

(** *** One equation per context method, on an explicit state *)

Lemma bind_ok {A B} (m : M A) (k : A -> M B) st a st' :
  m st = (Ok a, st') -> bind m k st = k a st'.
Proof. intros E. unfold bind. now rewrite E. Qed.

Lemma attachShader_run p s n sh pr cs o :
  pr p = Some o ->
  gl_attachShader p s {| fresh := n; shaders := sh; programs := pr; calls := cs |}
  = (Ok tt, {| fresh := n; shaders := sh;
               programs := upd pr p {| pr_attached := pr_attached o ++ [s];
                                       pr_linked := pr_linked o;
                                       pr_deleted := pr_deleted o |};
               calls := AttachShader p s :: cs |}).
Proof.
  intros E. unfold gl_attachShader, set_program, record.
  cbn [fresh shaders programs calls]. now rewrite E.
Qed.

Lemma linkProgram_run (drv : driver) p n sh pr cs o :
  pr p = Some o ->
  gl_linkProgram drv p {| fresh := n; shaders := sh; programs := pr; calls := cs |}
  = (Ok tt, {| fresh := n; shaders := sh;
               programs := upd pr p
                 {| pr_attached := pr_attached o;
                    pr_linked := link_status drv
                      (attached_sources {| fresh := n; shaders := sh; programs := pr;
                                           calls := LinkProgram p :: cs |} o);
                    pr_deleted := pr_deleted o |};
               calls := LinkProgram p :: cs |}).
Proof.
  intros E. unfold gl_linkProgram, set_program, record.
  cbn [fresh shaders programs calls]. now rewrite E.
Qed.

Lemma deleteShader_run s n sh pr cs o :
  sh s = Some o ->
  gl_deleteShader s {| fresh := n; shaders := sh; programs := pr; calls := cs |}
  = (Ok tt, {| fresh := n;
               shaders := upd sh s {| sh_type := sh_type o; sh_source := sh_source o;
                                      sh_compiled := sh_compiled o; sh_deleted := true |};
               programs := pr; calls := DeleteShader s :: cs |}).
Proof.
  intros E. unfold gl_deleteShader, set_shader, record.
  cbn [fresh shaders programs calls]. now rewrite E.
Qed.

Lemma getLinkStatus_run p n sh pr cs o :
  pr p = Some o ->
  gl_getProgramParameter_LINK_STATUS p
    {| fresh := n; shaders := sh; programs := pr; calls := cs |}
  = (Ok (pr_linked o), {| fresh := n; shaders := sh; programs := pr;
                          calls := GetProgramParameter_LINK_STATUS p :: cs |}).
Proof.
  intros E. unfold gl_getProgramParameter_LINK_STATUS, record.
  cbn [fresh shaders programs calls]. now rewrite E.
Qed.

Lemma getProgramInfoLog_run (drv : driver) p n sh pr cs o :
  pr p = Some o ->
  gl_getProgramInfoLog drv p {| fresh := n; shaders := sh; programs := pr; calls := cs |}
  = (Ok (program_info_log drv
           (attached_sources {| fresh := n; shaders := sh; programs := pr; calls := cs |} o)),
     {| fresh := n; shaders := sh; programs := pr; calls := GetProgramInfoLog p :: cs |}).
Proof.
  intros E. unfold gl_getProgramInfoLog, record.
  cbn [fresh shaders programs calls]. now rewrite E.
Qed.

Lemma deleteProgram_run p n sh pr cs o :
  pr p = Some o ->
  gl_deleteProgram p {| fresh := n; shaders := sh; programs := pr; calls := cs |}
  = (Ok tt, {| fresh := n; shaders := sh;
               programs := upd pr p {| pr_attached := pr_attached o;
                                       pr_linked := pr_linked o; pr_deleted := true |};
               calls := DeleteProgram p :: cs |}).
Proof.
  intros E. unfold gl_deleteProgram, set_program, record.
  cbn [fresh shaders programs calls]. now rewrite E.
Qed.

(** One run of [createProgram] that reaches the link, as an equation. *)
Lemma createProgram_run (drv : driver) vs fs n sh pr cs :
  let srcs := [(VERTEX_SHADER, vs); (FRAGMENT_SHADER, fs)] in
  alloc_program drv n = true ->
  alloc_shader drv (S n) = true ->
  compile_status drv VERTEX_SHADER vs = true ->
  alloc_shader drv (S (S n)) = true ->
  compile_status drv FRAGMENT_SHADER fs = true ->
  exists sh' pr' so1 so2 po,
    createProgram drv vs fs {| fresh := n; shaders := sh; programs := pr; calls := cs |}
    = (if link_status drv srcs then Ok n
       else Throw (nullish (program_info_log drv srcs) "Program link error"),
       {| fresh := S (S (S n)); shaders := sh'; programs := pr';
          calls := (if link_status drv srcs then []
                    else [DeleteProgram n; GetProgramInfoLog n])
                   ++ rev (link_calls n vs fs) ++ cs |})
    /\ sh' (S n) = Some so1 /\ sh_deleted so1 = true
    /\ sh' (S (S n)) = Some so2 /\ sh_deleted so2 = true
    /\ pr' n = Some po
    /\ pr_linked po = link_status drv srcs
    /\ pr_deleted po = negb (link_status drv srcs).
Proof.
  intros srcs Hp Hv Hvc Hf Hfc.
  destruct (createShader_compiled drv VERTEX_SHADER vs (S n) sh
              (upd pr n {| pr_attached := []; pr_linked := false; pr_deleted := false |})
              (CreateProgram :: cs) Hv Hvc) as (sh1 & E1 & V1 & O1).
  destruct (createShader_compiled drv FRAGMENT_SHADER fs (S (S n)) sh1
              (upd pr n {| pr_attached := []; pr_linked := false; pr_deleted := false |})
              (rev (shader_calls VERTEX_SHADER (S n) vs) ++ CreateProgram :: cs)
              Hf Hfc) as (sh2 & E2 & F2 & O2).
  assert (V2 : sh2 (S n) = Some {| sh_type := VERTEX_SHADER; sh_source := vs;
                                   sh_compiled := true; sh_deleted := false |}).
  { rewrite O2 by lia. exact V1. }
  unfold createProgram.
  erewrite bind_ok
    by (unfold gl_createProgram; cbn [record fresh shaders programs calls];
        rewrite Hp; reflexivity).
  cbn beta iota.
  erewrite bind_ok by exact E1.
  erewrite bind_ok by exact E2.
  erewrite bind_ok by (apply attachShader_run; apply upd_same).
  erewrite bind_ok by (apply attachShader_run; apply upd_same).
  erewrite bind_ok by (apply linkProgram_run; apply upd_same).
  erewrite bind_ok by (apply deleteShader_run; exact V2).
  erewrite bind_ok by (apply deleteShader_run; rewrite upd_other by lia; exact F2).
  erewrite bind_ok by (apply getLinkStatus_run; apply upd_same).
  unfold attached_sources.
  cbn [pr_attached pr_linked pr_deleted app flat_map shaders sh_type sh_source].
  rewrite V2, F2. cbn [app sh_type sh_source]. fold srcs.
  destruct (link_status drv srcs) eqn:L; cbn [negb].
  - unfold ret. do 5 eexists. apply conj; [|repeat apply conj].
    + cbn [app rev link_calls shader_calls]. rewrite <- ?app_assoc. reflexivity.
    + lookup.
    + reflexivity.
    + lookup.
    + reflexivity.
    + lookup.
    + reflexivity.
    + reflexivity.
  - erewrite bind_ok by (apply getProgramInfoLog_run; apply upd_same).
    erewrite bind_ok by (apply deleteProgram_run; apply upd_same).
    unfold attached_sources, throw.
    cbn [pr_attached pr_linked pr_deleted app flat_map shaders sh_type sh_source].
    rewrite upd_same. rewrite upd_other by lia. rewrite upd_same.
    cbn [app sh_type sh_source]. fold srcs.
    do 5 eexists. apply conj; [|repeat apply conj].
    + cbn [app rev link_calls shader_calls]. rewrite <- ?app_assoc. reflexivity.
    + lookup.
    + reflexivity.
    + lookup.
    + reflexivity.
    + lookup.
    + reflexivity.
    + reflexivity.
Qed.

(** C8. Whenever [createProgram] reaches the link (the program object was
    allocated and both shaders were created and compiled), both shader
    objects are deleted, whatever the link status; when the link fails the
    program is deleted as well and the error thrown carries the linker log
    (the fixed text when the log is null); when it succeeds the program
    handle is returned, linked and not deleted. *)
Theorem createProgram_link_outcome :
  forall (drv : driver) (vs fs : string) (st : glstate),
    let p := fresh st in
    let srcs := [(VERTEX_SHADER, vs); (FRAGMENT_SHADER, fs)] in
    alloc_program drv p = true ->
    alloc_shader drv (S p) = true ->
    compile_status drv VERTEX_SHADER vs = true ->
    alloc_shader drv (S (S p)) = true ->
    compile_status drv FRAGMENT_SHADER fs = true ->
    forall r st', createProgram drv vs fs st = (r, st') ->
    shader_deleted st' (S p) = true /\
    shader_deleted st' (S (S p)) = true /\
    (link_status drv srcs = true ->
       r = Ok p /\ program_linked st' p = true /\ program_deleted st' p = false /\
       trace st' = trace st ++ link_calls p vs fs) /\
    (link_status drv srcs = false ->
       r = Throw (nullish (program_info_log drv srcs) "Program link error") /\
       program_deleted st' p = true /\
       trace st' = trace st ++ link_calls p vs fs
                     ++ [GetProgramInfoLog p; DeleteProgram p]).
Proof.
  intros drv vs fs [n sh pr cs] p srcs Hp Hv Hvc Hf Hfc r st' Hrun.
  cbn [fresh] in p. subst p.
  destruct (createProgram_run drv vs fs n sh pr cs Hp Hv Hvc Hf Hfc)
    as (sh' & pr' & so1 & so2 & po & E & S1 & D1 & S2 & D2 & P & PL & PD).
  rewrite E in Hrun. injection Hrun as <- <-. fold srcs in PL, PD |- *.
  unfold shader_deleted, program_deleted, program_linked, trace.
  cbn [shaders programs calls]. rewrite S1, S2, P, D1, D2, PL, PD.
  repeat apply conj; try reflexivity.
  - intros L. rewrite L. cbn [negb app]. repeat apply conj; try reflexivity.
    cbn [rev]. rewrite <- !app_assoc. reflexivity.
  - intros L. rewrite L. cbn [negb app]. repeat apply conj; try reflexivity.
    cbn [rev]. rewrite <- !app_assoc. reflexivity.
Qed.

(** The theorem applies: a driver on which everything succeeds except the
    link, whose log is "bad varying". *)
Lemma createProgram_link_outcome_witness :
  fst (createProgram (all_ok false (Some "bad varying")) "v" "f" initial)
    = Throw "bad varying"
  /\ trace (snd (createProgram (all_ok false (Some "bad varying")) "v" "f" initial))
     = link_calls 1 "v" "f" ++ [GetProgramInfoLog 1; DeleteProgram 1].
Proof.
  destruct (createProgram_link_outcome (all_ok false (Some "bad varying")) "v" "f"
              initial eq_refl eq_refl eq_refl eq_refl eq_refl _ _
              (surjective_pairing _))
    as (_ & _ & _ & Hfail).
  destruct (Hfail eq_refl) as (Hr & _ & Ht).
  split; [exact Hr | exact Ht].
Defined.

(** On a driver where everything succeeds the program is returned and the
    calls are those of [link_calls]. *)
Example createProgram_success :
  fst (createProgram (all_ok true None) "v" "f" initial) = Ok 1%nat /\
  trace (snd (createProgram (all_ok true None) "v" "f" initial)) = link_calls 1 "v" "f".
Proof. split; vm_compute; reflexivity. Qed.

End GlProps.

Module FogProps.
Import Gl Draw Fog FogSpec.
Local Open Scope string_scope.
Local Open Scope Q_scope.

Lemma only_inv k next :
  only k next ->
  has_key next Kstart = key_eqb Kstart k /\ has_key next Kend = key_eqb Kend k /\
  has_key next Kheight = key_eqb Kheight k /\ has_key next Kspeed = key_eqb Kspeed k /\
  has_key next Kdensity = key_eqb Kdensity k /\ has_key next Kfeather = key_eqb Kfeather k.
Proof. intros H. repeat apply conj; apply H. Qed.

(** C7, as the code has it.  A patch with the single key [k] leaves every
    other key of the flow state as it was, and on the next draw every
    uniform fed from another key keeps its value, with one exception that
    the fallback of [uFeather] brings: when the flow has no [feather], a new
    [height] also moves [uFeather]. *)
Theorem setFlow_single_key :
  forall (r : FogRenderer) (next : PartialFogFlow) (k : key) (t : Q),
    only k next ->
    (forall k', k' <> k -> field k' (flow (setFlow next r)) = field k' (flow r)) /\
    (forall k', k' <> k ->
       ~ (k = Kheight /\ k' = Kfeather /\ feather (flow r) = None) ->
       uniform_value (uniform_of k') (draw (setFlow next r) t)
       = uniform_value (uniform_of k') (draw r t)).
Proof.
  intros r next k t H.
  destruct (only_inv k next H) as (H1 & H2 & H3 & H4 & H5 & H6).
  destruct next as [ps pe ph psp pd pf].
  destruct r as [pg qb rs [s e h sp d f]].
  unfold has_key in *. cbn [p_start p_end p_height p_speed p_density p_feather] in *.
  destruct k; cbn [key_eqb] in *;
    destruct ps; try discriminate; destruct pe; try discriminate;
    destruct ph; try discriminate; destruct psp; try discriminate;
    destruct pd; try discriminate; destruct pf; try discriminate;
    (split; intros k' Hk'; [| intros Hex]); destruct k'; try congruence;
    try reflexivity.
  destruct f as [f|]; [reflexivity|].
  exfalso. apply Hex. repeat split.
Qed.

Lemma setFlow_single_key_witness :
  only Kdensity (density_only 0.5) /\
  uniform_value "uFeather" (draw (setFlow (density_only 0.5) no_feather) 0)
  = uniform_value "uFeather" (draw no_feather 0).
Proof.
  assert (H : only Kdensity (density_only 0.5)) by (intros []; reflexivity).
  split; [exact H|].
  refine (proj2 (setFlow_single_key no_feather (density_only 0.5) Kdensity 0 H)
            Kfeather _ _).
  - discriminate.
  - intros (E & _). discriminate E.
Defined.

(** C7 as stated fails at the patch [{ height: 100 }] on a flow without
    [feather]: the patch has the single key [height], yet on the next draw
    the uniform [uFeather], fed from another key, moves from 260 * 0.5 to
    100 * 0.5. *)
Lemma setFlow_height_changes_uFeather :
  only Kheight height_100 /\
  uniform_value "uFeather" (draw no_feather 0) = Some [260 * 0.5] /\
  uniform_value "uFeather" (draw (setFlow height_100 no_feather) 0) = Some [100 * 0.5] /\
  uniform_value (uniform_of Kfeather) (draw (setFlow height_100 no_feather) 0)
  <> uniform_value (uniform_of Kfeather) (draw no_feather 0).
Proof.
  split; [intros []; reflexivity|].
  split; [reflexivity|]. split; [reflexivity|].
  vm_compute. discriminate.
Qed.

End FogProps.

Module WindProps.
Import Gl Draw Glsl Wind WindSpec.
Local Open Scope R_scope.

(** *** Vector sums *)

Lemma vadd_assoc a b c : vadd (vadd a b) c = vadd a (vadd b c).
Proof. unfold vadd. cbn [fst snd]. f_equal; ring. Qed.

Lemma vadd_zero_r a : vadd a zero2 = a.
Proof. destruct a. unfold vadd, zero2. cbn [fst snd]. f_equal; ring. Qed.

Lemma vadd_zero_l a : vadd zero2 a = a.
Proof. destruct a. unfold vadd, zero2. cbn [fst snd]. f_equal; ring. Qed.

Lemma ltb_true a b : a < b -> ltb a b = true.
Proof. intros H. unfold ltb. destruct (Rlt_dec a b); [reflexivity | contradiction]. Qed.

Lemma ltb_false a b : ~ a < b -> ltb a b = false.
Proof. intros H. unfold ltb. destruct (Rlt_dec a b); [contradiction | reflexivity]. Qed.

(** *** What the specification calls a rect's contribution *)

Lemma body_offset u uv i acc :
  fst (body u uv i acc) = vadd (fst acc) (gated u uv i).
Proof.
  unfold body, gated, inside, contribution, mask_at. cbn [fst].
  destruct (ltb 0.0001 _); [reflexivity|].
  now rewrite vadd_zero_r.
Qed.

Lemma loop_offset u uv n :
  forall i acc,
    fst (loop u uv n i acc)
    = vadd (fst acc)
        (vsum (map (gated u uv)
                 (seq i (Nat.min n (Z.to_nat (uRectCount u - Z.of_nat i)))))).
Proof.
  induction n as [|n IH]; intros i acc.
  - cbn. now rewrite vadd_zero_r.
  - cbn [loop]. destruct (Z.leb_spec (uRectCount u) (Z.of_nat i)) as [Hle|Hlt].
    + replace (Z.to_nat (uRectCount u - Z.of_nat i)) with 0%nat by lia.
      rewrite Nat.min_0_r. cbn. now rewrite vadd_zero_r.
    + rewrite IH, body_offset.
      replace (Nat.min (S n) (Z.to_nat (uRectCount u - Z.of_nat i)))
        with (S (Nat.min n (Z.to_nat (uRectCount u - Z.of_nat (S i))))) by lia.
      cbn [seq map vsum fold_right]. now rewrite vadd_assoc.
Qed.

Lemma accumulate_offset u uv :
  fst (accumulate u uv) = vsum (map (gated u uv) (seq 0 (visited u))).
Proof.
  unfold accumulate. rewrite loop_offset. cbn [fst]. rewrite vadd_zero_l.
  unfold visited. do 3 f_equal. lia.
Qed.

Lemma vsum_gated u uv l :
  vsum (map (gated u uv) l) = vsum (map (contribution u uv) (filter (inside u uv) l)).
Proof.
  induction l as [|i l IH]; [reflexivity|].
  cbn [map filter vsum fold_right]. unfold gated at 1.
  destruct (inside u uv i).
  - cbn [map vsum fold_right]. fold (vsum (map (gated u uv) l)).
    fold (vsum (map (contribution u uv) (filter (inside u uv) l))). now rewrite IH.
  - fold (vsum (map (gated u uv) l)). now rewrite vadd_zero_l.
Qed.

(** *** Evaluating [smoothstep] outside its ramp *)

Lemma smoothstep_above e0 e1 x : e0 < e1 -> e1 <= x -> smoothstep e0 e1 x = 1.
Proof.
  intros H01 Hx. unfold smoothstep, clamp.
  assert (Hi : 0 < / (e1 - e0)) by (apply Rinv_0_lt_compat; lra).
  assert (Hd : 1 <= (x - e0) / (e1 - e0)).
  { unfold Rdiv. replace 1 with ((e1 - e0) * / (e1 - e0)) by (field; lra). nra. }
  rewrite Rmax_left by lra. rewrite Rmin_right by lra. ring.
Qed.

Lemma smoothstep_below e0 e1 x : e0 < e1 -> x <= e0 -> smoothstep e0 e1 x = 0.
Proof.
  intros H01 Hx. unfold smoothstep, clamp.
  assert (Hi : 0 < / (e1 - e0)) by (apply Rinv_0_lt_compat; lra).
  assert (Hd : (x - e0) / (e1 - e0) <= 0) by (unfold Rdiv; nra).
  rewrite Rmax_right by lra. rewrite Rmin_left by lra. ring.
Qed.

(** *** Two rects covering the same unit square *)

Lemma unit_rect_mask : rectMask unit_rect 0.5 centre = 1.
Proof.
  unfold rectMask, unit_rect, centre. cbn [fst snd v4x v4y v4z v4w].
  rewrite (smoothstep_above (0 - 0.5) (0 + 0.5) 0.5) by lra.
  rewrite (smoothstep_below (0 + 1 - 0.5) (0 + 1 + 0.5) 0.5) by lra.
  ring.
Qed.



Lemma sin_half_PI_pos : 0 < sin (PI * 0.5).
Proof.
  apply sin_gt_0; unfold PI; [lra|]. pose proof PI2_3_2. lra.
Qed.


Lemma two_rects_inside i : (i < 2)%nat -> inside two_rects centre i = true.
Proof.
  intros Hi. unfold inside, mask_at.
  assert (E : nth i (uRects two_rects) zero4 = unit_rect
              /\ nth i (uRectFeather two_rects) 0 = 0.5).
  { destruct i as [|[|i]]; [split; reflexivity | split; reflexivity | lia]. }
  destruct E as [-> ->]. rewrite unit_rect_mask. apply ltb_true. lra.
Qed.

Lemma two_rects_hit :
  filter (inside two_rects centre) (seq 0 (visited two_rects)) = [0; 1]%nat.
Proof.
  change (visited two_rects) with 2%nat. cbn [seq filter].
  rewrite !two_rects_inside by lia. reflexivity.
Qed.


(** *** The uniforms [draw] uploads for one sprite *)

Lemma draw_layer_rectCount ref t i l :
  int_value "uRectCount" (draw_layer ref t i (buildRectUniforms l))
  = Some (Z.of_nat (Nat.min (List.length (rects_or_empty l)) maxRects)).
Proof. reflexivity. Qed.

Lemma draw_layer_debugRects ref t i l :
  uniform_value "uDebugRects" (draw_layer ref t i (buildRectUniforms l)) = Some [0%Q].
Proof. reflexivity. Qed.

(** The early return of [main]. *)
Lemma main_early_return u vUv :
  uRectCount u = 0%Z -> uDebugRects u < 0.5 -> main u vUv = uTexture u vUv.
Proof.
  intros Hc Hd. unfold main. rewrite Hc, (ltb_true _ _ Hd). reflexivity.
Qed.

(** C3. At any fragment, the [offset] the loop accumulates is the
    arithmetic sum of the contributions of the rects the fragment lies inside
    (sine sway of the rect's centre times the rect's mask value); with two
    such rects it is the sum of the two contributions.  The texture is sampled
    at the interpolated coordinate plus that sum scaled by [uAmp]. *)
Theorem wind_overlap_sum :
  forall (u : uniforms) (uv : vec2),
    let hit := filter (inside u uv) (seq 0 (visited u)) in
    let total := vsum (map (contribution u uv) hit) in
    fst (accumulate u uv) = total /\
    sample_coord u uv = vadd uv (vmul total (uAmp u)) /\
    (forall i j, hit = [i; j] ->
       fst (accumulate u uv) = vadd (contribution u uv i) (contribution u uv j)) /\
    (uRectCount u <> 0%Z -> ltb 0.5 (uDebugRects u) = false ->
       main u uv = uTexture u (vadd uv (vmul total (uAmp u)))).
Proof.
  intros u uv hit total.
  assert (E : fst (accumulate u uv) = total).
  { rewrite accumulate_offset. apply vsum_gated. }
  repeat apply conj.
  - exact E.
  - unfold sample_coord. now rewrite E.
  - intros i j Hij. rewrite E. unfold total. rewrite Hij.
    cbn [map vsum fold_right]. now rewrite vadd_zero_r.
  - intros Hc Hd. unfold main.
    rewrite (proj2 (Z.eqb_neq _ _) Hc), Hd. cbn [andb].
    unfold sample_coord. now rewrite E.
Qed.

Lemma wind_overlap_sum_witness :
  fst (accumulate two_rects centre)
  = vadd (contribution two_rects centre 0) (contribution two_rects centre 1)
  /\ main two_rects centre
     = uTexture two_rects
         (vadd centre
            (vmul (vsum (map (contribution two_rects centre)
                           (filter (inside two_rects centre)
                              (seq 0 (visited two_rects)))))
               (uAmp two_rects))).
Proof.
  destruct (wind_overlap_sum two_rects centre) as (_ & _ & Hpair & Hmain).
  split.
  - apply Hpair. exact two_rects_hit.
  - apply Hmain.
    + discriminate.
    + apply ltb_false. cbn [uDebugRects two_rects]. lra.
Defined.


(** C9. A sprite with no configured rect is drawn with [uRectCount = 0] and
    debug rendering off, and every fragment of it receives the texture
    sampled at the interpolated coordinate, unmoved. *)
Theorem wind_no_rects_pass_through :
  forall (ref : ReferenceSize) (l : Layer) (time : Q) (index : nat)
         (tex : vec2 -> vec4) (vUv : vec2),
    rects_or_empty l = [] ->
    let u := uniforms_after (draw_layer ref time index (buildRectUniforms l)) tex in
    uRectCount u = 0%Z /\ uDebugRects u = 0 /\ main u vUv = tex vUv.
Proof.
  intros ref l time index tex vUv Hr u.
  assert (Hc : uRectCount u = 0%Z).
  { unfold u, uniforms_after. cbn [uRectCount].
    rewrite draw_layer_rectCount, Hr. reflexivity. }
  assert (Hd : uDebugRects u = 0).
  { unfold u, uniforms_after, float1, floats. cbn [uDebugRects].
    rewrite draw_layer_debugRects. cbn [map nth]. apply RMicromega.Q2R_0. }
  repeat apply conj; [exact Hc | exact Hd |].
  rewrite main_early_return; [reflexivity | exact Hc | rewrite Hd; lra].
Qed.

Lemma wind_no_rects_pass_through_witness :
  rects_or_empty bare_sprite = [] /\
  main (uniforms_after
          (draw_layer {| Draw.width := 1920; Draw.height := 1080 |} 0 0
             (buildRectUniforms bare_sprite)) (uTexture two_rects)) centre
  = uTexture two_rects centre.
Proof.
  split; [reflexivity|].
  exact (proj2 (proj2 (wind_no_rects_pass_through
                         {| Draw.width := 1920; Draw.height := 1080 |}
                         bare_sprite 0 0 (uTexture two_rects) centre eq_refl))).
Defined.

End WindProps.

Module SakuraProps.
Import Glsl Sakura.
Local Open Scope R_scope.




(** One instance a quarter into its third cycle: speed 1/2, seed 1/4,
    time 4. *)
Example progress_quarter :
  forall u a, uTime u = 4 -> aInstanceSpeed a = 0.5 -> aInstanceSeed a = 0.25 ->
              progress u a = 0.25.
Proof.
  intros u a Ht Hs Hk. unfold progress. rewrite Ht, Hs, Hk.
  unfold fract, floor.
  replace (Int_part (4 * 0.5 + 0.25)) with 2%Z; [lra|].
  apply Int_part_spec. lra.
Qed.

End SakuraProps.

Module LayerProps.
Import Gl Draw Promise LayerSpec.
Local Open Scope list_scope.

(** *** Promises *)

Lemma set_nth_same {A} (l : list A) : forall i x, nth_error l i = Some x -> set_nth i x l = l.
Proof.
  induction l as [|y l IH]; intros [|i] x H; cbn in *; try discriminate.
  - now injection H as ->.
  - now rewrite IH.
Qed.

Lemma values_nth {A} (ps : list (state A)) :
  forall vs i p, values ps = Some vs -> nth_error ps i = Some p -> is_fulfilled p = true.
Proof.
  induction ps as [|q ps IH]; intros vs [|i] p Hv Hn; cbn in *; try discriminate.
  - injection Hn as ->. destruct p; [discriminate | reflexivity | discriminate].
  - destruct q; try discriminate.
    destruct (values ps) eqn:E; [|discriminate]. eapply IH; [reflexivity | exact Hn].
Qed.

(** Once every input is fulfilled a further event changes none of them. *)
Lemma settle_nth_values {A} (ps : list (state A)) vs i o :
  values ps = Some vs -> settle_nth i o ps = ps.
Proof.
  intros Hv. unfold settle_nth. destruct (nth_error ps i) as [p|] eqn:E; [|reflexivity].
  pose proof (values_nth ps vs i p Hv E) as Hp.
  destruct p; try discriminate. cbn [settle]. now apply set_nth_same.
Qed.

Lemma values_no_rejection {A} (ps : list (state A)) vs :
  values ps = Some vs -> rejection ps = None.
Proof.
  revert vs. induction ps as [|p ps IH]; intros vs H; [reflexivity|].
  cbn in *. destruct p; try discriminate.
  destruct (values ps) eqn:E; [|discriminate]. eapply IH. reflexivity.
Qed.

(** A rejected input stays rejected. *)
Lemma rejection_set_nth {A} (ps : list (state A)) :
  forall i p o, nth_error ps i = Some p -> rejection ps <> None ->
                rejection (set_nth i (settle p o) ps) <> None.
Proof.
  induction ps as [|q ps IH]; intros [|i] p o Hn Hr; cbn in *; try discriminate.
  - injection Hn as ->. destruct p; cbn [settle]; cbn; try assumption.
    destruct o; cbn; try assumption; discriminate.
  - destruct q; try discriminate; now apply IH.
Qed.

Lemma rejection_settle_nth {A} (ps : list (state A)) i o :
  rejection ps <> None -> rejection (settle_nth i o ps) <> None.
Proof.
  intros H. unfold settle_nth. destruct (nth_error ps i) eqn:E; [|exact H].
  now apply rejection_set_nth.
Qed.

Lemma batch_step {A} (loads : list (state A)) loaded i o :
  batch_ok loads loaded ->
  batch_ok (settle_nth i o loads) (all loaded (settle_nth i o loads)).
Proof.
  intros Hok vs H. destruct loaded as [|v|r]; cbn [all] in H.
  - destruct (rejection (settle_nth i o loads)); [discriminate|].
    destruct (values (settle_nth i o loads)); [|discriminate]. congruence.
  - injection H as <-. rewrite (settle_nth_values loads v i o); now apply Hok.
  - discriminate.
Qed.

Lemma all_settled_stays {A} (cell : state (list A)) inputs :
  cell <> Pending -> all cell inputs = cell.
Proof. destruct cell; [congruence | reflexivity | reflexivity]. Qed.

(** *** The wind layer *)

Lemma wind_inv_create p b r : wind_inv (Wind.create p b r).
Proof. split; cbn; intros; try discriminate; reflexivity. Qed.

Lemma wind_inv_step i ev w : wind_inv w -> wind_inv (Wind.on_image i ev w).
Proof.
  intros [Hb Hr Hl]. unfold Wind.on_image.
  set (loads' := settle_nth i _ (Wind.loads w)).
  pose proof (batch_step (Wind.loads w) (Wind.loaded w) i
                (Texture.loadTexture (nth i Wind.urls EmptyString) ev) Hb) as Hb'.
  fold loads' in Hb'.
  destruct (Wind.ready w) eqn:Er.
  - destruct (all (Wind.loaded w) loads') eqn:Ea; split;
      cbn [Wind.loads Wind.loaded Wind.ready Wind.layers is_fulfilled];
      rewrite ?Ea; try assumption; try discriminate; try reflexivity;
      intros _; now apply Hl.
  - split; cbn [Wind.loads Wind.loaded Wind.ready Wind.layers is_fulfilled];
      try assumption; try discriminate.
    intros _. specialize (Hr eq_refl).
    rewrite all_settled_stays by (intros E; rewrite E in Hr; discriminate Hr).
    exact Hr.
  - split; cbn [Wind.loads Wind.loaded Wind.ready Wind.layers is_fulfilled];
      try assumption; discriminate.
Qed.

Lemma wind_ready_stays i ev w :
  is_fulfilled (Wind.ready w) = true ->
  is_fulfilled (Wind.ready (Wind.on_image i ev w)) = true.
Proof.
  intros H. unfold Wind.on_image. destruct (Wind.ready w); try discriminate.
  reflexivity.
Qed.

Lemma wind_inv_run evs : forall w, wind_inv w -> wind_inv (wind_run evs w).
Proof.
  induction evs as [|e evs IH]; intros w H; [exact H|].
  apply IH. now apply wind_inv_step.
Qed.

(** *** The pulse mask layer *)

Lemma pulse_inv_create p b r : pulse_inv (Pulse.create p b r).
Proof. split; cbn; intros; try discriminate; reflexivity. Qed.

Lemma pulse_inv_step ev w : pulse_inv w -> pulse_inv (Pulse.on_image ev w).
Proof.
  intros [Hr Hl]. unfold Pulse.on_image.
  destruct (Pulse.ready w) eqn:Er.
  - destruct (settle (Pulse.load w) _) eqn:Es; split;
      cbn [Pulse.load Pulse.ready Pulse.layer is_fulfilled];
      rewrite ?Es; try discriminate; try reflexivity; intros _; now apply Hl.
  - split; cbn [Pulse.load Pulse.ready Pulse.layer is_fulfilled]; try discriminate.
    intros _. specialize (Hr eq_refl). destruct (Pulse.load w); try discriminate.
    reflexivity.
  - split; cbn [Pulse.load Pulse.ready Pulse.layer is_fulfilled];
      try assumption; discriminate.
Qed.

Lemma pulse_ready_stays ev w :
  is_fulfilled (Pulse.ready w) = true ->
  is_fulfilled (Pulse.ready (Pulse.on_image ev w)) = true.
Proof.
  intros H. unfold Pulse.on_image. destruct (Pulse.ready w); try discriminate.
  reflexivity.
Qed.

Lemma pulse_inv_run evs : forall w, pulse_inv w -> pulse_inv (pulse_run evs w).
Proof.
  induction evs as [|e evs IH]; intros w H; [exact H|].
  apply IH. now apply pulse_inv_step.
Qed.

(** *** The petal layer *)

Lemma sakura_inv_create p b r : sakura_inv (Sakura.create p b r).
Proof. split; cbn; intros; try discriminate; reflexivity. Qed.

Lemma sakura_inv_step i ev objs w :
  sakura_inv w -> sakura_inv (Sakura.on_image i ev objs w).
Proof.
  intros [Hb Hr Hl]. unfold Sakura.on_image.
  set (loads' := settle_nth i _ (Sakura.loads w)).
  pose proof (batch_step (Sakura.loads w) (Sakura.loaded w) i
                (Texture.loadTexture (nth i Sakura.urls EmptyString) ev) Hb) as Hb'.
  fold loads' in Hb'.
  destruct (Sakura.ready w) eqn:Er.
  - destruct (all (Sakura.loaded w) loads') eqn:Ea;
      [ | destruct (Sakura.build_groups objs v) | ]; split;
      cbn [Sakura.loads Sakura.loaded Sakura.ready Sakura.particleGroups is_fulfilled];
      rewrite ?Ea; try assumption; try discriminate; try reflexivity;
      intros _; now apply Hl.
  - split;
      cbn [Sakura.loads Sakura.loaded Sakura.ready Sakura.particleGroups is_fulfilled];
      try assumption; try discriminate.
    intros _. specialize (Hr eq_refl).
    rewrite all_settled_stays by (intros E; rewrite E in Hr; discriminate Hr).
    exact Hr.
  - split;
      cbn [Sakura.loads Sakura.loaded Sakura.ready Sakura.particleGroups is_fulfilled];
      try assumption; discriminate.
Qed.

Lemma sakura_ready_stays i ev objs w :
  is_fulfilled (Sakura.ready w) = true ->
  is_fulfilled (Sakura.ready (Sakura.on_image i ev objs w)) = true.
Proof.
  intros H. unfold Sakura.on_image. destruct (Sakura.ready w); try discriminate.
  reflexivity.
Qed.

Lemma sakura_inv_run evs : forall w, sakura_inv w -> sakura_inv (sakura_run evs w).
Proof.
  induction evs as [|e evs IH]; intros w H; [exact H|].
  apply IH. now apply sakura_inv_step.
Qed.

(** C10. Whatever image events a texture-backed layer has received since it
    was created, as long as its [ready] promise has not resolved its [draw]
    issues no command at all. *)
Theorem draw_before_ready_is_noop :
  (forall program buffer ref evs t,
      let w := wind_run evs (Wind.create program buffer ref) in
      is_fulfilled (Wind.ready w) = false -> Wind.draw w t = []) /\
  (forall program buffer ref evs t,
      let w := pulse_run evs (Pulse.create program buffer ref) in
      is_fulfilled (Pulse.ready w) = false -> Pulse.draw w t = []) /\
  (forall program buffer ref evs t,
      let w := sakura_run evs (Sakura.create program buffer ref) in
      is_fulfilled (Sakura.ready w) = false -> Sakura.draw w t = []).
Proof.
  repeat apply conj; intros program buffer ref evs t w Hr.
  - unfold Wind.draw.
    rewrite (wind_layers w (wind_inv_run evs _ (wind_inv_create _ _ _)) Hr).
    reflexivity.
  - unfold Pulse.draw.
    rewrite (pulse_layer w (pulse_inv_run evs _ (pulse_inv_create _ _ _)) Hr).
    reflexivity.
  - unfold Sakura.draw.
    rewrite (sakura_groups w (sakura_inv_run evs _ (sakura_inv_create _ _ _)) Hr).
    reflexivity.
Qed.

Lemma draw_before_ready_is_noop_witness :
  is_fulfilled (Wind.ready three_loaded) = false /\ Wind.draw three_loaded 5%Q = [].
Proof.
  split; [reflexivity|].
  exact (proj1 draw_before_ready_is_noop 1%nat 13%nat Scene.referenceSize
           three_images 5%Q eq_refl).
Defined.

(** With the fourth texture the layer draws its four sprites: six commands
    of set-up and sixteen for each sprite. *)
Example draw_after_ready :
  List.length
    (Wind.draw (Wind.on_image 3 (Texture.Onload (Some 23%nat) 342%Q 300%Q) three_loaded) 5%Q)
  = 70%nat.
Proof. reflexivity. Qed.

End LayerProps.

Module SceneProps.
Import Gl Draw Scene SceneSpec.
Local Open Scope list_scope.
Local Open Scope Q_scope.

(** *** resizeCanvas *)





(** *** render *)




Lemma draw_count_app l1 l2 : draw_count (l1 ++ l2) = (draw_count l1 + draw_count l2)%nat.
Proof. unfold draw_count. now rewrite filter_app, length_app. Qed.

Lemma draw_count_GL cs : draw_count (map GL cs) = 0%nat.
Proof. unfold draw_count. induction cs as [|c cs IH]; [reflexivity | exact IH]. Qed.

Lemma draw_count_resize env c : draw_count (snd (resizeCanvas env c)) = 0%nat.
Proof.
  unfold resizeCanvas. destruct (_ || _); reflexivity.
Qed.

Lemma draw_count_cons c l :
  draw_count (c :: l) = ((if is_draw c then 1 else 0) + draw_count l)%nat.
Proof. unfold draw_count. cbn [filter]. destruct (is_draw c); reflexivity. Qed.

Lemma draw_count_frame s ls now env : draw_count (snd (frame s ls now env)) = 4%nat.
Proof.
  unfold frame. pose proof (draw_count_resize env (the_canvas s)) as Hr.
  destruct (resizeCanvas env (the_canvas s)) as [c resized]. cbn [snd] in *.
  rewrite draw_count_app, Hr. cbn [app].
  repeat (rewrite ?draw_count_cons, ?draw_count_app, ?draw_count_GL; cbn [is_draw]).
  reflexivity.
Qed.




(** *** Sequences of callbacks *)






Example running_loop : loop running = Some {| start := 3; lastFrameTime := 0 |}.
Proof. reflexivity. Qed.


(** Callbacks at 10, 50, 60 and 100 ms: those at 50 and 100 draw. *)
Example accepted_run :
  accepted (images ++ [ AnimationFrame 10 desktop; AnimationFrame 50 desktop;
                        AnimationFrame 60 desktop; AnimationFrame 100 desktop ])
    (init (Some 24%positive))
  = [50; 100].
Proof. vm_compute. reflexivity. Qed.

(** *** Readiness gating *)

Import Promise LayerSpec LayerProps.

Lemma scene_inv_init f : scene_inv (init f).
Proof.
  split; cbn.
  - apply wind_inv_create.
  - apply pulse_inv_create.
  - apply sakura_inv_create.
  - intros H. now elim H.
  - intros _. split; reflexivity.
Qed.

Lemma all_three_fulfilled (a b c : state unit) vs :
  all Pending [a; b; c] = Fulfilled vs ->
  is_fulfilled a = true /\ is_fulfilled b = true /\ is_fulfilled c = true.
Proof.
  destruct a, b, c; cbn; intros H; try discriminate H; repeat split.
Qed.

Lemma scene_inv_after_settle now s : scene_inv s -> scene_inv (after_settle now s).
Proof.
  intros [Hw Hp Hk Hs Hi]. unfold after_settle.
  destruct (all_ready s) eqn:Ea.
  - destruct (all Pending _) eqn:Eall; split;
      cbn [windLayer pulseMaskLayer sakuraLayer loop log scheduled];
      try assumption; try discriminate.
    intros _. exact (all_three_fulfilled _ _ _ _ Eall).
  - split; cbn [windLayer pulseMaskLayer sakuraLayer loop log scheduled]; assumption.
  - split; cbn [windLayer pulseMaskLayer sakuraLayer loop log scheduled]; assumption.
Qed.

Lemma quiet_app l1 l2 : quiet l1 -> quiet l2 -> quiet (l1 ++ l2).
Proof. unfold quiet. intros H1 H2. now rewrite forallb_app, H1, H2. Qed.

Lemma quiet_resize env c : quiet (snd (resizeCanvas env c)).
Proof. unfold resizeCanvas. destruct (_ || _); reflexivity. Qed.

Lemma scene_inv_step e s : scene_inv s -> scene_inv (step e s).
Proof.
  intros H. destruct e as [i ev now | ev now | i ev objs now | now env | env];
    cbn [step].
  - apply scene_inv_after_settle. destruct H as [Hw Hp Hk Hs Hi].
    split; cbn [with_layers windLayer pulseMaskLayer sakuraLayer loop log scheduled];
      try assumption.
    + now apply wind_inv_step.
    + intros Hl. destruct (Hs Hl) as (R1 & R2 & R3). repeat split; try assumption.
      now apply wind_ready_stays.
  - apply scene_inv_after_settle. destruct H as [Hw Hp Hk Hs Hi].
    split; cbn [with_layers windLayer pulseMaskLayer sakuraLayer loop log scheduled];
      try assumption.
    + now apply pulse_inv_step.
    + intros Hl. destruct (Hs Hl) as (R1 & R2 & R3). repeat split; try assumption.
      now apply pulse_ready_stays.
  - apply scene_inv_after_settle. destruct H as [Hw Hp Hk Hs Hi].
    split; cbn [with_layers windLayer pulseMaskLayer sakuraLayer loop log scheduled];
      try assumption.
    + now apply sakura_inv_step.
    + intros Hl. destruct (Hs Hl) as (R1 & R2 & R3). repeat split; try assumption.
      now apply sakura_ready_stays.
  - destruct (scheduled s); [|exact H].
    unfold render. destruct (loop s) as [ls|] eqn:El; [|exact H].
    destruct H as [Hw Hp Hk Hs Hi].
    assert (Hr : ready_all s) by (apply Hs; rewrite El; discriminate).
    destruct (_ && _); [|destruct (frame s ls now env) as [c calls]];
      split; cbn [windLayer pulseMaskLayer sakuraLayer loop log scheduled];
      try assumption; try discriminate; intros _; exact Hr.
  - pose proof (quiet_resize env (the_canvas s)) as Hq.
    destruct (resizeCanvas env (the_canvas s)) as [c calls]. cbn [snd] in Hq.
    destruct H as [Hw Hp Hk Hs Hi].
    split; cbn [windLayer pulseMaskLayer sakuraLayer loop log scheduled];
      try assumption.
    intros Hl. destruct (Hi Hl) as [Q1 Q2]. split; [now apply quiet_app | exact Q2].
Qed.

Lemma scene_inv_run es : forall s, scene_inv s -> scene_inv (run es s).
Proof.
  induction es as [|e es IH]; intros s H; [exact H|].
  apply IH. now apply scene_inv_step.
Qed.

Lemma is_rejected_settle {A} (p o : state A) :
  is_rejected p = true -> is_rejected (settle p o) = true.
Proof. destruct p; try discriminate. intros _. reflexivity. Qed.

Lemma after_settle_layers now s :
  windLayer (after_settle now s) = windLayer s /\
  pulseMaskLayer (after_settle now s) = pulseMaskLayer s /\
  sakuraLayer (after_settle now s) = sakuraLayer s.
Proof.
  unfold after_settle. destruct (all_ready s); [destruct (all _ _)| |];
    repeat split.
Qed.

(** A rejected load is still rejected after any further event. *)
Lemma rejected_step e s : some_load_rejected s -> some_load_rejected (step e s).
Proof.
  unfold some_load_rejected. intros H.
  destruct e as [i ev now | ev now | i ev objs now | now env | env]; cbn [step].
  - destruct (after_settle_layers now
                (with_layers s (Wind.on_image i ev (windLayer s)) (pulseMaskLayer s)
                   (sakuraLayer s))) as (-> & -> & ->).
    cbn [with_layers windLayer pulseMaskLayer sakuraLayer].
    destruct H as [H|[H|H]]; [left | right; left | right; right]; try assumption.
    unfold Wind.on_image. cbn [Wind.loads].
    destruct (Wind.ready _), (all _ _); cbn [Wind.loads]; now apply rejection_settle_nth.
  - destruct (after_settle_layers now
                (with_layers s (windLayer s) (Pulse.on_image ev (pulseMaskLayer s))
                   (sakuraLayer s))) as (-> & -> & ->).
    cbn [with_layers windLayer pulseMaskLayer sakuraLayer].
    destruct H as [H|[H|H]]; [left | right; left | right; right]; try assumption.
    unfold Pulse.on_image.
    destruct (Pulse.ready _), (settle _ _) eqn:E; cbn [Pulse.load];
      rewrite <- E; now apply is_rejected_settle.
  - destruct (after_settle_layers now
                (with_layers s (windLayer s) (pulseMaskLayer s)
                   (Sakura.on_image i ev objs (sakuraLayer s)))) as (-> & -> & ->).
    cbn [with_layers windLayer pulseMaskLayer sakuraLayer].
    destruct H as [H|[H|H]]; [left | right; left | right; right]; try assumption.
    unfold Sakura.on_image.
    destruct (Sakura.ready _), (all _ _); try destruct (Sakura.build_groups _ _);
      cbn [Sakura.loads]; now apply rejection_settle_nth.
  - destruct (scheduled s); [|exact H].
    unfold render. destruct (loop s) as [ls|]; [|exact H].
    destruct (_ && _); [|destruct (frame s ls now env)];
      cbn [windLayer pulseMaskLayer sakuraLayer]; exact H.
  - destruct (resizeCanvas env (the_canvas s)).
    cbn [windLayer pulseMaskLayer sakuraLayer]. exact H.
Qed.

Lemma rejected_run es : forall s, some_load_rejected s -> some_load_rejected (run es s).
Proof.
  induction es as [|e es IH]; intros s H; [exact H|].
  apply IH. now apply rejected_step.
Qed.

Lemma ready_all_loaded s : scene_inv s -> ready_all s -> loaded_all s.
Proof.
  intros [Hw Hp Hk _ _] (R1 & R2 & R3). repeat split.
  - pose proof (wind_ready _ Hw R1) as L.
    destruct (Wind.loaded (windLayer s)) as [|texs|] eqn:E; try discriminate.
    exists texs. now apply (wind_batch _ Hw).
  - now apply (pulse_ready _ Hp).
  - pose proof (sakura_ready _ Hk R3) as L.
    destruct (Sakura.loaded (sakuraLayer s)) as [|texs|] eqn:E; try discriminate.
    exists texs. now apply (sakura_batch _ Hk).
Qed.

Lemma rejected_not_loaded s : some_load_rejected s -> ~ loaded_all s.
Proof.
  intros H ((tw & Lw) & Lp & (tk & Lk)). destruct H as [H|[H|H]].
  - apply H. now apply (values_no_rejection _ tw).
  - destruct (Pulse.load (pulseMaskLayer s)); discriminate.
  - apply H. now apply (values_no_rejection _ tk).
Qed.

(** C1. In every scene reachable from [initScene]: once the loop has
    started the three readiness promises, and with them all nine texture
    loads, have resolved; anything in the orchestrator's record other than a
    canvas resize (a layer draw, a WebGL command, a requested animation
    frame) is there only after that; and once a texture load has rejected,
    whatever happens next the loop is not started, no callback is scheduled
    and nothing is drawn. *)
Theorem readiness_gates_loop :
  forall (f : option positive) (es : list event),
    let s := run es (init f) in
    (loop s <> None -> ready_all s /\ loaded_all s) /\
    (forall c, In c (log s) -> is_resize c = false -> ready_all s /\ loaded_all s) /\
    (some_load_rejected s ->
     forall es',
       loop (run es' s) = None /\ scheduled (run es' s) = false /\
       quiet (log (run es' s))).
Proof.
  intros f es s.
  assert (Hinv : scene_inv s) by (apply scene_inv_run, scene_inv_init).
  assert (Hstart : loop s <> None -> ready_all s /\ loaded_all s).
  { intros Hl. pose proof (si_started s Hinv Hl) as Hr.
    split; [exact Hr | now apply ready_all_loaded]. }
  repeat apply conj.
  - exact Hstart.
  - intros c Hin Hc. apply Hstart. intros Hl.
    destruct (si_idle s Hinv Hl) as [Hq _]. unfold quiet in Hq.
    rewrite forallb_forall in Hq. rewrite (Hq c Hin) in Hc. discriminate Hc.
  - intros Hrej es'.
    assert (Hinv' : scene_inv (run es' s)) by now apply scene_inv_run.
    assert (Hrej' : some_load_rejected (run es' s)) by now apply rejected_run.
    assert (Hl : loop (run es' s) = None).
    { destruct (loop (run es' s)) eqn:El; [|reflexivity].
      exfalso. apply (rejected_not_loaded _ Hrej').
      apply ready_all_loaded; [exact Hinv'|].
      apply (si_started _ Hinv'). rewrite El. discriminate. }
    destruct (si_idle _ Hinv' Hl) as [Hq Hs]. repeat split; assumption.
Qed.

Lemma readiness_gates_loop_witness :
  loop (run (images ++ [AnimationFrame 50 desktop]) (run broken (init (Some 24%positive))))
  = None /\
  ready_all (run images (init (Some 24%positive))).
Proof.
  split.
  - destruct (readiness_gates_loop (Some 24%positive) broken) as (_ & _ & H).
    apply H. left. intros E. vm_compute in E. discriminate E.
  - destruct (readiness_gates_loop (Some 24%positive) images) as (H & _).
    apply H. intros E. vm_compute in E. discriminate E.
Defined.

(** When all nine images load, the first callback in time draws the four
    layers. *)
Example loaded_then_drawn :
  draw_count (log (run (images ++ [AnimationFrame 50 desktop]) (init (Some 24%positive))))
  = 4%nat.
Proof. vm_compute. reflexivity. Qed.

End SceneProps.

(* ===================================================================== *)
(** * Further properties of the code                                      *)
(* ===================================================================== *)

Module GlMore.
Import Gl GlSpec GlMoreSpec GlProps.
Local Open Scope string_scope.
Local Open Scope list_scope.

Ltac trace_eq :=
  unfold trace; cbn [calls];
  rewrite ?rev_app_distr, ?rev_involutive;
  cbn [rev app shader_calls failed_shader_calls];
  rewrite <- ?app_assoc; reflexivity.

Lemma createShader_unallocated (drv : driver) ty src n sh pr cs :
  alloc_shader drv n = false ->
  createShader drv ty src {| fresh := n; shaders := sh; programs := pr; calls := cs |}
  = (Throw "Unable to create shader",
     {| fresh := n; shaders := sh; programs := pr; calls := CreateShader ty :: cs |}).
Proof.
  intros Ha. unfold createShader, bind, gl_createShader.
  cbn [record fresh shaders programs calls]. rewrite Ha. reflexivity.
Qed.

Lemma createShader_rejected (drv : driver) ty src n sh pr cs :
  alloc_shader drv n = true ->
  compile_status drv ty src = false ->
  exists sh',
    createShader drv ty src {| fresh := n; shaders := sh; programs := pr; calls := cs |}
    = (Throw (nullish (shader_info_log drv ty src) "Shader compile error"),
       {| fresh := S n; shaders := sh'; programs := pr;
          calls := rev (failed_shader_calls ty n src) ++ cs |})
    /\ sh' n = Some {| sh_type := ty; sh_source := src; sh_compiled := false;
                       sh_deleted := true |}
    /\ forall h, h <> n -> sh' h = sh h.
Proof.
  intros Ha Hc.
  unfold createShader, bind, gl_createShader.
  cbn [record fresh shaders programs calls]. rewrite Ha.
  unfold gl_shaderSource, gl_compileShader, gl_getShaderParameter_COMPILE_STATUS,
    gl_getShaderInfoLog, gl_deleteShader, set_shader, record, throw.
  repeat progress
    (cbn [fresh shaders programs calls sh_type sh_source sh_compiled sh_deleted negb];
     rewrite ?upd_same, ?Hc).
  eexists. split; [reflexivity|]. split.
  - now rewrite upd_same.
  - intros h Hh. now rewrite !upd_other by assumption.
Qed.

(** [createShader] never returns a half-made shader: when it returns a
    handle, that handle is the newly allocated object, it holds the given
    source, it compiled, it is not deleted, and the four calls of the
    successful path are all that was issued. *)
Theorem createShader_returns_compiled :
  forall (drv : driver) (ty : shader_type) (src : string) (st st' : glstate)
         (h : handle),
    createShader drv ty src st = (Ok h, st') ->
    h = fresh st /\
    compile_status drv ty src = true /\
    shaders st' h = Some {| sh_type := ty; sh_source := src; sh_compiled := true;
                            sh_deleted := false |} /\
    trace st' = trace st ++ shader_calls ty h src.
Proof.
  intros drv ty src [n sh pr cs] st' h Hrun.
  destruct (alloc_shader drv n) eqn:Ha.
  - destruct (compile_status drv ty src) eqn:Hc.
    + destruct (createShader_compiled drv ty src n sh pr cs Ha Hc)
        as (sh' & E & Hn & _).
      rewrite E in Hrun. injection Hrun as <- <-.
      cbn [fresh shaders]. repeat apply conj; try reflexivity; try assumption.
      trace_eq.
    + destruct (createShader_rejected drv ty src n sh pr cs Ha Hc) as (sh' & E & _).
      rewrite E in Hrun. discriminate Hrun.
  - rewrite (createShader_unallocated drv ty src n sh pr cs Ha) in Hrun.
    discriminate Hrun.
Qed.

Lemma createShader_returns_compiled_witness :
  compile_status (all_ok true None) VERTEX_SHADER "v" = true /\
  trace (snd (createShader (all_ok true None) VERTEX_SHADER "v" initial))
  = shader_calls VERTEX_SHADER 1 "v".
Proof.
  destruct (createShader_returns_compiled (all_ok true None) VERTEX_SHADER "v"
              initial (snd (createShader (all_ok true None) VERTEX_SHADER "v" initial))
              1%nat eq_refl) as (_ & Hc & _ & Ht).
  split; [exact Hc | exact Ht].
Defined.

(** A source that does not compile: [createShader] asks for the info log,
    deletes the shader object it had created and throws the log (the fixed
    text when the log is null). *)
Theorem createShader_compile_failure :
  forall (drv : driver) (ty : shader_type) (src : string) (st : glstate),
    alloc_shader drv (fresh st) = true ->
    compile_status drv ty src = false ->
    forall r st',
      createShader drv ty src st = (r, st') ->
      r = Throw (nullish (shader_info_log drv ty src) "Shader compile error") /\
      shader_deleted st' (fresh st) = true /\
      trace st' = trace st ++ failed_shader_calls ty (fresh st) src.
Proof.
  intros drv ty src [n sh pr cs] Ha Hc r st' Hrun. cbn [fresh] in *.
  destruct (createShader_rejected drv ty src n sh pr cs Ha Hc) as (sh' & E & Hn & _).
  rewrite E in Hrun. injection Hrun as <- <-.
  unfold shader_deleted. cbn [shaders]. rewrite Hn.
  repeat apply conj; try reflexivity. trace_eq.
Qed.

Lemma createShader_compile_failure_witness :
  fst (createShader (fragment_fails (Some "syntax error")) FRAGMENT_SHADER "f" initial)
  = Throw "syntax error" /\
  trace (snd (createShader (fragment_fails (Some "syntax error")) FRAGMENT_SHADER "f"
                initial))
  = failed_shader_calls FRAGMENT_SHADER 1 "f".
Proof.
  destruct (createShader_compile_failure (fragment_fails (Some "syntax error"))
              FRAGMENT_SHADER "f" initial eq_refl eq_refl _ _ (surjective_pairing _))
    as (Hr & _ & Ht).
  split; [exact Hr | exact Ht].
Defined.

(** When the fragment shader does not compile, [createProgram] throws the
    compiler's log without attaching or linking anything; the fragment shader
    is deleted, but the program object and the compiled vertex shader are
    left as they are, undeleted. *)
Theorem createProgram_fragment_failure :
  forall (drv : driver) (vs fs : string) (st : glstate),
    let p := fresh st in
    alloc_program drv p = true ->
    alloc_shader drv (S p) = true ->
    compile_status drv VERTEX_SHADER vs = true ->
    alloc_shader drv (S (S p)) = true ->
    compile_status drv FRAGMENT_SHADER fs = false ->
    forall r st',
      createProgram drv vs fs st = (r, st') ->
      r = Throw (nullish (shader_info_log drv FRAGMENT_SHADER fs)
                   "Shader compile error") /\
      shader_deleted st' (S (S p)) = true /\
      shaders st' (S p) = Some {| sh_type := VERTEX_SHADER; sh_source := vs;
                                  sh_compiled := true; sh_deleted := false |} /\
      programs st' p = Some {| pr_attached := []; pr_linked := false;
                               pr_deleted := false |} /\
      trace st' = trace st ++ [CreateProgram]
                    ++ shader_calls VERTEX_SHADER (S p) vs
                    ++ failed_shader_calls FRAGMENT_SHADER (S (S p)) fs.
Proof.
  intros drv vs fs [n sh pr cs] p Hp Hv Hvc Hf Hfc r st' Hrun.
  cbn [fresh] in p. subst p.
  destruct (createShader_compiled drv VERTEX_SHADER vs (S n) sh
              (upd pr n {| pr_attached := []; pr_linked := false; pr_deleted := false |})
              (CreateProgram :: cs) Hv Hvc) as (sh1 & E1 & V1 & O1).
  destruct (createShader_rejected drv FRAGMENT_SHADER fs (S (S n)) sh1
              (upd pr n {| pr_attached := []; pr_linked := false; pr_deleted := false |})
              (rev (shader_calls VERTEX_SHADER (S n) vs) ++ CreateProgram :: cs)
              Hf Hfc) as (sh2 & E2 & F2 & O2).
  unfold createProgram in Hrun.
  erewrite bind_ok in Hrun
    by (unfold gl_createProgram; cbn [record fresh shaders programs calls];
        rewrite Hp; reflexivity).
  cbn beta iota in Hrun.
  erewrite bind_ok in Hrun by exact E1.
  unfold bind at 1 in Hrun. rewrite E2 in Hrun. injection Hrun as <- <-.
  unfold shader_deleted. cbn [shaders programs].
  rewrite F2, (O2 (S n)) by lia. rewrite V1, upd_same.
  repeat apply conj; try reflexivity. trace_eq.
Qed.

Lemma createProgram_fragment_failure_witness :
  fst (createProgram (fragment_fails None) "v" "f" initial)
  = Throw "Shader compile error" /\
  programs (snd (createProgram (fragment_fails None) "v" "f" initial)) 1%nat
  = Some {| pr_attached := []; pr_linked := false; pr_deleted := false |}.
Proof.
  destruct (createProgram_fragment_failure (fragment_fails None) "v" "f" initial
              eq_refl eq_refl eq_refl eq_refl eq_refl _ _ (surjective_pairing _))
    as (Hr & _ & _ & Hp & _).
  split; [exact Hr | exact Hp].
Defined.

(** When the context hands out no program object, [createProgram] throws at
    once: no shader is created or compiled. *)
Theorem createProgram_without_program :
  forall (drv : driver) (vs fs : string) (st : glstate),
    alloc_program drv (fresh st) = false ->
    forall r st',
      createProgram drv vs fs st = (r, st') ->
      r = Throw "Unable to create program" /\
      trace st' = trace st ++ [CreateProgram] /\
      fresh st' = fresh st.
Proof.
  intros drv vs fs [n sh pr cs] Hp r st' Hrun. cbn [fresh] in *.
  unfold createProgram, bind, gl_createProgram in Hrun.
  cbn [record fresh shaders programs calls] in Hrun. rewrite Hp in Hrun.
  unfold throw in Hrun. injection Hrun as <- <-.
  unfold trace. cbn [calls fresh rev]. repeat split.
Qed.

Lemma createProgram_without_program_witness :
  fst (createProgram exhausted "v" "f" initial) = Throw "Unable to create program" /\
  trace (snd (createProgram exhausted "v" "f" initial)) = [CreateProgram].
Proof.
  destruct (createProgram_without_program exhausted "v" "f" initial eq_refl _ _
              (surjective_pairing _)) as (Hr & Ht & _).
  split; [exact Hr | exact Ht].
Defined.

End GlMore.

Module GlslFacts.
Import Glsl.
Local Open Scope R_scope.

Lemma clamp_range x lo hi : lo <= hi -> lo <= clamp x lo hi <= hi.
Proof.
  intros H. unfold clamp. split.
  - apply Rmin_glb; [apply Rmax_r | exact H].
  - apply Rmin_r.
Qed.

(** Whatever its arguments, [smoothstep] stays between 0 and 1. *)
Lemma smoothstep_range e0 e1 x : 0 <= smoothstep e0 e1 x <= 1.
Proof.
  unfold smoothstep.
  assert (H01 : 0 <= 1) by lra.
  pose proof (clamp_range ((x - e0) / (e1 - e0)) 0 1 H01) as H.
  set (t := clamp _ 0 1) in *. split.
  - apply Rmult_le_pos; [apply Rmult_le_pos|]; lra.
  - assert (Hp : 0 <= (1 - t) * (1 - t) * (1 + 2 * t))
      by (apply Rmult_le_pos; [apply Rmult_le_pos|]; lra).
    lra.
Qed.

Lemma mix_range a b t : a <= b -> 0 <= t <= 1 -> a <= mix a b t <= b.
Proof. intros Hab Ht. unfold mix. split; nra. Qed.

Lemma mix_range_down a b t : b <= a -> 0 <= t <= 1 -> b <= mix a b t <= a.
Proof. intros Hab Ht. unfold mix. split; nra. Qed.

Lemma fract_bounds x : 0 <= fract x < 1.
Proof.
  unfold fract, floor. destruct (base_Int_part x) as [H1 H2]. lra.
Qed.

End GlslFacts.

Module FogMore.
Import Gl Draw Fog FogMoreSpec.
Local Open Scope Q_scope.

(** Patches compose as object spreads do: applying [first] and then
    [second] is applying their merge, in which the later patch wins key by
    key.  So applying a patch twice is applying it once, and the empty patch
    changes nothing. *)
Theorem setFlow_compose :
  forall (r : FogRenderer) (first second : PartialFogFlow),
    setFlow second (setFlow first r) = setFlow (merge first second) r /\
    setFlow first (setFlow first r) = setFlow first r /\
    flow (setFlow no_change r) = flow r.
Proof.
  intros [pg qb rs [s e h sp d f]] [s1 e1 h1 sp1 d1 f1] [s2 e2 h2 sp2 d2 f2].
  repeat apply conj.
  - unfold setFlow, merge, merge_key, spread. cbn.
    destruct s2, e2, h2, sp2, d2, f2; reflexivity.
  - unfold setFlow, spread. cbn.
    destruct s1, e1, h1, sp1, d1, f1; reflexivity.
  - reflexivity.
Qed.

End FogMore.

Module FogShaderMore.
Import Glsl GlslFacts FogShader FogMoreSpec.
Local Open Scope R_scope.

Lemma band_range u vUv : 0 <= band u vUv <= 1.
Proof.
  unfold band. cbv zeta.
  pose proof (smoothstep_range (uHeight u * 0.5) (uHeight u * 0.5 + uFeather u)
                (Rabs (snd (pixel u vUv) - mix (snd (uStart u)) (snd (uEnd u)) 0.5))).
  lra.
Qed.

Lemma endFade_range u vUv : 0 <= endFade u vUv <= 1.
Proof.
  unfold endFade. cbv zeta.
  set (t := clamp _ 0 1).
  pose proof (smoothstep_range 0 0.08 t). pose proof (smoothstep_range 0.92 1 t).
  split; nra.
Qed.

Lemma mist_range u vUv : 0 <= mist u vUv <= 1.
Proof. unfold mist. cbv zeta. apply smoothstep_range. Qed.

Lemma spanX_pos u : 1 <= spanX u.
Proof. unfold spanX. apply Rmax_r. Qed.

(** The fog never gets denser than [uDensity]: its alpha lies between 0 and
    [uDensity], and its colour between the two tints of the shader. *)
Theorem fog_output_range :
  forall (u : uniforms) (vUv : vec2),
    0 <= uDensity u ->
    0 <= v4w (main u vUv) <= uDensity u /\
    0.7 <= v4x (main u vUv) <= 0.85 /\
    0.8 <= v4y (main u vUv) <= 0.9 /\
    0.9 <= v4z (main u vUv) <= 0.95.
Proof.
  intros u vUv Hd. unfold main. cbn [v4x v4y v4z v4w].
  pose proof (mist_range u vUv) as Hm.
  pose proof (band_range u vUv) as Hb.
  pose proof (endFade_range u vUv) as He.
  set (m := mist u vUv) in *. set (b := band u vUv) in *.
  set (e := endFade u vUv) in *.
  assert (Hmb : 0 <= m * b <= 1) by (split; nra).
  assert (Hmbe : 0 <= m * b * e <= 1) by (split; nra).
  repeat apply conj; try (unfold mix; nra).
Qed.

Lemma fog_output_range_witness :
  0 <= v4w (main default_uniforms (0.5, 0.5)) <= 0.2.
Proof.
  assert (Hd : 0 <= uDensity default_uniforms) by (cbn; lra).
  exact (proj1 (fog_output_range default_uniforms (0.5, 0.5) Hd)).
Defined.

(** The fog is confined to its band: it is fully transparent at and beyond
    [uHeight / 2 + uFeather] from the band's centre line (for a positive
    feather), at and before the band's start, and at and beyond its end. *)
Theorem fog_confined_to_band :
  forall (u : uniforms) (vUv : vec2),
    let p := pixel u vUv in
    let centerY := mix (snd (uStart u)) (snd (uEnd u)) 0.5 in
    (0 < uFeather u ->
     uHeight u * 0.5 + uFeather u <= Rabs (snd p - centerY) ->
     v4w (main u vUv) = 0) /\
    (fst p <= minX u -> v4w (main u vUv) = 0) /\
    (minX u + spanX u <= fst p -> v4w (main u vUv) = 0).
Proof.
  intros u vUv p centerY. unfold main. cbn [v4w].
  pose proof (spanX_pos u) as Hs.
  assert (Hi : 0 < / spanX u) by (apply Rinv_0_lt_compat; lra).
  repeat apply conj.
  - intros Hf Hdist.
    assert (E : band u vUv = 0).
    { unfold band. cbv zeta. fold p. fold centerY.
      rewrite WindProps.smoothstep_above by lra. ring. }
    rewrite E. ring.
  - intros Hx.
    assert (E : endFade u vUv = 0).
    { unfold endFade. cbv zeta. fold p.
      assert (Ht : clamp ((fst p - minX u) / spanX u) 0 1 = 0).
      { unfold clamp. assert ((fst p - minX u) / spanX u <= 0) by (unfold Rdiv; nra).
        rewrite Rmax_right by lra. apply Rmin_left. lra. }
      rewrite Ht, (WindProps.smoothstep_below 0 0.08 0) by lra. ring. }
    rewrite E. ring.
  - intros Hx.
    assert (E : endFade u vUv = 0).
    { unfold endFade. cbv zeta. fold p.
      assert (Ht : clamp ((fst p - minX u) / spanX u) 0 1 = 1).
      { unfold clamp.
        assert (1 <= (fst p - minX u) / spanX u).
        { unfold Rdiv. replace 1 with (spanX u * / spanX u) by (field; lra). nra. }
        rewrite Rmax_left by lra. apply Rmin_right. lra. }
      rewrite Ht, (WindProps.smoothstep_above 0.92 1 1) by lra. ring. }
    rewrite E. ring.
Qed.

Lemma fog_confined_to_band_witness :
  v4w (main default_uniforms (0, 0.5)) = 0
  /\ v4w (main default_uniforms (0.25, 1)) = 0.
Proof.
  split.
  - apply (proj1 (proj2 (fog_confined_to_band default_uniforms (0, 0.5)))).
    unfold pixel, minX. cbn [fst snd uStart uEnd uResolution default_uniforms].
    rewrite Rmin_left by lra. lra.
  - apply (proj1 (fog_confined_to_band default_uniforms (0.25, 1))).
    + cbn [uFeather default_uniforms]. lra.
    + unfold pixel, mix. cbn [fst snd uStart uEnd uResolution uHeight uFeather
                               default_uniforms].
      rewrite Rabs_right by lra. lra.
Defined.

Lemma hash_range p : 0 <= hash p < 1.
Proof. unfold hash. apply fract_bounds. Qed.

(** The value noise the mist is drawn from stays in [0, 1). *)
Theorem noise_range : forall p : vec2, 0 <= noise p < 1.
Proof.
  intros p. unfold noise. cbv zeta. cbn [fst snd].
  set (i := (floor (fst p), floor (snd p))).
  pose proof (hash_range i) as Ha.
  pose proof (hash_range (vadd i (1, 0))) as Hb.
  pose proof (hash_range (vadd i (0, 1))) as Hc.
  pose proof (hash_range (vadd i (1, 1))) as Hd.
  set (a := hash i) in *. set (b := hash (vadd i (1, 0))) in *.
  set (c := hash (vadd i (0, 1))) in *. set (d := hash (vadd i (1, 1))) in *.
  pose proof (smoothstep_range 0 1 (fract (fst p))) as Hx.
  pose proof (smoothstep_range 0 1 (fract (snd p))) as Hy.
  pose proof (fract_bounds (fst p)) as Hfx. pose proof (fract_bounds (snd p)) as Hfy.
  unfold smoothstep, clamp in Hx, Hy.
  replace ((fract (fst p) - 0) / (1 - 0)) with (fract (fst p)) in Hx by field.
  replace ((fract (snd p) - 0) / (1 - 0)) with (fract (snd p)) in Hy by field.
  rewrite Rmax_left, Rmin_left in Hx by lra.
  rewrite Rmax_left, Rmin_left in Hy by lra.
  set (ux := fract (fst p) * fract (fst p) * (3 - 2 * fract (fst p))) in *.
  set (uy := fract (snd p) * fract (snd p) * (3 - 2 * fract (snd p))) in *.
  unfold mix.
  assert (W1 : 0 <= (1 - ux) * (1 - uy)) by (apply Rmult_le_pos; lra).
  assert (W2 : 0 <= ux * (1 - uy)) by (apply Rmult_le_pos; lra).
  assert (W3 : 0 <= (1 - ux) * uy) by (apply Rmult_le_pos; lra).
  assert (W4 : 0 <= ux * uy) by (apply Rmult_le_pos; lra).
  replace (a * (1 - ux) + b * ux + (c - a) * uy * (1 - ux) + (d - b) * ux * uy)
    with (a * ((1 - ux) * (1 - uy)) + b * (ux * (1 - uy))
          + c * ((1 - ux) * uy) + d * (ux * uy)) by ring.
  set (w1 := (1 - ux) * (1 - uy)) in *. set (w2 := ux * (1 - uy)) in *.
  set (w3 := (1 - ux) * uy) in *. set (w4 := ux * uy) in *.
  assert (Hsum : w1 + w2 + w3 + w4 = 1) by (unfold w1, w2, w3, w4; ring).
  split.
  - assert (0 <= a * w1) by (apply Rmult_le_pos; lra).
    assert (0 <= b * w2) by (apply Rmult_le_pos; lra).
    assert (0 <= c * w3) by (apply Rmult_le_pos; lra).
    assert (0 <= d * w4) by (apply Rmult_le_pos; lra).
    lra.
  - assert (a * w1 <= w1) by nra.
    assert (b * w2 <= w2) by nra.
    assert (c * w3 <= w3) by nra.
    assert (d * w4 <= w4) by nra.
    destruct (Rle_lt_dec w1 0) as [Z1|P1].
    + destruct (Rle_lt_dec w2 0) as [Z2|P2].
      * destruct (Rle_lt_dec w3 0) as [Z3|P3].
        -- assert (d * w4 < w4) by nra. lra.
        -- assert (c * w3 < w3) by nra. lra.
      * assert (b * w2 < w2) by nra. lra.
    + assert (a * w1 < w1) by nra. lra.
Qed.

End FogShaderMore.

Module WindMore.
Import Gl Draw Glsl GlslFacts Wind WindSpec WindMoreSpec WindProps.
Local Open Scope list_scope.

(** *** buildRectUniforms *)

Lemma rectEntry_length l rs c i : List.length (fst (rectEntry l rs c i)) = 4%nat.
Proof.
  unfold rectEntry. destruct (i <? c)%nat; [destruct (nth_error rs i)|]; reflexivity.
Qed.

Lemma length_flat_map4 {A} (f : A -> list Q) (l : list A) :
  (forall a, List.length (f a) = 4%nat) ->
  List.length (flat_map f l) = (4 * List.length l)%nat.
Proof.
  intros Hf. induction l as [|a l IH]; [reflexivity|].
  cbn [flat_map]. rewrite length_app, Hf, IH. cbn [List.length]. lia.
Qed.


Lemma flat_map_map {A B C} (f : B -> list C) (g : A -> B) (l : list A) :
  flat_map f (map g l) = flat_map (fun a => f (g a)) l.
Proof. induction l as [|a l IH]; [reflexivity|]. cbn. now rewrite IH. Qed.

(** [buildRectUniforms] keeps at most eight rects: the count it stores is
    [min(rects.length, 8)], and whatever the number of rects the two arrays
    it builds have 32 and 8 entries. *)
Theorem buildRectUniforms_shape :
  forall l : Layer,
    rectCount (buildRectUniforms l)
    = Some (Nat.min (List.length (rects_or_empty l)) 8) /\
    option_map (@List.length Q) (rectData (buildRectUniforms l)) = Some 32%nat /\
    option_map (@List.length Q) (rectFeatherData (buildRectUniforms l)) = Some 8%nat /\
    rects (buildRectUniforms l) = rects l.
Proof.
  intros l. unfold buildRectUniforms.
  cbn [rectCount rectData rectFeatherData rects option_map].
  repeat apply conj; try reflexivity.
  - f_equal. rewrite flat_map_map.
    rewrite length_flat_map4 by (intros a; apply rectEntry_length).
    rewrite length_seq. reflexivity.
Qed.







(** *** The fragment shader *)

Section Fragment.
Local Open Scope R_scope.

Lemma rectMask_range rect f uv : 0 <= rectMask rect f uv <= 1.
Proof.
  unfold rectMask. cbv zeta. cbn [fst snd].
  pose proof (smoothstep_range (v4x rect - f) (v4x rect + f) (fst uv)) as A.
  pose proof (smoothstep_range (v4x rect + v4z rect - f) (v4x rect + v4z rect + f)
                (fst uv)) as B.
  pose proof (smoothstep_range (v4y rect - f) (v4y rect + f) (snd uv)) as C.
  pose proof (smoothstep_range (v4y rect + v4w rect - f) (v4y rect + v4w rect + f)
                (snd uv)) as D.
  set (a := smoothstep (v4x rect - f) _ _) in *.
  set (b := smoothstep (v4x rect + v4z rect - f) _ _) in *.
  set (c := smoothstep (v4y rect - f) _ _) in *.
  set (d := smoothstep (v4y rect + v4w rect - f) _ _) in *.
  assert (X : 0 <= a * (1 - b) <= 1) by (split; nra).
  assert (Y : 0 <= c * (1 - d) <= 1) by (split; nra).
  split; nra.
Qed.

Lemma gated_bound u uv i :
  Rabs (fst (gated u uv i)) <= 1 /\ Rabs (snd (gated u uv i)) <= 1.
Proof.
  unfold gated. destruct (inside u uv i).
  - unfold contribution, vscale, sway. cbv zeta. cbn [fst snd].
    pose proof (rectMask_range (nth i (uRects u) zero4) (nth i (uRectFeather u) 0) uv)
      as Hm. fold (mask_at u uv i) in Hm |- *.
    set (m := mask_at u uv i) in *.
    split; rewrite Rabs_mult, (Rabs_right m) by lra.
    + match goal with |- Rabs (sin ?a) * _ <= _ =>
        pose proof (SIN_bound a) as Hs; pose proof (Rabs_pos (sin a));
        assert (Rabs (sin a) <= 1) by (apply Rabs_le; lra) end. nra.
    + match goal with |- Rabs (sin ?a) * _ <= _ =>
        pose proof (SIN_bound a) as Hs; pose proof (Rabs_pos (sin a));
        assert (Rabs (sin a) <= 1) by (apply Rabs_le; lra) end. nra.
  - unfold zero2. cbn [fst snd]. rewrite Rabs_R0. lra.
Qed.

Lemma vsum_bound (g : nat -> vec2) (l : list nat) :
  (forall i, Rabs (fst (g i)) <= 1 /\ Rabs (snd (g i)) <= 1) ->
  Rabs (fst (vsum (map g l))) <= INR (List.length l) /\
  Rabs (snd (vsum (map g l))) <= INR (List.length l).
Proof.
  intros Hg. induction l as [|i l [IH1 IH2]].
  - cbn. rewrite Rabs_R0. lra.
  - cbn [map vsum fold_right List.length]. fold (vsum (map g l)).
    rewrite S_INR. unfold vadd. cbn [fst snd]. destruct (Hg i) as [G1 G2].
    split; (eapply Rle_trans; [apply Rabs_triang|]); lra.
Qed.

Lemma visited_le u : (visited u <= 8)%nat.
Proof. unfold visited. lia. Qed.

(** The sway is bounded although nothing clamps it: each component of the
    accumulated offset is at most the number of rects the loop visits, which
    is at most 8, so a fragment is never sampled further than [8 * uAmp] from
    its own coordinate. *)
Theorem wind_offset_bounded :
  forall (u : uniforms) (uv : vec2),
    let offset := fst (accumulate u uv) in
    Rabs (fst offset) <= INR (visited u) /\
    Rabs (snd offset) <= INR (visited u) /\
    INR (visited u) <= 8 /\
    Rabs (fst (sample_coord u uv) - fst uv) <= 8 * Rabs (fst (uAmp u)) /\
    Rabs (snd (sample_coord u uv) - snd uv) <= 8 * Rabs (snd (uAmp u)).
Proof.
  intros u uv offset.
  assert (Hb : Rabs (fst offset) <= INR (visited u)
               /\ Rabs (snd offset) <= INR (visited u)).
  { unfold offset. rewrite accumulate_offset.
    pose proof (vsum_bound (gated u uv) (seq 0 (visited u)) (gated_bound u uv)) as H.
    now rewrite length_seq in H. }
  assert (Hv : INR (visited u) <= 8).
  { replace 8 with (INR 8) by (cbn; lra). apply le_INR, visited_le. }
  destruct Hb as [H1 H2].
  repeat apply conj; try assumption.
  - unfold sample_coord, vadd, vmul. cbn [fst snd]. fold offset.
    replace (fst uv + fst offset * fst (uAmp u) - fst uv)
      with (fst offset * fst (uAmp u)) by ring.
    rewrite Rabs_mult. pose proof (Rabs_pos (fst (uAmp u))).
    pose proof (Rabs_pos (fst offset)). nra.
  - unfold sample_coord, vadd, vmul. cbn [fst snd]. fold offset.
    replace (snd uv + snd offset * snd (uAmp u) - snd uv)
      with (snd offset * snd (uAmp u)) by ring.
    rewrite Rabs_mult. pose proof (Rabs_pos (snd (uAmp u))).
    pose proof (Rabs_pos (snd offset)). nra.
Qed.

Lemma beyond_feather_mask u uv i :
  0 < nth i (uRectFeather u) 0 -> beyond_feather u uv i -> mask_at u uv i = 0.
Proof.
  intros Hf H. unfold mask_at, rectMask. cbv zeta. cbn [fst snd].
  set (rect := nth i (uRects u) zero4) in *.
  set (f := nth i (uRectFeather u) 0) in *.
  unfold beyond_feather in H. cbv zeta in H. fold rect f in H.
  destruct H as [H|[H|[H|H]]].
  - rewrite (smoothstep_below (v4x rect - f)) by lra. ring.
  - rewrite (smoothstep_above (v4x rect + v4z rect - f)) by lra. ring.
  - rewrite (smoothstep_below (v4y rect - f)) by lra. ring.
  - rewrite (smoothstep_above (v4y rect + v4w rect - f)) by lra. ring.
Qed.

(** The sway stays within the feathered rects: a fragment that lies outside
    every visited rect widened by its (positive) feather is sampled at its
    own coordinate, and with debug rendering off the output is the texture
    there. *)
Theorem wind_outside_rects_unmoved :
  forall (u : uniforms) (uv : vec2),
    (forall i, (i < visited u)%nat ->
               0 < nth i (uRectFeather u) 0 /\ beyond_feather u uv i) ->
    sample_coord u uv = uv /\
    (ltb 0.5 (uDebugRects u) = false -> main u uv = uTexture u uv).
Proof.
  intros u uv H.
  assert (E : fst (accumulate u uv) = zero2).
  { rewrite accumulate_offset.
    assert (G : forall l, (forall i, In i l -> (i < visited u)%nat) ->
                          vsum (map (gated u uv) l) = zero2).
    { induction l as [|i l IH]; intros Hl; [reflexivity|].
      cbn [map vsum fold_right]. fold (vsum (map (gated u uv) l)).
      rewrite IH by (intros j Hj; apply Hl; now right).
      destruct (H i (Hl i (or_introl eq_refl))) as [Hf Hb].
      unfold gated, inside. rewrite (beyond_feather_mask u uv i Hf Hb).
      rewrite ltb_false by lra. apply vadd_zero_l. }
    apply G. intros i Hi. apply in_seq in Hi. lia. }
  assert (S : sample_coord u uv = uv).
  { unfold sample_coord. rewrite E. destruct uv as [a b].
    unfold vadd, vmul, zero2. cbn [fst snd]. f_equal; ring. }
  split; [exact S|].
  intros Hd. unfold main. rewrite Hd, S.
  destruct (_ && _); reflexivity.
Qed.

Lemma wind_outside_rects_unmoved_witness :
  main corner_rect (0.9, 0.9) = uTexture corner_rect (0.9, 0.9).
Proof.
  refine (proj2 (wind_outside_rects_unmoved corner_rect (0.9, 0.9) _) _).
  - intros i Hi. change (visited corner_rect) with 1%nat in Hi.
    assert (i = 0%nat) as -> by lia.
    split; [cbn; lra | unfold beyond_feather; cbn; right; left; lra].
  - apply ltb_false. cbn. lra.
Defined.

End Fragment.

End WindMore.

Module WindDrawMore.
Import Gl Draw Glsl Wind WindSpec WindMoreSpec WindDrawSpec.
Local Open Scope list_scope.







(** *** The vertex shader *)

Local Open Scope Q_scope.

Lemma Q2R_half : Q2R 0.5 = 0.5%R.
Proof. unfold Q2R. cbn. lra. Qed.

Lemma Q2R_two : Q2R 2 = 2%R.
Proof. unfold Q2R. cbn. lra. Qed.

Lemma Q2R_nonzero q : ~ q == 0 -> Q2R q <> 0%R.
Proof.
  intros H E. apply H. apply eqR_Qeq. rewrite E. symmetry. apply RMicromega.Q2R_0.
Qed.

Lemma draw_layer_translate ref t i l :
  uniform_value "uTranslate" (draw_layer ref t i l)
  = Some [ ((x l + width l * 0.5) / Draw.width ref * 2 - 1)%Q;
           (1 - (y l + height l * 0.5) / Draw.height ref * 2)%Q ].
Proof.
  unfold draw_layer. destruct (rectData l), (rectFeatherData l); reflexivity.
Qed.

Lemma draw_layer_scale ref t i l :
  uniform_value "uScale" (draw_layer ref t i l)
  = Some [ (width l / Draw.width ref)%Q; (height l / Draw.height ref)%Q ].
Proof.
  unfold draw_layer. destruct (rectData l), (rectFeatherData l); reflexivity.
Qed.

(** The quad lands on the sprite's rectangle of reference space.  For a
    reference size with non-zero sides, the vertex with quad coordinate [a]
    is placed at the normalised device coordinates of the reference point it
    stands for: the corners (-1, -1), (1, -1), (-1, 1), (1, 1) go to the
    sprite's bottom-left, bottom-right, top-left and top-right corners. *)
Theorem wind_quad_placement :
  forall (ref : ReferenceSize) (l : Layer) (t : Q) (i : nat) (a uv : vec2),
    ~ Draw.width ref == 0 ->
    ~ Draw.height ref == 0 ->
    let v := WindVertex.main
               (WindVertex.uniforms_after (draw_layer ref t i l)) a uv in
    (v4x (WindVertex.gl_Position v), v4y (WindVertex.gl_Position v))
    = ndc ref (reference_point l a) /\
    v4z (WindVertex.gl_Position v) = 0%R /\
    v4w (WindVertex.gl_Position v) = 1%R /\
    WindVertex.vUv v = uv.
Proof.
  intros ref l t i a uv HW HH v.
  unfold v, WindVertex.main, WindVertex.uniforms_after, float2, floats.
  rewrite draw_layer_translate, draw_layer_scale.
  cbn [map nth WindVertex.uTranslate WindVertex.uScale WindVertex.gl_Position
       WindVertex.vUv v4x v4y v4z v4w vadd vmul fst snd].
  repeat apply conj; try reflexivity.
  unfold ndc, reference_point. cbn [fst snd].
  repeat progress
    (rewrite ?Q2R_minus, ?Q2R_mult, ?Q2R_plus; rewrite ?Q2R_div by assumption).
  rewrite ?Q2R_half, ?Q2R_two, ?RMicromega.Q2R_1.
  unfold Rdiv.
  generalize (/ Q2R (Draw.width ref))%R (/ Q2R (Draw.height ref))%R.
  intros kw kh. apply f_equal2; lra.
Qed.

Lemma wind_quad_placement_witness :
  v4x (WindVertex.gl_Position
         (WindVertex.main
            (WindVertex.uniforms_after
               (draw_layer Scene.referenceSize 0%Q 0 bare_sprite))
            (-1, 1)%R (0, 1)%R))
  = (2 * (Q2R 10 / Q2R 1920) - 1)%R.
Proof.
  assert (HW : ~ Draw.width Scene.referenceSize == 0) by discriminate.
  assert (HH : ~ Draw.height Scene.referenceSize == 0) by discriminate.
  pose proof (proj1 (wind_quad_placement Scene.referenceSize bare_sprite 0%Q 0
                       (-1, 1)%R (0, 1)%R HW HH)) as H.
  apply (f_equal fst) in H. cbn [fst] in H. rewrite H.
  unfold ndc, reference_point. cbn [fst snd x width bare_sprite Draw.width
                                   Scene.referenceSize].
  f_equal. f_equal. field. apply Q2R_nonzero. discriminate.
Defined.

End WindDrawMore.

Module PulseMore.
Import Gl Draw Glsl GlslFacts PetalSpec.

Section Host.
Local Open Scope Q_scope.

(** The mask is centred.  Whatever the size of the loaded mask, for a
    reference size with non-zero sides, [draw] uploads a translation equal to
    (0, 0), the centre of the canvas, and the scale mask size over reference
    size. *)
Theorem pulse_mask_centred :
  forall (w : Pulse.state) (mask : Texture.LoadedTexture) (t : Q),
    Pulse.layer w = Some (Pulse.on_loaded (Pulse.referenceSize w) mask) ->
    ~ Draw.width (Pulse.referenceSize w) == 0 ->
    ~ Draw.height (Pulse.referenceSize w) == 0 ->
    exists tx ty,
      uniform_value "uTranslate" (Pulse.draw w t) = Some [tx; ty] /\
      tx == 0 /\ ty == 0 /\
      uniform_value "uScale" (Pulse.draw w t)
      = Some [ Texture.width mask / Draw.width (Pulse.referenceSize w);
               Texture.height mask / Draw.height (Pulse.referenceSize w) ].
Proof.
  intros w mask t Hl HW HH. unfold Pulse.draw. rewrite Hl.
  unfold Pulse.on_loaded.
  cbn [Pulse.x Pulse.y Pulse.width Pulse.height Pulse.texture].
  do 2 eexists. split; [reflexivity|]. repeat apply conj.
  - field. exact HW.
  - field. exact HH.
  - reflexivity.
Qed.

Lemma pulse_mask_centred_witness :
  exists tx ty,
    uniform_value "uTranslate" (Pulse.draw mask_loaded 3) = Some [tx; ty] /\
    tx == 0 /\ ty == 0.
Proof.
  destruct (pulse_mask_centred mask_loaded
              {| Texture.texture := 24%nat; Texture.width := 512;
                 Texture.height := 256 |} 3 eq_refl)
    as (tx & ty & H1 & H2 & H3 & _); try discriminate.
  exists tx, ty. repeat split; assumption.
Defined.

End Host.

Section Fragment.
Local Open Scope R_scope.
Import PulseShader.

Lemma pulseMix_range t : 0 <= pulseMix t <= 1.
Proof. unfold pulseMix. cbv zeta. apply clamp_range. lra. Qed.

(** The glow never gets more opaque than 0.75, and where the mask is at or
    below 0.25 it is fully transparent; its colour stays between black and
    the glow colour (1, 0.86, 0.2). *)
Theorem pulse_output_range :
  forall (uMask : vec2 -> vec4) (uTime : R) (vUv : vec2),
    let out := main uMask uTime vUv in
    0 <= v4w out <= 0.75 /\
    (v4x (uMask vUv) <= 0.25 -> v4w out = 0) /\
    0 <= v4x out <= 1 /\ 0 <= v4y out <= 0.86 /\ 0 <= v4z out <= 0.2.
Proof.
  intros uMask uTime vUv out. unfold out, main. cbv zeta. cbn [v4x v4y v4z v4w].
  pose proof (pulseMix_range uTime) as Hp.
  pose proof (smoothstep_range 0.25 0.95 (v4x (uMask vUv))) as Hm.
  pose proof (SIN_bound (uTime * 19 + snd vUv * 8)) as Hs.
  set (pm := pulseMix uTime) in *.
  set (ma := smoothstep 0.25 0.95 (v4x (uMask vUv))) in *.
  set (sn := sin (uTime * 19 + snd vUv * 8)) in *.
  assert (Hmix : 0.18 <= mix 0.18 0.75 pm <= 0.75) by (apply mix_range; lra).
  set (mx := mix 0.18 0.75 pm) in *.
  assert (Hfl : 0.7 <= 0.85 + 0.15 * sn <= 1) by lra.
  set (fl := 0.85 + 0.15 * sn) in *.
  assert (Hmm : 0 <= ma * mx <= 0.75) by (split; nra).
  repeat apply conj; try (unfold mix; nra).
  intros Hdark. unfold ma.
  rewrite WindProps.smoothstep_below by lra. ring.
Qed.

Lemma pulse_output_range_witness :
  v4w (main black 2 (0.5, 0.5)) = 0.
Proof.
  apply (proj1 (proj2 (pulse_output_range black 2 (0.5, 0.5)))).
  cbn. lra.
Defined.

End Fragment.

End PulseMore.

Module SakuraMore.
Import Glsl GlslFacts Sakura PetalSpec.
Local Open Scope R_scope.

Lemma Int_part_shift x (k : Z) : Int_part (x + IZR k) = (Int_part x + k)%Z.
Proof.
  symmetry. apply Int_part_spec. rewrite plus_IZR.
  destruct (base_Int_part x) as [H1 H2]. lra.
Qed.

Lemma fract_shift x (k : Z) : fract (x + IZR k) = fract x.
Proof. unfold fract, floor. rewrite Int_part_shift, plus_IZR. ring. Qed.

(** An instance loops for ever: after any whole number of cycles of
    [1 / speed] seconds its progress and its place on the travel path are
    what they were. *)
Theorem particle_cycle_repeats :
  forall (u u' : uniforms) (a : attributes) (k : Z),
    aInstanceSpeed a <> 0 ->
    uTime u' = uTime u + IZR k / aInstanceSpeed a ->
    progress u' a = progress u a /\ travel u' a = travel u a.
Proof.
  intros u u' a k Hs Ht.
  assert (E : progress u' a = progress u a).
  { unfold progress. rewrite Ht.
    replace ((uTime u + IZR k / aInstanceSpeed a) * aInstanceSpeed a + aInstanceSeed a)
      with (uTime u * aInstanceSpeed a + aInstanceSeed a + IZR k) by (field; exact Hs).
    apply fract_shift. }
  split; [exact E|]. unfold travel. now rewrite E.
Qed.

Lemma particle_cycle_repeats_witness :
  progress (at_time 5) slow_petal = progress (at_time 1) slow_petal.
Proof.
  refine (proj1 (particle_cycle_repeats (at_time 1) (at_time 5) slow_petal 2 _ _)).
  - cbn. lra.
  - cbn. lra.
Defined.

(** Whatever the instance and the time, the vertex shader hands on an alpha
    between 0.45 and 1 and a life in [0, 1), and places the vertex at depth 0
    with [w = 1]. *)
Theorem petal_vertex_ranges :
  forall (u : uniforms) (a : attributes),
    0.45 <= vAlpha (main u a) <= 1 /\
    0 <= vLife (main u a) < 1 /\
    v4z (gl_Position (main u a)) = 0 /\
    v4w (gl_Position (main u a)) = 1 /\
    vUv (main u a) = aUv a.
Proof.
  intros u a. unfold main.
  destruct (aInstanceRot a) as [[r0x r0y] r0z].
  destruct (aInstanceRotSpeed a) as [[rsx rsy] rsz].
  cbn [vAlpha vLife gl_Position vUv v4z v4w].
  repeat apply conj; try reflexivity.
  - apply clamp_range. lra.
  - apply clamp_range. lra.
  - apply fract_bounds.
  - apply fract_bounds.
Qed.

(** A petal is never more opaque than its texture, and it has faded out
    before its cycle wraps around: for a texel alpha in [0, 1] and an
    incoming alpha in [0.45, 1] the output alpha lies between 0 and the
    texel's; it is 0 from life 0.98 on and where the texel's alpha is at most
    0.05; the colour is the texel's. *)
Theorem petal_fragment_alpha :
  forall (uTexture : vec2 -> vec4) (vUv : vec2) (vAlpha vLife : R),
    0 <= v4w (uTexture vUv) <= 1 ->
    0.45 <= vAlpha <= 1 ->
    let out := SakuraFragment.main uTexture vUv vAlpha vLife in
    0 <= v4w out <= v4w (uTexture vUv) /\
    (0.98 <= vLife -> v4w out = 0) /\
    (v4w (uTexture vUv) <= 0.05 -> v4w out = 0) /\
    (v4x out, v4y out, v4z out)
    = (v4x (uTexture vUv), v4y (uTexture vUv), v4z (uTexture vUv)).
Proof.
  intros uTexture vUv vAlpha vLife Ha Hv out.
  unfold out, SakuraFragment.main. cbv zeta. cbn [v4x v4y v4z v4w].
  pose proof (smoothstep_range 0.78 0.98 vLife) as Hf.
  pose proof (smoothstep_range 0.05 0.7 (v4w (uTexture vUv))) as He.
  set (ca := v4w (uTexture vUv)) in *.
  set (f := smoothstep 0.78 0.98 vLife) in *.
  set (e := smoothstep 0.05 0.7 ca) in *.
  repeat apply conj; try reflexivity.
  - assert (0 <= ca * e) by (apply Rmult_le_pos; lra).
    assert (0 <= ca * e * vAlpha) by (apply Rmult_le_pos; lra).
    apply Rmult_le_pos; lra.
  - assert (X : 0 <= ca * e <= ca) by (split; nra).
    assert (Y : 0 <= ca * e * vAlpha <= ca) by (split; nra).
    nra.
  - intros Hl. unfold f. rewrite WindProps.smoothstep_above by lra. ring.
  - intros Hc. unfold e. rewrite WindProps.smoothstep_below by lra. ring.
Qed.

Lemma petal_fragment_alpha_witness :
  v4w (SakuraFragment.main white (0.5, 0.5) 1 0.99) = 0.
Proof.
  assert (Ha : 0 <= v4w (white (0.5, 0.5)) <= 1) by (cbn; lra).
  assert (Hv : 0.45 <= 1 <= 1) by lra.
  apply (proj1 (proj2 (petal_fragment_alpha white (0.5, 0.5) 1 0.99 Ha Hv))).
  lra.
Defined.

End SakuraMore.

Module SakuraDataMore.
Import Glsl Utils SakuraData PetalSpec.
Local Open Scope list_scope.

Section Layout.

Variable base : R.
Variable rand : nat -> R.

Let block (i : nat) : list R := write (generate base rand i).

Lemma block_length i : List.length (block i) = 15%nat.
Proof. reflexivity. Qed.

Lemma skipn_blocks (n : nat) :
  forall first k,
    (k <= n)%nat ->
    skipn (15 * k) (flat_map block (seq first n)) = flat_map block (seq (first + k) (n - k)).
Proof.
  induction n as [|n IH]; intros first k Hk.
  - assert (k = 0%nat) as -> by lia. reflexivity.
  - destruct k as [|k].
    + rewrite Nat.mul_0_r, Nat.add_0_r, Nat.sub_0_r. reflexivity.
    + cbn [seq flat_map].
      replace (15 * S k)%nat with (List.length (block first) + 15 * k)%nat
        by (rewrite block_length; lia).
      rewrite skipn_app, skipn_all2 by (rewrite block_length; lia).
      replace (List.length (block first) + 15 * k - List.length (block first))%nat
        with (15 * k)%nat by lia.
      cbn [app]. rewrite IH by lia.
      replace (S first + k)%nat with (first + S k)%nat by lia. reflexivity.
Qed.

Lemma fetch_block (count k size j offset : nat) :
  (k < count)%nat -> (j + size <= 15)%nat -> offset = (4 * j)%nat ->
  fetch (data base rand count) size stride offset k
  = firstn size (skipn j (block k)).
Proof.
  intros Hk Hj ->. unfold fetch, data, stride, floatsPerInstance.
  fold block.
  replace ((k * (15 * 4) + 4 * j) / 4)%nat with (j + 15 * k)%nat
    by (apply Nat.div_unique with 0%nat; lia).
  rewrite <- skipn_skipn, skipn_blocks by lia.
  replace (count - k)%nat with (S (count - S k)) by lia.
  cbn [seq flat_map Nat.add].
  rewrite skipn_app, firstn_app.
  replace (size - List.length (skipn j (block k)))%nat with 0%nat
    by (rewrite length_skipn, block_length; lia).
  cbn [firstn]. apply app_nil_r.
Qed.

End Layout.

(** The buffer layout and the attribute pointers agree: for every instance
    of a group, each per-instance attribute of the vertex shader reads back
    exactly the values the loop wrote for that instance (position, velocity,
    the size twice, the three rotations, the three rotation speeds, speed,
    depth and seed). *)
Theorem instance_attributes_read_back :
  forall (base : R) (rand : nat -> R) (count k : nat),
    (k < count)%nat ->
    let d := data base rand count in
    let p := generate base rand k in
    attribute d "aInstancePos" k = [posX p; posY p] /\
    attribute d "aInstanceVel" k = [velX p; velY p] /\
    attribute d "aInstanceSize" k = [size p; size p] /\
    attribute d "aInstanceRot" k = [rotX p; rotY p; rotZ p] /\
    attribute d "aInstanceRotSpeed" k = [rotSpeedX p; rotSpeedY p; rotSpeedZ p] /\
    attribute d "aInstanceSpeed" k = [speed p] /\
    attribute d "aInstanceDepth" k = [depth p] /\
    attribute d "aInstanceSeed" k = [seed p].
Proof.
  intros base rand count k Hk d p. unfold d, attribute.
  cbn [find pointers fst snd String.eqb Ascii.eqb Bool.eqb].
  repeat apply conj.
  - rewrite (fetch_block base rand count k 2 0 0) by lia. reflexivity.
  - rewrite (fetch_block base rand count k 2 2 8) by lia. reflexivity.
  - rewrite (fetch_block base rand count k 2 4 16) by lia. reflexivity.
  - rewrite (fetch_block base rand count k 3 6 24) by lia. reflexivity.
  - rewrite (fetch_block base rand count k 3 9 36) by lia. reflexivity.
  - rewrite (fetch_block base rand count k 1 12 48) by lia. reflexivity.
  - rewrite (fetch_block base rand count k 1 13 52) by lia. reflexivity.
  - rewrite (fetch_block base rand count k 1 14 56) by lia. reflexivity.
Qed.

Lemma instance_attributes_read_back_witness :
  attribute (data 18 halves 10) "aInstanceSpeed" 7 = [speed (generate 18 halves 7)].
Proof.
  assert (H : (7 < 10)%nat) by lia.
  destruct (instance_attributes_read_back 18 halves 10 7 H)
    as (_ & _ & _ & _ & _ & E & _).
  exact E.
Defined.

Section Ranges.
Local Open Scope R_scope.





End Ranges.

End SakuraDataMore.

Module SceneMore.
Import Gl Draw Scene SceneSpec SceneMoreSpec SceneProps.
Local Open Scope list_scope.
Local Open Scope Q_scope.

(** *** resizeCanvas *)

(** Resizing twice is resizing once: right after [resizeCanvas], a second
    call under the same layout assigns nothing, so the drawing buffer is not
    reallocated; and the backing store is never smaller than 1 by 1. *)
Theorem resizeCanvas_settles :
  forall (env : layout) (c : canvas),
    let c1 := fst (resizeCanvas env c) in
    resizeCanvas env c1 = (c1, []) /\
    (1 <= canvas_width c1)%Z /\ (1 <= canvas_height c1)%Z.
Proof.
  intros env c c1.
  assert (E : (canvas_width c1, canvas_height c1) = target env).
  { unfold c1, resizeCanvas, target.
    destruct (Z.eqb_spec (canvas_width c)
                (Z.max 1 (Math_round (rect_width env
                                      * Qmin (or_1 (devicePixelRatio env)) 2))));
      destruct (Z.eqb_spec (canvas_height c)
                  (Z.max 1 (Math_round (rect_height env
                                        * Qmin (or_1 (devicePixelRatio env)) 2))));
      cbn [negb orb fst canvas_width canvas_height]; congruence. }
  unfold target in E. injection E as Ew Eh.
  repeat apply conj.
  - unfold resizeCanvas. rewrite Ew, Eh, !Z.eqb_refl. reflexivity.
  - rewrite Ew. lia.
  - rewrite Eh. lia.
Qed.

Lemma Math_round_comp x y : x == y -> Math_round x = Math_round y.
Proof. intros H. unfold Math_round. now rewrite H. Qed.

Lemma capped_ratio d : 2 <= d -> or_1 d = d /\ Qmin d 2 == 2.
Proof.
  intros H. split.
  - unfold or_1. destruct (Qeq_bool d 0) eqn:E; [|reflexivity].
    apply Qeq_bool_eq in E. lra.
  - apply Q.min_r. exact H.
Qed.

(** The pixel ratio is capped at 2: two layouts of the same size whose
    ratios are both at least 2 give the same backing store and the same
    assignments. *)
Theorem resizeCanvas_ratio_capped :
  forall (env env' : layout) (c : canvas),
    2 <= devicePixelRatio env ->
    2 <= devicePixelRatio env' ->
    rect_width env = rect_width env' ->
    rect_height env = rect_height env' ->
    resizeCanvas env c = resizeCanvas env' c.
Proof.
  intros env env' c Hd Hd' Hw Hh. unfold resizeCanvas.
  destruct (capped_ratio _ Hd) as [-> M]. destruct (capped_ratio _ Hd') as [-> M'].
  rewrite <- Hw, <- Hh.
  rewrite (Math_round_comp (rect_width env * Qmin (devicePixelRatio env) 2)
             (rect_width env * Qmin (devicePixelRatio env') 2))
    by (now rewrite M, M').
  rewrite (Math_round_comp (rect_height env * Qmin (devicePixelRatio env) 2)
             (rect_height env * Qmin (devicePixelRatio env') 2))
    by (now rewrite M, M').
  reflexivity.
Qed.

Lemma resizeCanvas_ratio_capped_witness :
  resizeCanvas retina default_canvas = resizeCanvas denser default_canvas.
Proof.
  apply resizeCanvas_ratio_capped; [discriminate | discriminate | reflexivity | reflexivity].
Defined.

(** *** render *)

Lemma own_calls_app l1 l2 : own_calls (l1 ++ l2) = own_calls l1 ++ own_calls l2.
Proof. unfold own_calls. apply filter_app. Qed.

Lemma own_calls_GL cs : own_calls (map GL cs) = [].
Proof. induction cs as [|c cs IH]; [reflexivity | exact IH]. Qed.

Lemma own_calls_resize env c :
  own_calls (snd (resizeCanvas env c)) = snd (resizeCanvas env c).
Proof. unfold resizeCanvas. destruct (_ || _); reflexivity. Qed.

(** The order of a frame is fixed.  Leaving the WebGL commands aside, an
    accepted frame is: the canvas resize if any, then the draws of the pulse
    mask, the fog, the wind sprites and the petals, in this order and all at
    the same time [(now - start) * 0.001], then the request for the next
    callback. *)
Theorem frame_draw_order :
  forall (s : scene) (ls : loop_state) (now : Q) (env : layout),
    let t := (now - start ls) * 0.001 in
    own_calls (snd (frame s ls now env))
    = snd (resizeCanvas env (the_canvas s))
      ++ [ LayerDraw PulseMask t; LayerDraw FogLayer t; LayerDraw WindLayer t;
           LayerDraw SakuraLayer t; RequestAnimationFrame ].
Proof.
  intros s ls now env t. unfold frame.
  pose proof (own_calls_resize env (the_canvas s)) as Hr.
  destruct (resizeCanvas env (the_canvas s)) as [c resized]. cbn [snd] in *.
  fold t. rewrite own_calls_app, Hr. f_equal.
  cbn [app]. unfold own_calls at 1. cbn [filter is_GL negb]. fold (own_calls).
  repeat (rewrite ?own_calls_app, ?own_calls_GL;
          unfold own_calls at 1; cbn [filter is_GL negb app]).
  reflexivity.
Qed.

(** *** The loop over sequences of events *)

Lemma run_app es es' s : run (es ++ es') s = run es' (run es s).
Proof. unfold run. apply fold_left_app. Qed.

Lemma request_count_app l1 l2 :
  request_count (l1 ++ l2) = (request_count l1 + request_count l2)%nat.
Proof. unfold request_count. now rewrite filter_app, length_app. Qed.

Lemma request_count_GL cs : request_count (map GL cs) = 0%nat.
Proof. induction cs as [|c cs IH]; [reflexivity | exact IH]. Qed.

Lemma request_count_resize env c : request_count (snd (resizeCanvas env c)) = 0%nat.
Proof. unfold resizeCanvas. destruct (_ || _); reflexivity. Qed.

Lemma request_count_cons c l :
  request_count (c :: l) = ((if is_request c then 1 else 0) + request_count l)%nat.
Proof. unfold request_count. cbn [filter]. destruct (is_request c); reflexivity. Qed.

Lemma request_count_frame s ls now env :
  request_count (snd (frame s ls now env)) = 1%nat.
Proof.
  unfold frame.
  pose proof (request_count_resize env (the_canvas s)) as Hr.
  destruct (resizeCanvas env (the_canvas s)) as [c resized]. cbn [snd] in *.
  rewrite request_count_app, Hr. cbn [app].
  repeat (rewrite ?request_count_cons, ?request_count_app, ?request_count_GL;
          cbn [is_request]).
  reflexivity.
Qed.

(** What [after_settle] does: it starts the loop, when [Promise.all] has
    just fulfilled, or leaves the loop alone. *)
Lemma after_settle_cases now s :
  fps (after_settle now s) = fps s /\
  the_canvas (after_settle now s) = the_canvas s /\
  ((all_ready s = Promise.Pending /\
    all_ready (after_settle now s) <> Promise.Pending /\
    loop (after_settle now s) = Some {| start := now; lastFrameTime := 0 |} /\
    scheduled (after_settle now s) = true /\
    log (after_settle now s) = log s ++ [RequestAnimationFrame])
   \/
   (loop (after_settle now s) = loop s /\
    scheduled (after_settle now s) = scheduled s /\
    log (after_settle now s) = log s /\
    (all_ready s <> Promise.Pending ->
     all_ready (after_settle now s) <> Promise.Pending))).
Proof.
  unfold after_settle.
  destruct (all_ready s) eqn:Ea.
  - destruct (Promise.all Promise.Pending _) eqn:Eall;
      cbn [fps the_canvas loop scheduled log all_ready];
      (split; [reflexivity | split; [reflexivity|]]).
    + right. repeat split. intros H. now elim H.
    + left. repeat split. discriminate.
    + right. repeat split. intros H. now elim H.
  - cbn [Promise.all fps the_canvas loop scheduled log all_ready].
    split; [reflexivity | split; [reflexivity|]]. right. repeat split.
    intros _. discriminate.
  - cbn [Promise.all fps the_canvas loop scheduled log all_ready].
    split; [reflexivity | split; [reflexivity|]]. right. repeat split.
    intros _. discriminate.
Qed.

Lemma step_fps e s : fps (step e s) = fps s.
Proof.
  destruct e as [i ev now | ev now | i ev objs now | now env | env]; cbn [step].
  - now rewrite (proj1 (after_settle_cases now _)).
  - now rewrite (proj1 (after_settle_cases now _)).
  - now rewrite (proj1 (after_settle_cases now _)).
  - destruct (scheduled s); [|reflexivity].
    unfold render. destruct (loop s) as [ls|]; [|reflexivity].
    destruct (_ && _); [reflexivity|].
    destruct (frame s ls now env); reflexivity.
  - destruct (resizeCanvas env (the_canvas s)); reflexivity.
Qed.

Lemma run_fps es : forall s, fps (run es s) = fps s.
Proof.
  induction es as [|e es IH]; intros s; [reflexivity|].
  cbn [run fold_left]. fold (run es (step e s)). now rewrite IH, step_fps.
Qed.

Lemma live_init f : live (init f).
Proof. split; cbn; intros H; now elim H. Qed.

Lemma live_after_settle now s : live s -> live (after_settle now s).
Proof.
  intros [Hs Ha].
  destruct (after_settle_cases now s) as (_ & _ & [(E & Hn & El & Hsch & _) | (El & Hsch & _ & Hn)]).
  - split; intros _; assumption.
  - split; rewrite El; intros H; [apply Hn; now apply Hs | rewrite Hsch; now apply Ha].
Qed.

Lemma live_step e s : live s -> live (step e s).
Proof.
  intros Hl.
  destruct e as [i ev now | ev now | i ev objs now | now env | env]; cbn [step].
  - apply live_after_settle. destruct Hl as [Hs Ha]. split; assumption.
  - apply live_after_settle. destruct Hl as [Hs Ha]. split; assumption.
  - apply live_after_settle. destruct Hl as [Hs Ha]. split; assumption.
  - destruct (scheduled s); [|exact Hl].
    unfold render. destruct (loop s) as [ls|] eqn:El; [|exact Hl].
    destruct Hl as [Hs Ha]. rewrite El in Hs.
    destruct (_ && _).
    + split; cbn [loop all_ready scheduled]; intros _; [apply Hs; discriminate | reflexivity].
    + destruct (frame s ls now env) as [c calls].
      split; cbn [loop all_ready scheduled]; intros _; [apply Hs; discriminate | reflexivity].
  - destruct Hl as [Hs Ha].
    destruct (resizeCanvas env (the_canvas s)) as [c calls].
    split; cbn [loop all_ready scheduled]; assumption.
Qed.

Lemma live_run es : forall s, live s -> live (run es s).
Proof.
  induction es as [|e es IH]; intros s H; [exact H|].
  cbn [run fold_left]. apply IH. now apply live_step.
Qed.

(** One event on a running loop leaves its start time alone. *)
Lemma started_step e s ls :
  live s -> loop s = Some ls ->
  exists ls', loop (step e s) = Some ls' /\ start ls' = start ls.
Proof.
  intros [Hs Ha] El.
  assert (Hn : all_ready s <> Promise.Pending) by (apply Hs; rewrite El; discriminate).
  assert (settle : forall now s', loop s' = loop s -> all_ready s' = all_ready s ->
            exists ls', loop (after_settle now s') = Some ls' /\ start ls' = start ls).
  { intros now s' E1 E2.
    destruct (after_settle_cases now s') as (_ & _ & [(E & _) | (E & _)]).
    - rewrite E2 in E. contradiction.
    - exists ls. rewrite E, E1, El. split; reflexivity. }
  destruct e as [i ev now | ev now | i ev objs now | now env | env]; cbn [step].
  - apply settle; reflexivity.
  - apply settle; reflexivity.
  - apply settle; reflexivity.
  - destruct (scheduled s); [|exists ls; split; [exact El | reflexivity]].
    unfold render. rewrite El.
    destruct (_ && _).
    + exists ls. split; reflexivity.
    + destruct (frame s ls now env) as [c calls]. cbn [loop].
      eexists. split; reflexivity.
  - destruct (resizeCanvas env (the_canvas s)) as [c calls]. cbn [loop].
    exists ls. split; [exact El | reflexivity].
Qed.

Lemma started_run es : forall s ls,
  live s -> loop s = Some ls ->
  exists ls', loop (run es s) = Some ls' /\ start ls' = start ls.
Proof.
  induction es as [|e es IH]; intros s ls Hl El.
  - exists ls. split; [exact El | reflexivity].
  - cbn [run fold_left]. fold (run es (step e s)).
    destruct (started_step e s ls Hl El) as (ls1 & E1 & S1).
    destruct (IH (step e s) ls1 (live_step e s Hl) E1) as (ls2 & E2 & S2).
    exists ls2. split; [exact E2 | congruence].
Qed.

(** Once started, the loop is neither stopped nor restarted: whatever
    happens afterwards (late image events, resizes, callbacks), it keeps the
    start time it was given and a callback stays requested. *)
Theorem loop_keeps_running :
  forall (f : option positive) (es es' : list event) (ls : loop_state),
    loop (run es (init f)) = Some ls ->
    exists ls',
      loop (run (es ++ es') (init f)) = Some ls' /\
      start ls' = start ls /\
      scheduled (run (es ++ es') (init f)) = true.
Proof.
  intros f es es' ls El. rewrite run_app.
  pose proof (live_run es (init f) (live_init f)) as Hl.
  destruct (started_run es' _ ls Hl El) as (ls' & E & S).
  exists ls'. repeat split; [exact E | exact S |].
  apply (live_armed _ (live_run es' _ Hl)). rewrite E. discriminate.
Qed.

Lemma loop_keeps_running_witness :
  exists ls',
    loop (run (images ++ [WindowResize retina; AnimationFrame 50 desktop]) (init targetFps))
    = Some ls' /\
    start ls' = 3 /\
    scheduled (run (images ++ [WindowResize retina; AnimationFrame 50 desktop])
                 (init targetFps)) = true.
Proof.
  apply (loop_keeps_running targetFps images
           [WindowResize retina; AnimationFrame 50 desktop]
           {| start := 3; lastFrameTime := 0 |}).
  reflexivity.
Defined.

(** Every callback of a running loop asks for exactly one more callback,
    whether it draws the frame or skips it. *)
Theorem callback_requests_next :
  forall (f : option positive) (es : list event) (now : Q) (env : layout),
    let s := run es (init f) in
    loop s <> None ->
    request_count (log (step (AnimationFrame now env) s))
    = S (request_count (log s)).
Proof.
  intros f es now env s Hs.
  pose proof (live_run es (init f) (live_init f)) as Hl. fold s in Hl.
  cbn [step]. rewrite (live_armed _ Hl Hs).
  unfold render. destruct (loop s) as [ls|]; [|now elim Hs].
  destruct (_ && _).
  - cbn [log]. rewrite request_count_app. cbn. lia.
  - pose proof (request_count_frame s ls now env) as Hf.
    destruct (frame s ls now env) as [c calls]. cbn [snd] in Hf.
    cbn [log]. rewrite request_count_app, Hf. lia.
Qed.

Lemma callback_requests_next_witness :
  request_count (log (step (AnimationFrame 30 desktop) running))
  = S (request_count (log running)).
Proof.
  apply (callback_requests_next targetFps images 30 desktop).
  intros H. vm_compute in H. discriminate H.
Defined.

(** Without a target frame rate nothing is skipped: every callback of a
    running loop draws the four layers and keeps its time, however close it
    comes to the one before. *)
Theorem unthrottled_draws_every_callback :
  forall (es : list event) (now : Q) (env : layout) (ls : loop_state),
    let s := run es (init None) in
    loop s = Some ls ->
    let s' := step (AnimationFrame now env) s in
    log s' = log s ++ snd (frame s ls now env) /\
    draw_count (log s') = (draw_count (log s) + 4)%nat /\
    loop s' = Some {| start := start ls; lastFrameTime := now |}.
Proof.
  intros es now env ls s El s'.
  pose proof (live_run es (init None) (live_init None)) as Hl. fold s in Hl.
  assert (Hf : fps s = None) by (unfold s; now rewrite run_fps).
  assert (Hsch : scheduled s = true) by (apply (live_armed _ Hl); rewrite El; discriminate).
  unfold s'. cbn [step]. rewrite Hsch. unfold render. rewrite El, Hf.
  cbn [minFrameTime]. change (Qltb 0 0) with false. cbn [andb].
  pose proof (draw_count_frame s ls now env) as Hd.
  destruct (frame s ls now env) as [c calls]. cbn [snd] in *.
  cbn [log loop]. rewrite draw_count_app, Hd. repeat split.
Qed.

Lemma unthrottled_draws_every_callback_witness :
  draw_count (log (step (AnimationFrame 4 desktop) unthrottled))
  = (draw_count (log unthrottled) + 4)%nat.
Proof.
  apply (unthrottled_draws_every_callback images 4 desktop
           {| start := 3; lastFrameTime := 0 |}).
  reflexivity.
Defined.

End SceneMore.

Module LoadMore.
Import Gl Draw Promise LayerSpec LoadSpec.
Local Open Scope list_scope.

(** *** The wind sprites and the order in which their images arrive *)

Lemma distinct_NoDup (l : list nat) : NoDup l -> distinct l = true.
Proof.
  induction 1 as [|a l Hn _ IH]; [reflexivity|].
  cbn [distinct]. rewrite IH, andb_true_r.
  destruct (existsb (Nat.eqb a) l) eqn:E; [|reflexivity].
  apply existsb_exists in E. destruct E as (x & Hx & Ex).
  apply Nat.eqb_eq in Ex. subst x. contradiction.
Qed.

(** A permutation of the four indices is one of twenty-four lists. *)
Lemma four_arrivals (P : list nat -> Prop) :
  (forall a b c d,
      In a [0; 1; 2; 3] -> In b [0; 1; 2; 3] -> In c [0; 1; 2; 3] -> In d [0; 1; 2; 3] ->
      distinct [a; b; c; d] = true -> P [a; b; c; d])%nat ->
  forall order, Permutation [0; 1; 2; 3]%nat order -> P order.
Proof.
  intros H order Hp.
  pose proof (Permutation_length Hp) as L.
  destruct order as [|a [|b [|c [|d [|e order]]]]]; try discriminate L.
  assert (Hin : forall x, In x [a; b; c; d] -> In x [0; 1; 2; 3]%nat)
    by (intros x Hx; exact (Permutation_in x (Permutation_sym Hp) Hx)).
  apply H; try (apply Hin; cbn; tauto).
  apply distinct_NoDup. apply (Permutation_NoDup Hp).
  repeat constructor; cbn; intuition congruence.
Qed.

(** The sprites follow the order of the image list, not the order in which
    the images arrive: once the four images have loaded, in whatever order,
    the layer is ready and its sprites, in drawing order, are the bridge,
    the two flying layers and the leaves, each with its own texture. *)
Theorem wind_sprites_follow_image_list :
  forall (program buffer : handle) (ref : ReferenceSize)
         (tex : nat -> handle) (width height : nat -> Q) (order : list nat),
    Permutation [0; 1; 2; 3]%nat order ->
    let w := wind_run (arrivals tex width height order) (Wind.create program buffer ref) in
    Wind.ready w = Fulfilled tt /\
    Wind.layers w
    = Wind.on_loaded (map (loaded_texture tex width height) [0; 1; 2; 3]%nat) /\
    map Wind.texture (Wind.layers w) = map tex [0; 1; 2; 3]%nat.
Proof.
  intros program buffer ref tex width height order Hp.
  revert order Hp. apply four_arrivals.
  intros a b c d Ha Hb Hc Hd Hdist.
  cbn [In] in Ha, Hb, Hc, Hd.
  destruct Ha as [<- | [<- | [<- | [<- | []]]]];
    destruct Hb as [<- | [<- | [<- | [<- | []]]]];
    try discriminate Hdist;
    destruct Hc as [<- | [<- | [<- | [<- | []]]]];
    try discriminate Hdist;
    destruct Hd as [<- | [<- | [<- | [<- | []]]]];
    try discriminate Hdist;
    clear Hdist; vm_compute; repeat split.
Qed.

Lemma wind_sprites_follow_image_list_witness :
  map Wind.texture
    (Wind.layers
       (wind_run (arrivals (fun i => 20 + i)%nat (fun _ => 400%Q) (fun _ => 300%Q)
                    [2; 0; 3; 1]%nat)
          (Wind.create 1%nat 13%nat Scene.referenceSize)))
  = [20; 21; 22; 23]%nat.
Proof.
  apply (wind_sprites_follow_image_list 1%nat 13%nat Scene.referenceSize
           (fun i => 20 + i)%nat (fun _ => 400%Q) (fun _ => 300%Q) [2; 0; 3; 1]%nat).
  apply (perm_trans (l' := [2; 0; 1; 3]%nat)).
  - apply (perm_trans (l' := [0; 2; 1; 3]%nat)).
    + apply perm_skip. apply perm_swap.
    + apply perm_swap.
  - apply perm_skip. apply perm_skip. apply perm_swap.
Defined.

(** *** A wind image that fails *)

Lemma nth_error_set_nth_other {A} (l : list A) x :
  forall i j, i <> j -> nth_error (set_nth j x l) i = nth_error l i.
Proof.
  induction l as [|y l IH]; intros [|i] [|j] H; cbn; try reflexivity.
  - now elim H.
  - apply IH. congruence.
Qed.

Lemma rejection_set_nth_quiet {A} (l : list (state A)) x :
  is_rejected x = false ->
  forall j, rejection l = None -> rejection (set_nth j x l) = None.
Proof.
  intros Hx. induction l as [|y l IH]; intros [|j] H; cbn in *; try reflexivity.
  - destruct y; try discriminate H; destruct x; try discriminate Hx; exact H.
  - destruct y; try discriminate H; now apply IH.
Qed.

Lemma rejection_set_nth_first {A} (l : list (state A)) r :
  forall i p, rejection l = None -> nth_error l i = Some p ->
              rejection (set_nth i (Rejected r) l) = Some r.
Proof.
  induction l as [|y l IH]; intros [|i] p H E; cbn in *; try discriminate E.
  - reflexivity.
  - destruct y; try discriminate H; now apply (IH i p).
Qed.

Lemma values_pending {A} (l : list (state A)) :
  forall i, nth_error l i = Some Pending -> values l = None.
Proof.
  induction l as [|y l IH]; intros [|i] E; cbn in *; try discriminate E.
  - injection E as ->. reflexivity.
  - destruct y; try reflexivity. now rewrite (IH i E).
Qed.

Lemma waiting_create program buffer ref i :
  (i < 4)%nat -> waiting i (Wind.create program buffer ref).
Proof.
  intros Hi. split; try reflexivity.
  destruct i as [|[|[|[|i]]]]; try reflexivity. lia.
Qed.

Lemma waiting_arrival i j t wd ht w :
  i <> j -> waiting i w ->
  waiting i (Wind.on_image j (Texture.Onload (Some t) wd ht) w).
Proof.
  intros Hij [Hi Hc Hl Hr Hy].
  assert (Hi' : nth_error
                  (settle_nth j (Texture.loadTexture (nth j Wind.urls EmptyString)
                                   (Texture.Onload (Some t) wd ht)) (Wind.loads w)) i
                = Some Pending).
  { unfold settle_nth. destruct (nth_error (Wind.loads w) j); [|exact Hi].
    rewrite nth_error_set_nth_other by exact Hij. exact Hi. }
  assert (Hc' : rejection
                  (settle_nth j (Texture.loadTexture (nth j Wind.urls EmptyString)
                                   (Texture.Onload (Some t) wd ht)) (Wind.loads w))
                = None).
  { unfold settle_nth. destruct (nth_error (Wind.loads w) j) as [p|] eqn:E; [|exact Hc].
    apply rejection_set_nth_quiet; [|exact Hc].
    destruct p; cbn; try reflexivity.
    exfalso. clear - Hc E. revert j E.
    induction (Wind.loads w) as [|y l IH]; intros [|j] E; cbn in *; try discriminate E.
    - injection E as ->. discriminate Hc.
    - destruct y; try discriminate Hc; now apply (IH Hc j). }
  unfold Wind.on_image. rewrite Hl, Hr. unfold all. rewrite Hc'.
  rewrite (values_pending _ i Hi').
  split; cbn [Wind.loads Wind.loaded Wind.ready Wind.layers];
    first [assumption | reflexivity].
Qed.

Lemma waiting_arrivals i tex wd ht before : forall w,
  ~ In i before -> waiting i w -> waiting i (wind_run (arrivals tex wd ht before) w).
Proof.
  induction before as [|j before IH]; intros w Hn Hw; [exact Hw|].
  cbn [arrivals map wind_run fold_left fst snd].
  apply IH; [intros H; apply Hn; now right|].
  apply waiting_arrival; [intros ->; apply Hn; now left | exact Hw].
Qed.

Lemma rejected_stays r : forall evs w,
  Wind.ready w = Rejected r ->
  Wind.ready (wind_run evs w) = Rejected r /\
  Wind.layers (wind_run evs w) = Wind.layers w.
Proof.
  induction evs as [|[j e] evs IH]; intros w Hr; [split; [exact Hr | reflexivity]|].
  cbn [wind_run fold_left fst snd].
  assert (H : Wind.ready (Wind.on_image j e w) = Rejected r /\
              Wind.layers (Wind.on_image j e w) = Wind.layers w)
    by (unfold Wind.on_image; rewrite Hr; split; reflexivity).
  destruct H as [H1 H2]. destruct (IH _ H1) as [H3 H4].
  exact (conj H3 (eq_trans H4 H2)).
Qed.

(** The first image that fails decides the outcome of the wind layer:
    [ready] rejects with the reason of that failure ('Failed to load' and the
    address of the image, or 'Unable to create texture'), whatever loaded
    before and whatever happens afterwards, and the layer keeps no sprite
    and draws nothing. *)
Theorem wind_first_failure_decides :
  forall (program buffer : handle) (ref : ReferenceSize)
         (tex : nat -> handle) (width height : nat -> Q)
         (before : list nat) (i : nat) (ev : Texture.image_event)
         (after : list (nat * Texture.image_event)) (r : string),
    (i < 4)%nat ->
    ~ In i before ->
    Texture.loadTexture (nth i Wind.urls EmptyString) ev = Rejected r ->
    let w := wind_run (arrivals tex width height before ++ (i, ev) :: after)
               (Wind.create program buffer ref) in
    Wind.ready w = Rejected r /\
    Wind.layers w = [] /\
    forall t, Wind.draw w t = [].
Proof.
  intros program buffer ref tex width height before i ev after r Hi Hn He w.
  unfold w, wind_run. rewrite fold_left_app. cbn [fold_left fst snd].
  fold (wind_run (arrivals tex width height before) (Wind.create program buffer ref)).
  destruct (waiting_arrivals i tex width height before _ Hn
              (waiting_create program buffer ref i Hi)) as [Wi Wc Wl Wr Wy].
  set (w0 := wind_run (arrivals tex width height before) (Wind.create program buffer ref))
    in *.
  assert (H : Wind.ready (Wind.on_image i ev w0) = Rejected r /\
              Wind.layers (Wind.on_image i ev w0) = []).
  { unfold Wind.on_image. rewrite He, Wl, Wr. unfold settle_nth. rewrite Wi.
    cbn [settle all]. rewrite (rejection_set_nth_first _ r i Pending Wc Wi).
    split; [reflexivity | exact Wy]. }
  destruct H as [H1 H2].
  destruct (rejected_stays r after _ H1) as [H3 H4].
  fold (wind_run after (Wind.on_image i ev w0)).
  rewrite H2 in H4. repeat split; [exact H3 | exact H4 |].
  intros t. unfold Wind.draw. now rewrite H4.
Qed.

Lemma wind_first_failure_decides_witness :
  Wind.ready
    (wind_run (arrivals (fun i => 20 + i)%nat (fun _ => 400%Q) (fun _ => 300%Q) [0; 3]%nat
               ++ (1%nat, Texture.Onerror)
                  :: [ (2%nat, Texture.Onerror);
                       (1%nat, Texture.Onload (Some 21%nat) 400%Q 300%Q) ])
       (Wind.create 1%nat 13%nat Scene.referenceSize))
  = Rejected "Failed to load assets/flying-1.png".
Proof.
  apply (wind_first_failure_decides 1%nat 13%nat Scene.referenceSize
           (fun i => 20 + i)%nat (fun _ => 400%Q) (fun _ => 300%Q) [0; 3]%nat 1%nat
           Texture.Onerror
           [ (2%nat, Texture.Onerror); (1%nat, Texture.Onload (Some 21%nat) 400%Q 300%Q) ]).
  - lia.
  - cbn. intros [H | [H | []]]; discriminate H.
  - reflexivity.
Defined.

(** *** The petal groups *)

Import Sakura.
Local Open Scope string_scope.

Lemma build_groups_allocated objs : forall texs,
  all_allocated objs (List.length texs) ->
  exists gs,
    build_groups objs texs = Ok gs /\
    map texture gs = map Texture.texture texs /\
    Forall (fun g => count g = 10%Z) gs /\
    (forall k g, nth_error gs k = Some g ->
                 exists b, nth_error objs k = Some (Some (vao g), Some b)).
Proof.
  induction objs as [|o objs IH]; intros [|t texs] H.
  - exists []. repeat split; [constructor | intros [|k] g E; discriminate E].
  - destruct (H 0%nat) as (v & b & E); [cbn; lia | discriminate E].
  - exists []. repeat split; [constructor | intros [|k] g E; discriminate E].
  - destruct (H 0%nat) as (v & b & E); [cbn; lia|].
    cbn in E. injection E as ->.
    destruct (IH texs) as (gs & Eg & Ht & Hc & Hv).
    { intros k Hk. apply (H (S k)). cbn. lia. }
    cbn [build_groups createParticleGroup]. rewrite Eg.
    eexists. split; [reflexivity|]. cbn [map texture]. rewrite Ht.
    repeat split.
    + constructor; [reflexivity | exact Hc].
    + intros [|k] g E.
      * cbn in E. injection E as <-. exists b. reflexivity.
      * cbn in E |- *. now apply Hv.
Qed.

Lemma build_groups_refused objs : forall texs,
  some_refused objs (List.length texs) ->
  build_groups objs texs = Throw "Unable to create particle buffers".
Proof.
  induction objs as [|o objs IH]; intros [|t texs] (k & Hk & Hn);
    try (cbn in Hk; lia); [reflexivity|].
  cbn [build_groups].
  destruct o as [[v|] [b|]]; cbn [createParticleGroup]; try reflexivity.
  destruct k as [|k]; [exfalso; apply (Hn v b); reflexivity|].
  rewrite IH; [reflexivity|]. exists k. split; [cbn in Hk; lia | exact Hn].
Qed.

Lemma on_image_loaded i ev objs w :
  loaded (on_image i ev objs w)
  = all (loaded w)
      (settle_nth i (Texture.loadTexture (nth i urls EmptyString) ev) (loads w)).
Proof.
  unfold on_image.
  destruct (ready w); [destruct (all _ _); [| destruct (build_groups _ _) |] | |];
    reflexivity.
Qed.

(** The petal groups are built all or none.  When the last image has loaded
    and the context hands out a vertex array and a buffer for every group,
    the layer is ready with one group of 10 petals per texture, in the order
    of the image list; when it refuses one of them, [ready] rejects with
    'Unable to create particle buffers' and no group is kept, not even
    those built before the refusal: the groups are what they were, and
    [draw] issues what it issued before. *)
Theorem petal_groups_all_or_none :
  forall (i : nat) (ev : Texture.image_event)
         (objs : list (option handle * option handle)) (w : state)
         (texs : list Texture.LoadedTexture),
    ready w = Pending ->
    loaded (on_image i ev objs w) = Fulfilled texs ->
    let w' := on_image i ev objs w in
    (all_allocated objs (List.length texs) ->
       ready w' = Fulfilled tt /\
       map texture (particleGroups w') = map Texture.texture texs /\
       Forall (fun g => count g = 10%Z) (particleGroups w') /\
       (forall k g, nth_error (particleGroups w') k = Some g ->
                    exists b, nth_error objs k = Some (Some (vao g), Some b))) /\
    (some_refused objs (List.length texs) ->
       ready w' = Rejected "Unable to create particle buffers" /\
       particleGroups w' = particleGroups w /\
       forall t, draw w' t = draw w t).
Proof.
  intros i ev objs w texs Hr Hl w'. unfold w' in *. clear w'.
  rewrite on_image_loaded in Hl. unfold on_image. rewrite Hr, Hl. split.
  - intros Ha. destruct (build_groups_allocated objs texs Ha) as (gs & -> & H).
    cbn [ready particleGroups]. split; [reflexivity | exact H].
  - intros Hn. rewrite (build_groups_refused objs texs Hn).
    cbn [ready particleGroups]. repeat split.
Qed.

Lemma petal_groups_all_or_none_witness :
  (ready (on_image 3 (Texture.Onload (Some 28%nat) 64%Q 64%Q) SceneSpec.objs4 three_petals)
   = Fulfilled tt) /\
  (ready (on_image 3 (Texture.Onload (Some 28%nat) 64%Q 64%Q) objs_refused three_petals)
   = Rejected "Unable to create particle buffers" /\
   particleGroups
     (on_image 3 (Texture.Onload (Some 28%nat) 64%Q 64%Q) objs_refused three_petals)
   = []).
Proof.
  split.
  - refine (proj1 (proj1 (petal_groups_all_or_none 3 (Texture.Onload (Some 28%nat) 64%Q 64%Q)
                            SceneSpec.objs4 three_petals _ eq_refl eq_refl) _)).
    intros [|[|[|[|k]]]] Hk; cbn in Hk; try lia; cbn; eauto.
  - destruct (proj2 (petal_groups_all_or_none 3 (Texture.Onload (Some 28%nat) 64%Q 64%Q)
                       objs_refused three_petals _ eq_refl eq_refl)) as (H1 & H2 & _).
    + exists 2%nat. split; [cbn; lia | intros v b; discriminate].
    + split; [exact H1 | exact H2].
Defined.

End LoadMore.
